(** * SRIP platform: a shallow embedding of [app.py]

    The development follows the layout of the Python module:
    string primitives, the SHA-256 fingerprint, JSON serialisation of the
    message list, the [FinalGroqSystem] methods ([_clean_input],
    [_generate_cache_id], [_execute_groq_call], the four agents,
    [_parse_recommendations], [execute_complete_analysis],
    [_calculate_quality_score]) and then the properties.

    A Python [str] is a sequence of Unicode code points, modelled as
    [list N].  Python [float] arithmetic of the quality score is idealised
    by exact rationals [Q]. *)

From Stdlib Require Import NArith ZArith QArith Lqa List String Ascii Bool Lia.
From stdpp Require Import gmap.

Local Open Scope N_scope.

(** ** Python strings *)

Abbreviation char := N (only parsing).
Abbreviation pystr := (list N) (only parsing).

(** A source literal, written as a Rocq string of ASCII bytes. *)
Definition lit (s : string) : pystr :=
  List.map N_of_ascii (list_ascii_of_string s).

Definition LF : N := 10.
Definition DQUOTE : N := 34.
Definition BACKSLASH : N := 92.

(** Equality of strings and of characters, as booleans. *)
Fixpoint str_eqb (a b : pystr) : bool :=
  match a, b with
  | nil, nil => true
  | x :: a', y :: b' => N.eqb x y && str_eqb a' b'
  | _, _ => false
  end.

Definition char_in (cs : pystr) (c : N) : bool :=
  existsb (N.eqb c) cs.

(** [str.isspace] for one code point; it is also the class [\s] of [re]
    on [str] patterns and the set removed by [str.strip()]. *)
Definition is_space (c : N) : bool :=
  ((9 <=? c) && (c <=? 13)) || ((28 <=? c) && (c <=? 32))
  || (c =? 0x85) || (c =? 0xA0) || (c =? 0x1680)
  || ((0x2000 <=? c) && (c <=? 0x200A))
  || (c =? 0x2028) || (c =? 0x2029) || (c =? 0x202F) || (c =? 0x205F)
  || (c =? 0x3000).

Fixpoint lstrip (s : pystr) : pystr :=
  match s with
  | nil => nil
  | c :: s' => if is_space c then lstrip s' else s
  end.

Definition rstrip (s : pystr) : pystr := rev (lstrip (rev s)).

(** [s.strip()] *)
Definition strip (s : pystr) : pystr := rstrip (lstrip s).

Definition is_empty {A} (l : list A) : bool :=
  match l with [] => true | _ :: _ => false end.

(** [len(s)] as a Python integer. *)
Definition len {A} (l : list A) : Z := Z.of_nat (List.length l).

(** [s[:n]] for a Python integer [n]; a negative bound counts from the
    end. *)
Definition slice_to {A} (n : Z) (s : list A) : list A :=
  if (0 <=? n)%Z then firstn (Z.to_nat n) s
  else firstn (Z.to_nat (len s + n)) s.

(** [sep.join(parts)] *)
Fixpoint join (sep : pystr) (parts : list pystr) : pystr :=
  match parts with
  | nil => nil
  | p :: nil => p
  | p :: ps => p ++ sep ++ join sep ps
  end.

(** [needle in hay] for strings. *)
Fixpoint is_prefix (p s : pystr) : bool :=
  match p, s with
  | nil, _ => true
  | x :: p', y :: s' => N.eqb x y && is_prefix p' s'
  | _ :: _, nil => false
  end.

Fixpoint contains (needle hay : pystr) : bool :=
  is_prefix needle hay ||
  match hay with
  | nil => false
  | _ :: hay' => contains needle hay'
  end.

(** [s.split(sep)] for a one-character separator: always at least one
    piece. *)
Fixpoint split_on (sep : N) (s : pystr) : list pystr :=
  match s with
  | nil => nil :: nil
  | c :: s' =>
      if N.eqb c sep then nil :: split_on sep s'
      else match split_on sep s' with
           | nil => (c :: nil) :: nil
           | p :: ps => (c :: p) :: ps
           end
  end.

(** [x in xs] for a list of strings. *)
Definition str_mem (x : pystr) (xs : list pystr) : bool :=
  existsb (str_eqb x) xs.

(** [str(n)] for a non-negative integer. *)
Fixpoint digits_fuel (fuel : nat) (n : N) (acc : pystr) : pystr :=
  match fuel with
  | O => acc
  | S f =>
      let acc' := (48 + n mod 10) :: acc in
      if n / 10 =? 0 then acc' else digits_fuel f (n / 10) acc'
  end.

Definition str_of_N (n : N) : pystr :=
  digits_fuel (S (N.to_nat (N.log2 n))) n nil.

(** ** SHA-256 ([hashlib.sha256]) over a list of bytes *)

Module SHA256.

Definition mask32 : N := 0xFFFFFFFF.
Definition w32 (x : N) : N := N.land x mask32.
Definition add32 (x y : N) : N := w32 (x + y).
Definition rotr (n x : N) : N :=
  N.lor (N.shiftr x n) (w32 (N.shiftl x (32 - n))).
Definition shr (n x : N) : N := N.shiftr x n.
Definition not32 (x : N) : N := N.lxor x mask32.

Definition Ch (x y z : N) : N :=
  N.lxor (N.land x y) (N.land (not32 x) z).
Definition Maj (x y z : N) : N :=
  N.lxor (N.lxor (N.land x y) (N.land x z)) (N.land y z).
Definition bsig0 (x : N) : N :=
  N.lxor (N.lxor (rotr 2 x) (rotr 13 x)) (rotr 22 x).
Definition bsig1 (x : N) : N :=
  N.lxor (N.lxor (rotr 6 x) (rotr 11 x)) (rotr 25 x).
Definition ssig0 (x : N) : N :=
  N.lxor (N.lxor (rotr 7 x) (rotr 18 x)) (shr 3 x).
Definition ssig1 (x : N) : N :=
  N.lxor (N.lxor (rotr 17 x) (rotr 19 x)) (shr 10 x).

(** The round constants are the first 32 bits of the fractional parts
    of the cube roots of the first 64 primes, the initial hash value
    those of the square roots of the first 8 primes. *)
Definition is_prime (n : nat) : bool :=
  forallb (fun d => negb (Nat.eqb (Nat.modulo n d) 0)) (seq 2 (n - 2)).

Definition primes : list N :=
  List.map N.of_nat (List.filter is_prime (seq 2 310)).

Fixpoint cube_root (bits : nat) (x r : N) : N :=
  match bits with
  | O => r
  | S b =>
      let c := r + N.shiftl 1 (N.of_nat b) in
      cube_root b x (if c * c * c <=? x then c else r)
  end.

Definition K : list N :=
  List.map (fun p => w32 (cube_root 40 (N.shiftl p 96) 0)) primes.

Definition H0 : list N :=
  List.map (fun p => w32 (N.sqrt (N.shiftl p 64))) (firstn 8 primes).

(** Big-endian bytes of a number, [k] bytes wide. *)
Fixpoint be_bytes (k : nat) (x : N) : list N :=
  match k with
  | O => nil
  | S k' => N.land (N.shiftr x (8 * N.of_nat k')) 0xFF :: be_bytes k' x
  end.

Definition be_word (bs : list N) : N :=
  fold_left (fun acc b => N.lor (N.shiftl acc 8) b) bs 0.

(** Padding: a one bit, zeros up to 56 mod 64, the bit length on 64 bits. *)
Definition pad (msg : list N) : list N :=
  let l := N.of_nat (List.length msg) in
  let zeros := (64 + 55 - l mod 64) mod 64 in
  msg ++ 0x80 :: repeat 0 (N.to_nat zeros) ++ be_bytes 8 (8 * l).

Fixpoint chunks {A} (fuel size : nat) (l : list A) : list (list A) :=
  match fuel, l with
  | O, _ | _, nil => nil
  | S f, _ => firstn size l :: chunks f size (skipn size l)
  end.

Definition words_of_block (b : list N) : list N :=
  List.map be_word (chunks 16 4 b).

(** The message schedule, extended from 16 to 64 words. *)
Fixpoint schedule (n : nat) (w : list N) : list N :=
  match n with
  | O => w
  | S n' =>
      let t := List.length w in
      let g i := nth (t - i) w 0 in
      schedule n' (w ++ [add32 (add32 (ssig1 (g 2%nat)) (g 7%nat))
                               (add32 (ssig0 (g 15%nat)) (g 16%nat))])
  end.

Record regs := Regs { ra : N; rb : N; rc : N; rd : N;
                      re : N; rf : N; rg : N; rh : N }.

Definition round (r : regs) (kw : N * N) : regs :=
  let t1 := add32 (add32 (add32 (rh r) (bsig1 (re r)))
                         (add32 (Ch (re r) (rf r) (rg r)) (fst kw)))
                  (snd kw) in
  let t2 := add32 (bsig0 (ra r)) (Maj (ra r) (rb r) (rc r)) in
  Regs (add32 t1 t2) (ra r) (rb r) (rc r) (add32 (rd r) t1)
       (re r) (rf r) (rg r).

Definition regs_of (h : list N) : regs :=
  Regs (nth 0 h 0) (nth 1 h 0) (nth 2 h 0) (nth 3 h 0)
       (nth 4 h 0) (nth 5 h 0) (nth 6 h 0) (nth 7 h 0).

Definition compress (h : list N) (block : list N) : list N :=
  let w := schedule 48 (words_of_block block) in
  let r := fold_left round (combine K w) (regs_of h) in
  let i := regs_of h in
  [ add32 (ra i) (ra r); add32 (rb i) (rb r); add32 (rc i) (rc r);
    add32 (rd i) (rd r); add32 (re i) (re r); add32 (rf i) (rf r);
    add32 (rg i) (rg r); add32 (rh i) (rh r) ].

Definition digest (msg : list N) : list N :=
  let p := pad msg in
  let h := fold_left compress (chunks (List.length p) 64 p) H0 in
  flat_map (be_bytes 4) h.

Definition hex_digit (d : N) : N :=
  if d <? 10 then 48 + d else 87 + d.

(** [hashlib.sha256(bytes).hexdigest()] *)
Definition hexdigest (msg : list N) : pystr :=
  flat_map (fun b => [hex_digit (N.shiftr b 4); hex_digit (N.land b 15)])
           (digest msg).

End SHA256.

(** ** Text encoding and JSON serialisation *)

(** [s.encode()]: UTF-8; lone surrogates cannot be encoded. *)
Definition utf8_char (c : N) : option (list N) :=
  if c <? 0x80 then Some [c]
  else if c <? 0x800 then
    Some [N.lor 0xC0 (N.shiftr c 6); N.lor 0x80 (N.land c 0x3F)]
  else if (0xD800 <=? c) && (c <=? 0xDFFF) then None
  else if c <? 0x10000 then
    Some [N.lor 0xE0 (N.shiftr c 12);
          N.lor 0x80 (N.land (N.shiftr c 6) 0x3F);
          N.lor 0x80 (N.land c 0x3F)]
  else if c <? 0x110000 then
    Some [N.lor 0xF0 (N.shiftr c 18);
          N.lor 0x80 (N.land (N.shiftr c 12) 0x3F);
          N.lor 0x80 (N.land (N.shiftr c 6) 0x3F);
          N.lor 0x80 (N.land c 0x3F)]
  else None.

Fixpoint utf8_encode (s : pystr) : option (list N) :=
  match s with
  | nil => Some nil
  | c :: s' =>
      match utf8_char c, utf8_encode s' with
      | Some b, Some bs => Some (b ++ bs)
      | _, _ => None
      end
  end.

Definition hex4 (n : N) : pystr :=
  List.map (fun k => SHA256.hex_digit (N.land (N.shiftr n (4 * k)) 15))
           [3; 2; 1; 0].

(** A [\uXXXX] escape. *)
Definition u_escape (n : N) : pystr := BACKSLASH :: 117 :: hex4 n.

(** One character of a JSON string under [ensure_ascii=True]: the short
    escapes, printable ASCII as it is, everything else as [\uXXXX]
    (a surrogate pair above the basic plane). *)
Definition json_escape_char (c : N) : pystr :=
  if c =? DQUOTE then [BACKSLASH; DQUOTE]
  else if c =? BACKSLASH then [BACKSLASH; BACKSLASH]
  else if c =? 10 then [BACKSLASH; 110]
  else if c =? 13 then [BACKSLASH; 114]
  else if c =? 9 then [BACKSLASH; 116]
  else if c =? 8 then [BACKSLASH; 98]
  else if c =? 12 then [BACKSLASH; 102]
  else if (32 <=? c) && (c <=? 126) then [c]
  else if c <? 0x10000 then u_escape c
  else
    let n := c - 0x10000 in
    u_escape (N.lor 0xD800 (N.land (N.shiftr n 10) 0x3FF))
    ++ u_escape (N.lor 0xDC00 (N.land n 0x3FF)).

Definition json_string (s : pystr) : pystr :=
  DQUOTE :: flat_map json_escape_char s ++ [DQUOTE].

(** ** Data model *)

(** A chat message.  Every message list of the module is built by the
    agents from dict literals with exactly the keys [role] and
    [content], both strings. *)
Record Message := { role : pystr; content : pystr }.

(** [json.dumps(m, sort_keys=True)] of one message: keys in sorted
    order, the default separators. *)
Definition json_message (m : Message) : pystr :=
  lit "{" ++ json_string (lit "content") ++ lit ": "
  ++ json_string (content m) ++ lit ", "
  ++ json_string (lit "role") ++ lit ": " ++ json_string (role m)
  ++ lit "}".

(** [json.dumps(messages, sort_keys=True)] *)
Definition json_dumps (ms : list Message) : pystr :=
  lit "[" ++ join (lit ", ") (List.map json_message ms) ++ lit "]".

(** Exceptions the module distinguishes.  [groq.RateLimitError] is a
    subclass of [groq.APIError]; the handlers are tried in source
    order. *)
Inductive exn :=
| RateLimitError (msg : pystr)
| APIError (msg : pystr)
| UnicodeEncodeError
| ZeroDivisionError
| ValueError (msg : pystr)
| OtherException (msg : pystr).

Inductive result (A : Type) :=
| Ok (a : A)
| Raised (e : exn).
Arguments Ok {A} a.
Arguments Raised {A} e.

(** The request of [client.chat.completions.create]. *)
Record request := {
  req_model : pystr;
  req_messages : list Message;
  req_max_tokens : Z;
  req_temperature : Q;
  req_top_p : Q;
  req_frequency_penalty : Q;
  req_timeout : Z
}.

(** The response: [response.choices[i].message.content], which may be
    [None]. *)
Record choice := { message_content : option pystr }.
Record response := { choices : list choice }.

(** What a run leaves behind in the world, oldest first: each remote
    dispatch with what came back, and each sleep. *)
Inductive event :=
| Dispatch (r : request) (out : result response)
| Sleep (seconds : Z).

(** [BusinessReport] *)
Record BusinessReport := {
  query : pystr;
  targets : list pystr;
  market_intelligence : pystr;
  competitive_landscape : pystr;
  risk_evaluation : pystr;
  strategic_actions : list pystr;
  executive_briefing : pystr;
  analysis_quality : Q;
  processing_duration : Q;
  completion_status : list (pystr * bool)
}.

(** The assignments to the fields of a report made by the orchestrator. *)
Definition set_results (r : BusinessReport) (market competitive risk : pystr)
           (actions : list pystr) (briefing : pystr) (duration : Q)
           (status : list (pystr * bool)) : BusinessReport :=
  {| query := query r;
     targets := targets r;
     market_intelligence := market;
     competitive_landscape := competitive;
     risk_evaluation := risk;
     strategic_actions := actions;
     executive_briefing := briefing;
     analysis_quality := analysis_quality r;
     processing_duration := duration;
     completion_status := status |}.

Definition set_analysis_quality (q : Q) (r : BusinessReport) : BusinessReport :=
  {| query := query r;
     targets := targets r;
     market_intelligence := market_intelligence r;
     competitive_landscape := competitive_landscape r;
     risk_evaluation := risk_evaluation r;
     strategic_actions := strategic_actions r;
     executive_briefing := executive_briefing r;
     analysis_quality := q;
     processing_duration := processing_duration r;
     completion_status := completion_status r |}.

(** [d[k] = v] on a dict kept in insertion order. *)
Fixpoint dict_set {V} (k : pystr) (v : V) (d : list (pystr * V))
  : list (pystr * V) :=
  match d with
  | nil => [(k, v)]
  | (k', v') :: d' =>
      if str_eqb k k' then (k, v) :: d' else (k', v') :: dict_set k v d'
  end.

(** ** The ASCII part of the Unicode tables *)

Definition ascii_upper_char (c : N) : N :=
  if (97 <=? c) && (c <=? 122) then c - 32 else c.
Definition ascii_lower_char (c : N) : N :=
  if (65 <=? c) && (c <=? 90) then c + 32 else c.
Definition ascii_is_alnum (c : N) : bool :=
  ((48 <=? c) && (c <=? 57)) || ((65 <=? c) && (c <=? 90))
  || ((97 <=? c) && (c <=? 122)).
Definition ascii_is_decimal (c : N) : bool := (48 <=? c) && (c <=? 57).
Definition is_ascii (s : pystr) : bool := forallb (fun c => c <? 128) s.

(** ** State *)

(** The [FinalGroqSystem] instance together with the world around it:
    the dict objects that message lists refer to, the remote service (of
    hidden state [R]) and the log of dispatches and sleeps. *)
Record state (R : Type) := State {
  heap : gmap nat Message;
  next_loc : nat;
  primary_model : pystr;
  fallback_models : list pystr;
  response_cache : gmap pystr pystr;
  service : R;
  trace : list event
}.
Arguments State {R}.
Arguments heap {R}.
Arguments next_loc {R}.
Arguments primary_model {R}.
Arguments fallback_models {R}.
Arguments response_cache {R}.
Arguments service {R}.
Arguments trace {R}.

Definition set_heap {R : Type} (h : gmap nat Message) (st : state R) : state R :=
  State h (next_loc st) (primary_model st) (fallback_models st)
        (response_cache st) (service st) (trace st).
Definition set_next_loc {R : Type} (n : nat) (st : state R) : state R :=
  State (heap st) n (primary_model st) (fallback_models st)
        (response_cache st) (service st) (trace st).
Definition set_response_cache {R : Type} (c : gmap pystr pystr) (st : state R)
  : state R :=
  State (heap st) (next_loc st) (primary_model st) (fallback_models st)
        c (service st) (trace st).
Definition set_service {R : Type} (r : R) (st : state R) : state R :=
  State (heap st) (next_loc st) (primary_model st) (fallback_models st)
        (response_cache st) r (trace st).
Definition add_event {R : Type} (e : event) (st : state R) : state R :=
  State (heap st) (next_loc st) (primary_model st) (fallback_models st)
        (response_cache st) (service st) (trace st ++ [e]).

(** [FinalGroqSystem.__init__], run in a world with the given dict
    objects and remote service. *)
Definition __init__ {R : Type} (api_key : pystr) (h : gmap nat Message) (n : nat)
           (r : R) : result (state R) :=
  if is_empty api_key || (len api_key <? 15)%Z
  then Raised (ValueError (lit "Invalid Groq API key"))
  else Ok (State h n (lit "llama-3.1-70b-versatile")
                 [lit "mixtral-8x7b-32768"; lit "llama-3.1-8b-instant"]
                 ∅ r []).

(** ** Vocabulary of the properties *)

Definition ascii_only (s : pystr) : Prop := Forall (fun c => c < 128) s.

(** The cache key of a message list. *)
Definition fingerprint (ms : list Message) : pystr :=
  slice_to 20 (SHA256.hexdigest (json_dumps ms)).

(** The text of a response that passes the acceptance test of the
    executor: a first choice with non-empty content whose trimmed length
    exceeds 150. *)
Definition accepted_content (resp : response) : option pystr :=
  match choices resp with
  | c :: _ =>
      match message_content c with
      | Some ((_ :: _) as text) =>
          if (150 <? len (strip text))%Z then Some (strip text) else None
      | _ => None
      end
  | [] => None
  end.

(** Nothing but the service and the log changed between two states. *)
Definition quiet {R : Type} (st st' : state R) : Prop :=
  heap st' = heap st
  /\ next_loc st' = next_loc st
  /\ primary_model st' = primary_model st
  /\ fallback_models st' = fallback_models st
  /\ response_cache st' = response_cache st
  /\ exists evs, trace st' = trace st ++ evs.

(** As [quiet], but the last thing that happened is a dispatch whose
    accepted content [v] went into the cache under [k]. *)
Definition stored {R : Type} (k v : pystr) (st st' : state R) : Prop :=
  heap st' = heap st
  /\ next_loc st' = next_loc st
  /\ primary_model st' = primary_model st
  /\ fallback_models st' = fallback_models st
  /\ response_cache st' = <[k := v]> (response_cache st)
  /\ (150 < len v)%Z
  /\ exists evs req resp,
       trace st' = trace st ++ evs ++ [Dispatch req (Ok resp)]
       /\ accepted_content resp = Some v.

(** The models and the sleeps of a log. *)
Definition dispatched_models (evs : list event) : list pystr :=
  flat_map (fun e => match e with
                     | Dispatch req _ => [req_model req]
                     | Sleep _ => []
                     end) evs.

Definition dispatched_messages (evs : list event) : list (list Message) :=
  flat_map (fun e => match e with
                     | Dispatch req _ => [req_messages req]
                     | Sleep _ => []
                     end) evs.

Definition sleeps (evs : list event) : list Z :=
  flat_map (fun e => match e with
                     | Dispatch _ _ => []
                     | Sleep n => [n]
                     end) evs.

(** The first message with the accuracy clause appended, as the
    executor leaves it. *)
Definition with_suffix (suffix : pystr) (m : Message) : Message :=
  {| role := role m; content := content m ++ suffix |}.

(** ** Fixtures *)

Definition service_rate_limited (_ : unit) (_ : request)
  : result response * unit :=
  (Raised (RateLimitError (lit "rate limit reached")), tt).

Definition service_fixed (text : pystr) (_ : unit) (_ : request)
  : result response * unit :=
  (Ok {| choices := [ {| message_content := Some text |} ] |}, tt).

Definition sample_text : pystr := repeat 97 200.


Definition default_models : pystr * list pystr :=
  (lit "llama-3.1-70b-versatile",
   [lit "mixtral-8x7b-32768"; lit "llama-3.1-8b-instant"]).

(** A fresh system in a world holding the given dict objects. *)
Definition fresh_system (h : gmap nat Message) (n : nat) : state unit :=
  State h n (fst default_models) (snd default_models) ∅ tt [].

(** One system message and one user message, at locations 0 and 1. *)
Definition two_messages : gmap nat Message :=
  <[ 1%nat := {| role := lit "user"; content := lit "hi" |} ]>
    {[ 0%nat := {| role := lit "system"; content := lit "Be brief." |} ]}.

Definition parser_example : pystr :=
  lit "1. Develop a new channel strategy for enterprise clients
2. Expand into APAC markets".

(** Stand-ins for the parts left to the runtime. *)
Definition no_class (_ : N) : bool := false.
Definition no_case (s : pystr) : pystr := s.
Definition render_briefing (r : BusinessReport) : pystr := executive_briefing r.
Definition render_error (q : pystr) (_ : exn) : pystr * pystr :=
  (q, lit "Analysis failed").
Definition no_time (_ : list event) : Q := 0%Q.

(** A key that passes the check of [__init__]. *)
Definition sample_api_key : pystr := lit "gsk_0123456789abcdef".

(** Two more dict objects with the contents of the first two. *)
Definition with_copies (h : gmap nat Message) : gmap nat Message :=
  <[ 3%nat := {| role := lit "user"; content := lit "hi" |} ]>
    (<[ 2%nat := {| role := lit "system"; content := lit "Be brief." |} ]> h).

Definition sample_report : BusinessReport :=
  {| query := lit "Strategic analysis of the market";
     targets := [];
     market_intelligence := [];
     competitive_landscape := [];
     risk_evaluation := [];
     strategic_actions := [];
     executive_briefing := [];
     analysis_quality := 0.0;
     processing_duration := 0.0;
     completion_status := [] |}.

(** ** Further vocabulary *)

(** The requests of a log, oldest first. *)
Definition dispatched_requests (evs : list event) : list request :=
  flat_map (fun e => match e with
                     | Dispatch req _ => [req]
                     | Sleep _ => []
                     end) evs.

(** The request the executor builds for a model. *)
Definition request_for (model : pystr) (msgs : list Message) (max_tokens : Z)
  : request :=
  {| req_model := model;
     req_messages := msgs;
     req_max_tokens := max_tokens;
     req_temperature := 0.1;
     req_top_p := 0.9;
     req_frequency_penalty := 0.15;
     req_timeout := 60 |}.

Definition total (ws : list Z) : Z := fold_right Z.add 0%Z ws.

(** The longest a call can sleep over [n] models, the first of which has
    index [i]: 15 + 30 + 45 seconds and three times 10 seconds per index. *)
Fixpoint wait_budget (i : Z) (n : nat) : Z :=
  match n with
  | O => 0
  | S n' => 90 + 30 * i + wait_budget (i + 1) n'
  end.

Definition is_hex_digit (c : N) : bool :=
  ((48 <=? c) && (c <=? 57)) || ((97 <=? c) && (c <=? 102)).

(** What every parsed recommendation satisfies: more than 20
    characters, on one line. *)
Definition item_ok (x : pystr) : Prop :=
  (20 < len x)%Z /\ Forall (fun c => c <> LF) x.

(** ** Further fixtures *)

Definition service_decommissioned (_ : unit) (_ : request)
  : result response * unit :=
  (Raised (APIError (lit "The model has been decommissioned")), tt).

Definition short_text : pystr := lit "Too short to be accepted.".

(** Ten characters, none of which the sanitiser keeps. *)
Definition unusable_query : pystr := repeat BACKSLASH 10.

Definition usable_query : pystr := lit "Strategic analysis of AI".

Definition padded_text : pystr := lit "  growth plan  ".


(** ** Reading a serialised character back *)









(** One message with an astral character, and the same message with
    the two surrogates of its escape as separate characters. *)
Definition astral_message : list Message :=
  [{| role := lit "user"; content := lit "ok " ++ [0x1F600; 10; 233] |}].

Definition surrogate_message : list Message :=
  [{| role := lit "user"; content := lit "ok " ++ [0xD83D; 0xDE00; 10; 233] |}].

(** ** The platform *)

Section Platform.

(** The Unicode character database beyond ASCII belongs to the Python
    runtime.  On ASCII the tables are the ones above. *)
Variable unicode_is_alnum : N -> bool.
Variable unicode_is_decimal : N -> bool.
Variable unicode_lower : pystr -> pystr.
Variable unicode_upper : pystr -> pystr.

(** The remote completion service: a hidden state and, for each
    request, a response or a raised exception. *)
Variable R : Type.
Variable remote : R -> request -> result response * R.

Definition is_alnum (c : N) : bool :=
  if c <? 128 then ascii_is_alnum c else unicode_is_alnum c.
Definition is_decimal (c : N) : bool :=
  if c <? 128 then ascii_is_decimal c else unicode_is_decimal c.
(** [s.lower()], [s.upper()] *)
Definition lower (s : pystr) : pystr :=
  if is_ascii s then List.map ascii_lower_char s else unicode_lower s.
Definition upper (s : pystr) : pystr :=
  if is_ascii s then List.map ascii_upper_char s else unicode_upper s.
(** The class [\w] of [re]. *)
Definition is_word (c : N) : bool := is_alnum c || (c =? 95).

(** *** [_clean_input] *)

(** An argument that may fail to be a string. *)
Inductive pyval :=
| VStr (s : pystr)
| VOther (truthy : bool).

(** The characters listed in the class after [\w\s]. *)
Definition allowed_punctuation : pystr :=
  lit "-.,!?()'" ++ [DQUOTE] ++ lit "@#$%&*+/:;<=>[]^`{|}~"
  ++ [0x20AC; 0xA3; 0xA5].

Definition allowed (c : N) : bool :=
  is_word c || is_space c || char_in allowed_punctuation c.

Definition _clean_input (text : pyval) (max_chars : Z) : pystr :=
  match text with
  | VOther _ => []
  | VStr [] => []
  | VStr s => slice_to max_chars (strip (List.filter allowed s))
  end.

(** The default [max_chars=4000]. *)
Definition _clean_input_default (text : pyval) : pystr :=
  _clean_input text 4000.

(** *** [_generate_cache_id] *)

Definition _generate_cache_id (content : pystr) : result pystr :=
  match utf8_encode content with
  | Some bytes => Ok (slice_to 20 (SHA256.hexdigest bytes))
  | None => Raised UnicodeEncodeError
  end.

(** *** Effects *)

(** [section_tokens] is never written after [__init__]. *)
Definition tokens_market : Z := 1000.
Definition tokens_competitive : Z := 1000.
Definition tokens_risk : Z := 800.
Definition tokens_recommendations : Z := 700.
Definition tokens_summary : Z := 600.

(** Computations read and write the state and may raise. *)
Definition M (A : Type) : Type := state R -> result A * state R.

Definition ret {A} (a : A) : M A := fun st => (Ok a, st).
Definition bind {A B} (c : M A) (k : A -> M B) : M B :=
  fun st =>
    match c st with
    | (Ok a, st') => k a st'
    | (Raised e, st') => (Raised e, st')
    end.
Definition lift {A} (r : result A) : M A := fun st => (r, st).
(** [try: body except Exception as e: handler]; what the body did
    before raising stays done. *)
Definition try_catch {A} (body : M A) (handler : exn -> M A) : M A :=
  fun st =>
    match body st with
    | (Ok a, st') => (Ok a, st')
    | (Raised e, st') => handler e st'
    end.

Notation "'let*' x ':=' c1 'in' c2" := (bind c1 (fun x => c2))
  (at level 10, x name, c1 at level 100, c2 at level 200).
Notation "'let*' ' p ':=' c1 'in' c2" :=
  (bind c1 (fun x => match x with p => c2 end))
  (at level 10, p pattern, c1 at level 100, c2 at level 200).

Definition deref (h : gmap nat Message) (l : nat) : Message :=
  default {| role := []; content := [] |} (h !! l).

(** The current contents of the dicts a list refers to. *)
Definition view (st : state R) (ms : list nat) : list Message :=
  List.map (deref (heap st)) ms.

Definition read_messages (ms : list nat) : M (list Message) :=
  fun st => (Ok (view st ms), st).

(** [d["content"] += suffix] on the dict object at [l]. *)
Definition append_content (l : nat) (suffix : pystr) : M unit :=
  fun st =>
    (Ok tt,
     set_heap (alter (fun m => {| role := role m;
                                  content := content m ++ suffix |})
                     l (heap st)) st).

(** A dict literal [{"role": r, "content": c}]: a new object. *)
Definition new_message (r c : pystr) : M nat :=
  fun st =>
    let l := next_loc st in
    (Ok l, set_next_loc (S l)
             (set_heap (<[l := {| role := r; content := c |}]> (heap st)) st)).

Definition sleep (seconds : Z) : M unit :=
  fun st => (Ok tt, add_event (Sleep seconds) st).

Definition cache_lookup (k : pystr) : M (option pystr) :=
  fun st => (Ok (response_cache st !! k), st).

Definition cache_store (k v : pystr) : M unit :=
  fun st => (Ok tt, set_response_cache (<[k := v]> (response_cache st)) st).

Definition get_all_models : M (list pystr) :=
  fun st => (Ok (primary_model st :: fallback_models st), st).

(** [self.client.chat.completions.create(...)] *)
Definition chat_completions_create (req : request) : M response :=
  fun st =>
    let (out, r') := remote (service st) req in
    (out, set_service r' (add_event (Dispatch req out) st)).

(** [l.copy()]: a new list object holding the same references.  Lists
    are values here, since no list is written after it is built; the dict
    objects they refer to live in the heap and are shared. *)
Definition copy (l : list nat) : list nat := l.

(** *** Loops *)

(** How one iteration of a loop body ends: the function returns, the
    loop goes to its next iteration, or the loop is left. *)
Inductive flow :=
| FReturn (s : pystr)
| FNext
| FBreak.

(** [for x in xs: body]: [Some s] when the body returned [s], [None]
    when the loop ran out or was left by [break]. *)
Fixpoint for_each {A} (xs : list A) (body : A -> M flow)
  : M (option pystr) :=
  match xs with
  | [] => ret None
  | x :: xs' =>
      let* f := body x in
      match f with
      | FReturn s => ret (Some s)
      | FBreak => ret None
      | FNext => for_each xs' body
      end
  end.

Fixpoint enumerate_from {A} (i : Z) (l : list A) : list (Z * A) :=
  match l with
  | [] => []
  | x :: l' => (i, x) :: enumerate_from (i + 1)%Z l'
  end.
Definition enumerate {A} (l : list A) : list (Z * A) := enumerate_from 0 l.

(** [range(3)] *)
Definition range3 : list Z := [0; 1; 2]%Z.

(** *** [_execute_groq_call] *)

Definition accuracy_clause : pystr :=
  lit " Focus on factual, evidence-based analysis. Clearly distinguish between verified information and reasonable estimates.".

Definition no_input_text (context : pystr) : pystr :=
  lit "No input provided for " ++ context ++ lit " analysis.".

(** The three literal pieces of the fallback f-string. *)
Definition fallback_opening : pystr :=
  lit "
".

Definition fallback_heading : pystr :=
  lit " ANALYSIS - LIMITED AVAILABILITY

Due to high system demand, detailed ".

Definition fallback_guidance : pystr :=
  lit " analysis is temporarily constrained. 
Key insights based on general market knowledge:

- Market conditions show typical enterprise software adoption patterns
- Competitive dynamics reflect standard technology sector characteristics  
- Risk factors align with common enterprise technology concerns
- Strategic considerations follow established business frameworks

For complete analysis, please retry in a few minutes when system capacity improves.
        ".

Definition fallback_text (context : pystr) : pystr :=
  strip (fallback_opening ++ upper context ++ fallback_heading
         ++ context ++ fallback_guidance).

(** One pass through the [try] statement of the inner loop. *)
Definition attempt_call (cache_id : pystr) (enhanced_messages : list nat)
           (max_tokens : Z) (model_index : Z) (model : pystr)
           (attempt : Z) : M flow :=
  try_catch
    (let* msgs := read_messages enhanced_messages in
     let* response :=
       chat_completions_create
         {| req_model := model;
            req_messages := msgs;
            req_max_tokens := max_tokens;
            req_temperature := 0.1;
            req_top_p := 0.9;
            req_frequency_penalty := 0.15;
            req_timeout := 60 |} in
     match choices response with
     | c :: _ =>
         match message_content c with
         | Some ((_ :: _) as text) =>
             let content := strip text in
             if (150 <? len content)%Z then
               let* _ := cache_store cache_id content in
               ret (FReturn content)
             else ret FNext
         | _ => ret FNext
         end
     | [] => ret FNext
     end)
    (fun e =>
       match e with
       | RateLimitError _ =>
           let wait_time := ((attempt + 1) * 15 + model_index * 10)%Z in
           let* _ := sleep wait_time in
           ret FNext
       | APIError msg =>
           let error_msg := lower msg in
           if contains (lit "decommissioned") error_msg
              || contains (lit "not found") error_msg
           then ret FBreak
           else
             let* _ := sleep ((attempt + 1) * 5)%Z in
             ret FNext
       | _ =>
           let* _ := sleep ((attempt + 1) * 3)%Z in
           ret FNext
       end).

(** The two nested loops over models and attempts. *)
Definition try_models (cache_id : pystr) (enhanced_messages : list nat)
           (max_tokens : Z) (all_models : list pystr) : M (option pystr) :=
  for_each (enumerate all_models)
    (fun im =>
       let* r := for_each range3
                   (attempt_call cache_id enhanced_messages max_tokens
                                 (fst im) (snd im)) in
       match r with
       | Some s => ret (FReturn s)
       | None => ret FNext
       end).

Definition _execute_groq_call (messages : list nat) (max_tokens : Z)
           (context : pystr) : M pystr :=
  match messages with
  | [] => ret (no_input_text context)
  | _ :: _ =>
      let* msgs := read_messages messages in
      let* cache_id := lift (_generate_cache_id (json_dumps msgs)) in
      let* cached := cache_lookup cache_id in
      match cached with
      | Some r => ret r
      | None =>
          let enhanced_messages := copy messages in
          let* _ :=
            match enhanced_messages with
            | first :: _ => append_content first accuracy_clause
            | [] => ret tt
            end in
          let* all_models := get_all_models in
          let* r := try_models cache_id enhanced_messages max_tokens
                               all_models in
          match r with
          | Some content => ret content
          | None => ret (fallback_text context)
          end
      end
  end.


(** *** [_parse_recommendations] *)

(** The two patterns of the parser are sequences of character classes,
    each taken once, zero or more times or one or more times; [re.match]
    anchors them at the start of the line and repetition is greedy, giving
    back one character at a time. *)
Inductive quantifier := Once | Star | Plus.

Record atom := { cls : N -> bool; quant : quantifier }.

Fixpoint run_length (p : N -> bool) (s : pystr) : nat :=
  match s with
  | c :: s' => if p c then S (run_length p s') else O
  | [] => O
  end.

(** Try [k], [k-1], ... down to [lo] repetitions. *)
Fixpoint backtrack (k lo : nat) (s : pystr)
         (rest : pystr -> option (list pystr)) : option (list pystr) :=
  if (k <? lo)%nat then None
  else
    match rest (skipn k s) with
    | Some gs => Some (firstn k s :: gs)
    | None =>
        match k with
        | O => None
        | S k' => backtrack k' lo s rest
        end
    end.

(** The text matched by each atom, when the whole pattern matches a
    prefix of [s]. *)
Fixpoint re_match (pat : list atom) (s : pystr) : option (list pystr) :=
  match pat with
  | [] => Some []
  | a :: pat' =>
      match quant a with
      | Once => backtrack (Nat.min 1 (run_length (cls a) s)) 1 s (re_match pat')
      | Star => backtrack (run_length (cls a) s) 0 s (re_match pat')
      | Plus => backtrack (run_length (cls a) s) 1 s (re_match pat')
      end
  end.

Definition not_newline (c : N) : bool := negb (c =? LF).

(** [^(\d+)[\.\)]\s*(.+)] *)
Definition numbered_pattern : list atom :=
  [ {| cls := is_decimal; quant := Plus |};
    {| cls := char_in (lit ".)"); quant := Once |};
    {| cls := is_space; quant := Star |};
    {| cls := not_newline; quant := Plus |} ].

(** [^[\-\*\•]\s*(.+)] *)
Definition bullet_pattern : list atom :=
  [ {| cls := char_in [45; 42; 0x2022]; quant := Once |};
    {| cls := is_space; quant := Star |};
    {| cls := not_newline; quant := Plus |} ].

(** [numbered_match.group(2)] and [bullet_match.group(1)], when the line
    matches. *)
Definition numbered_match (line : pystr) : option pystr :=
  match re_match numbered_pattern line with
  | Some [_; _; _; g2] => Some g2
  | _ => None
  end.

Definition bullet_match (line : pystr) : option pystr :=
  match re_match bullet_pattern line with
  | Some [_; _; g1] => Some g1
  | _ => None
  end.

Definition action_words : list pystr :=
  [ lit "develop"; lit "implement"; lit "establish"; lit "create";
    lit "invest"; lit "expand"; lit "focus"; lit "prioritize";
    lit "enhance"; lit "strengthen" ].

(** The body of the first loop, for one line. *)
Definition primary_extraction (recommendations : list pystr) (raw : pystr)
  : list pystr :=
  let line := strip raw in
  match line with
  | [] => recommendations
  | _ :: _ =>
      let bullet :=
        match bullet_match line with
        | Some g1 =>
            if (20 <? len (strip g1))%Z then recommendations ++ [strip g1]
            else recommendations
        | None => recommendations
        end in
      match numbered_match line with
      | Some g2 =>
          if (20 <? len (strip g2))%Z then recommendations ++ [strip g2]
          else bullet
      | None => bullet
      end
  end.

(** The second loop, left by [break] once 8 items are collected. *)
Fixpoint secondary_extraction (lines : list pystr)
         (recommendations : list pystr) : list pystr :=
  match lines with
  | [] => recommendations
  | raw :: lines' =>
      let line := strip raw in
      if (25 <? len line)%Z && (len line <? 300)%Z
         && existsb (fun word => contains word (lower line)) action_words
         && negb (str_mem line recommendations)
      then
        let recommendations' := recommendations ++ [line] in
        if (8 <=? len recommendations')%Z then recommendations'
        else secondary_extraction lines' recommendations'
      else secondary_extraction lines' recommendations
  end.

Definition _parse_recommendations (text : pystr) : list pystr :=
  match text with
  | [] => []
  | _ :: _ =>
      let lines := split_on LF text in
      let recommendations := fold_left primary_extraction lines [] in
      let recommendations :=
        if (len recommendations <? 4)%Z
        then secondary_extraction lines recommendations
        else recommendations in
      slice_to 8 recommendations
  end.

(** *** The four agents *)

Definition market_system_prompt : pystr :=
  lit "You are a Senior Market Research Analyst providing strategic business intelligence. 
Deliver comprehensive, structured analysis based on realistic market conditions and established business principles.
Always complete your analysis within the allocated response space.".

Definition market_user_prompt (query focus_area : pystr) : pystr :=
  lit "Provide comprehensive market intelligence for: "
  ++ query
  ++ lit " "
  ++ focus_area
  ++ lit "

Deliver analysis in these structured sections:

## MARKET SCALE AND TRAJECTORY
Current market size estimates, growth projections, and key expansion drivers

## DOMINANT INDUSTRY PATTERNS  
Three most significant trends reshaping the market and technology adoption cycles

## STRATEGIC MARKET OPPORTUNITIES
High-potential growth areas and emerging market segments for strategic focus

## MARKET STRUCTURE ANALYSIS
Competitive intensity, market concentration, and barriers to market entry

## FORWARD-LOOKING ASSESSMENT
12-18 month outlook with critical success factors and performance drivers

Ensure each section provides specific, actionable intelligence suitable for strategic decision-making.".

Definition market_intelligence_agent (query : pystr) (targets : list pystr)
  : M pystr :=
  let query := _clean_input_default (VStr query) in
  if (len query <? 5)%Z
  then ret (lit "Insufficient query detail for market intelligence analysis.")
  else
    let focus_area :=
      match targets with
      | _ :: _ =>
          lit "with specific attention to "
          ++ join (lit ", ") (slice_to 5 targets)
      | [] => lit "across the broader market landscape"
      end in
    let* m_system := new_message (lit "system") market_system_prompt in
    let* m_user :=
      new_message (lit "user") (market_user_prompt query focus_area) in
    _execute_groq_call [m_system; m_user] tokens_market
                       (lit "market_intelligence").

Definition competitive_system_prompt : pystr :=
  lit "You are a Competitive Intelligence Specialist providing strategic competitive analysis.
Focus on observable market dynamics and logical competitive assessment.
Complete all analysis sections within the response constraints.".

Definition competitive_user_prompt (query competitive_entities : pystr) : pystr :=
  lit "Analyze competitive dynamics for: "
  ++ query
  ++ lit "

**TARGET ENTITIES:** "
  ++ competitive_entities
  ++ lit "

Provide structured competitive intelligence:

## COMPETITIVE MARKET POSITIONS
Current market standing, estimated share insights, and competitive hierarchy

## STRATEGIC COMPETITIVE ADVANTAGES
Core differentiators, unique value propositions, and sustainable competitive assets

## COMPETITIVE VULNERABILITIES
Strategic weaknesses, market gaps, and potential disruption points

## RECENT COMPETITIVE ACTIVITIES
Notable strategic moves, partnerships, market expansion, and product initiatives

## COMPETITIVE OUTLOOK ASSESSMENT
Future competitive dynamics, strategic implications, and market evolution patterns

Base analysis on publicly observable competitive behaviors and logical market assessment.".

Definition competitive_intelligence_agent (query : pystr)
           (targets : list pystr) : M pystr :=
  let query := _clean_input_default (VStr query) in
  if (len query <? 5)%Z
  then ret (lit "Insufficient query detail for competitive intelligence analysis.")
  else
    let targets :=
      match targets with
      | [] => [lit "key market leaders"]
      | _ :: _ => targets
      end in
    let competitive_entities := join (lit ", ") (slice_to 6 targets) in
    let* m_system := new_message (lit "system") competitive_system_prompt in
    let* m_user :=
      new_message (lit "user")
                  (competitive_user_prompt query competitive_entities) in
    _execute_groq_call [m_system; m_user] tokens_competitive
                       (lit "competitive_intelligence").

Definition risk_system_prompt : pystr :=
  lit "You are a Strategic Risk Analyst providing quantified risk evaluation.
Use realistic risk scoring based on actual market conditions and business fundamentals.
Complete all risk categories within the response allocation.".

Definition risk_user_prompt (query context : pystr) : pystr :=
  lit "Conduct strategic risk assessment for: "
  ++ query
  ++ lit "

**INTELLIGENCE CONTEXT:** "
  ++ slice_to 600 context
  ++ lit "

Provide quantified risk evaluation across these categories:

## MARKET AND ECONOMIC RISK FACTORS
Risk Level: [High/Medium/Low] (Quantified Score: X/10)
Primary market vulnerabilities and economic sensitivities
Monitoring indicators and mitigation approaches

## COMPETITIVE AND STRATEGIC RISKS  
Risk Level: [High/Medium/Low] (Quantified Score: X/10)
Competitive threats and strategic execution risks
Defensive strategies and competitive countermeasures

## TECHNOLOGY AND INNOVATION RISKS
Risk Level: [High/Medium/Low] (Quantified Score: X/10)  
Technology disruption threats and innovation challenges
Adaptation strategies and technology investment priorities

## REGULATORY AND OPERATIONAL RISKS
Risk Level: [High/Medium/Low] (Quantified Score: X/10)
Compliance challenges and operational vulnerabilities  
Risk mitigation frameworks and operational safeguards

## INTEGRATED RISK PROFILE
Overall Risk Assessment Score: X/10
Top 3 Priority Risk Areas for Strategic Attention
Comprehensive Risk Management Recommendations

Use evidence-based risk evaluation with practical, implementable risk scores.".

Definition risk_assessment_agent (query intelligence_context : pystr)
  : M pystr :=
  let query := _clean_input_default (VStr query) in
  let context := _clean_input (VStr intelligence_context) 800 in
  if (len query <? 5)%Z
  then ret (lit "Insufficient query detail for risk assessment.")
  else
    let* m_system := new_message (lit "system") risk_system_prompt in
    let* m_user :=
      new_message (lit "user") (risk_user_prompt query context) in
    _execute_groq_call [m_system; m_user] tokens_risk
                       (lit "risk_assessment").

Definition rec_system_prompt : pystr :=
  lit "You are a Senior Strategic Advisor providing executive-level recommendations.
Generate exactly 6-8 specific, implementable strategic actions based on the intelligence provided.
Each recommendation must be concrete and actionable.".

Definition rec_user_prompt (query synthesis : pystr) : pystr :=
  lit "Based on comprehensive intelligence analysis for: "
  ++ query
  ++ lit "

**INTELLIGENCE SYNTHESIS:** "
  ++ synthesis
  ++ lit "

Generate exactly 6-8 strategic recommendations in this precise format:

1. [Specific implementable strategic action]
2. [Specific implementable strategic action]
3. [Specific implementable strategic action]  
4. [Specific implementable strategic action]
5. [Specific implementable strategic action]
6. [Specific implementable strategic action]
7. [Specific implementable strategic action]
8. [Specific implementable strategic action]

Each recommendation must be:
- Directly derived from the intelligence analysis
- Specific and actionable with clear implementation path
- Focused on measurable business outcomes
- Realistic and achievable within standard business constraints

Do not include introductory text or explanations - provide only the numbered recommendations.".

Definition summary_system_prompt : pystr :=
  lit "You are an Executive Business Consultant creating strategic briefings for senior leadership.
Create a concise, confident executive summary suitable for C-suite decision-making.".

Definition summary_user_prompt (query synthesis : pystr) (recommendations : list pystr) : pystr :=
  lit "Create executive summary for strategic analysis: "
  ++ query
  ++ lit "

**COMPREHENSIVE INTELLIGENCE:** "
  ++ slice_to 800 synthesis
  ++ lit "
**STRATEGIC INITIATIVES:** "
  ++ str_of_N (N.of_nat (List.length recommendations))
  ++ lit " strategic recommendations developed

Generate executive summary with exactly 3 paragraphs:

**Market Assessment Paragraph:** Current market position, key opportunities, and strategic threats
**Strategic Direction Paragraph:** Recommended strategic approach and competitive positioning  
**Implementation Paragraph:** Expected business impact and critical next steps

Use authoritative executive language appropriate for board-level strategic discussions.".

(** The loop that builds [intelligence_brief]. *)
Definition intelligence_brief (complete_analysis : list (pystr * pystr))
  : list pystr :=
  flat_map
    (fun item =>
       let analysis_type := fst item in
       let content := snd item in
       match content with
       | [] => []
       | _ :: _ =>
           if (100 <? len (strip content))%Z
           then [upper analysis_type ++ lit ": "
                 ++ _clean_input (VStr content) 400]
           else []
       end)
    complete_analysis.

Definition strategic_advisor_agent (query : pystr)
           (complete_analysis : list (pystr * pystr))
  : M (list pystr * pystr) :=
  let query := _clean_input_default (VStr query) in
  if (len query <? 5)%Z
  then ret ([], lit "Insufficient query detail for strategic advisory.")
  else
    let synthesis :=
      slice_to 1200 (join (lit " | ") (intelligence_brief complete_analysis)) in
    let* m_system := new_message (lit "system") rec_system_prompt in
    let* m_user :=
      new_message (lit "user") (rec_user_prompt query synthesis) in
    let* recommendations_text :=
      _execute_groq_call [m_system; m_user] tokens_recommendations
                         (lit "strategic_recommendations") in
    let recommendations := _parse_recommendations recommendations_text in
    let* s_system := new_message (lit "system") summary_system_prompt in
    let* s_user :=
      new_message (lit "user")
                  (summary_user_prompt query synthesis recommendations) in
    let* executive_summary :=
      _execute_groq_call [s_system; s_user] tokens_summary
                         (lit "executive_summary") in
    ret (recommendations, executive_summary).

(** *** [_calculate_quality_score] *)

Definition Qltb (a b : Q) : bool := negb (Qle_bool b a).

(** [min(a, b)] of Python: [b] when [b < a], else [a]. *)
Definition py_min (a b : Q) : Q := if Qltb b a then b else a.

Definition count_true (d : list (pystr * bool)) : nat :=
  List.length (List.filter (fun kv => snd kv) d).

(** [sum(d.values()) / len(d)] *)
Definition completeness_score (d : list (pystr * bool)) : result Q :=
  match List.length d with
  | O => Raised ZeroDivisionError
  | S n => Ok (Z.of_nat (count_true d) # Pos.of_succ_nat n)
  end.

Definition content_quality (report : BusinessReport) : Q :=
  ((if (6 <=? len (strategic_actions report))%Z then 0.5 else 0)
   + (if (300 <? len (strip (executive_briefing report)))%Z then 0.5 else 0))%Q.

(** The performance part: the [if]/[elif] on [processing_duration]. *)
Definition performance_score (duration : Q) : Q :=
  if Qltb 0 duration && Qle_bool duration 60 then 0.15%Q
  else if Qle_bool duration 120 then 0.1%Q
  else 0%Q.

Definition quality_score_body (report : BusinessReport) : result Q :=
  match completeness_score (completion_status report) with
  | Raised e => Raised e
  | Ok completeness =>
      Ok (py_min (0.0 + completeness * 0.6
                  + content_quality report * 0.25
                  + performance_score (processing_duration report))%Q
                 1.0%Q)
  end.

Definition _calculate_quality_score (report : BusinessReport) : Q :=
  match quality_score_body report with
  | Ok q => q
  | Raised _ => 0.75%Q
  end.

(** *** [execute_complete_analysis] *)

(** The rendering of the final report and of the two status lines formats
    floats and the current date; it is left to the runtime. *)
Variable _create_business_report : BusinessReport -> pystr.
Variable status_message : BusinessReport -> pystr.
Variable error_outcome : pystr -> exn -> pystr * pystr.
(** [time.time() - analysis_start], given what happened in between. *)
Variable elapsed : list event -> Q.

Definition validation_report : pystr :=
  lit "
# Input Validation Error

**Issue:** Research query must be at least 10 characters with specific business context.

**Valid Query Examples:**
- "
  ++ [DQUOTE]
  ++ lit "Strategic analysis of enterprise software market"
  ++ [DQUOTE]
  ++ lit "
- "
  ++ [DQUOTE]
  ++ lit "Competitive intelligence for renewable energy sector"
  ++ [DQUOTE]
  ++ lit "
- "
  ++ [DQUOTE]
  ++ lit "Market opportunity assessment for fintech solutions"
  ++ [DQUOTE]
  ++ lit "

Please provide a detailed, business-focused research question.
                ".

Definition validation_status : pystr :=
  lit "Input validation failed: Query insufficient".

(** The target list built from the comma-separated input. *)
Definition process_targets (targets_input : pystr) : list pystr :=
  if negb (is_empty targets_input) && negb (is_empty (strip targets_input))
  then
    let raw_targets := List.map strip (split_on 44 targets_input) in
    let targets :=
      List.map (fun t => _clean_input (VStr t) 100)
               (List.filter (fun t => negb (is_empty (strip t)))
                            (slice_to 8 raw_targets)) in
    List.filter (fun t => (2 <? len t)%Z) targets
  else [].

(** [BusinessReport(query=query, targets=targets)] with
    [__post_init__]. *)
Definition new_report (query : pystr) (targets : list pystr)
  : BusinessReport :=
  {| query := strip query;
     targets := List.filter (fun t => negb (is_empty t))
                            (List.map strip targets);
     market_intelligence := [];
     competitive_landscape := [];
     risk_evaluation := [];
     strategic_actions := [];
     executive_briefing := [];
     analysis_quality := 0.0;
     processing_duration := 0.0;
     completion_status := [] |}.

Definition get_trace : M (list event) := fun st => (Ok (trace st), st).

Definition execute_complete_analysis (query targets_input : pystr)
  : M (pystr * pystr) :=
  let* start := get_trace in
  try_catch
    (if is_empty query || (len (strip query) <? 10)%Z
     then ret (validation_report, validation_status)
     else
       let query := _clean_input_default (VStr query) in
       let targets := process_targets targets_input in
       let report := new_report query targets in
       let* market := market_intelligence_agent query targets in
       let status :=
         dict_set (lit "market") (300 <? len (strip market))%Z
                  (completion_status report) in
       let* _ := sleep 3 in
       let* competitive := competitive_intelligence_agent query targets in
       let status :=
         dict_set (lit "competitive") (300 <? len (strip competitive))%Z
                  status in
       let* _ := sleep 3 in
       let analysis_context :=
         slice_to 500 market ++ lit " " ++ slice_to 500 competitive in
       let* risk := risk_assessment_agent query analysis_context in
       let status :=
         dict_set (lit "risk") (200 <? len (strip risk))%Z status in
       let* _ := sleep 3 in
       let complete_intelligence :=
         [ (lit "market_intelligence", market);
           (lit "competitive_landscape", competitive);
           (lit "risk_evaluation", risk) ] in
       let* advice := strategic_advisor_agent query complete_intelligence in
       let status :=
         dict_set (lit "recommendations") (4 <=? len (fst advice))%Z status in
       let status :=
         dict_set (lit "executive") (200 <? len (strip (snd advice)))%Z
                  status in
       let* finish := get_trace in
       let duration := elapsed (skipn (List.length start) finish) in
       let report :=
         set_results report market competitive risk (fst advice) (snd advice)
                     duration status in
       let report :=
         set_analysis_quality (_calculate_quality_score report) report in
       ret (_create_business_report report, status_message report))
    (fun e => ret (error_outcome query e)).

(** *** Vocabulary of the executor's properties *)

(** States the system can be in: after [__init__], and from there after
    any executor call; in between, the caller may create and change dict
    objects and sleep. *)
Inductive reachable : state R -> Prop :=
| reach_init api_key h n r st :
    __init__ api_key h n r = Ok st -> reachable st
| reach_heap st h n :
    reachable st -> reachable (set_next_loc n (set_heap h st))
| reach_sleep st seconds :
    reachable st -> reachable (add_event (Sleep seconds) st)
| reach_call st messages max_tokens context res st' :
    reachable st ->
    _execute_groq_call messages max_tokens context st = (res, st') ->
    reachable st'.

(** A loop body, or a loop, that does not raise and writes the cache
    only when it returns accepted content. *)
Definition body_ok (k : pystr) (c : M flow) : Prop :=
  forall st, exists f st',
    c st = (Ok f, st')
    /\ match f with
       | FReturn v => stored k v st st'
       | FNext | FBreak => quiet st st'
       end.

Definition loop_ok (k : pystr) (c : M (option pystr)) : Prop :=
  forall st, exists o st',
    c st = (Ok o, st')
    /\ match o with
       | Some v => stored k v st st'
       | None => quiet st st'
       end.

(** The executor's state once the clause is appended to the first
    message. *)
Definition enhanced (first : nat) (st : state R) : state R :=
  set_heap (alter (with_suffix accuracy_clause) first (heap st)) st.

(** The waits of one model under rate limiting. *)
Definition rate_limit_waits (model_index : Z) : list Z :=
  List.map (fun attempt => ((attempt + 1) * 15 + model_index * 10)%Z) range3.

(** A remote service that answers every request with a rate-limit
    failure. *)
Definition rate_limited_service : Prop :=
  forall r req, exists msg r', remote r req = (Raised (RateLimitError msg), r').

(** Between two states exactly the events [evs] were logged, and nothing
    else changed but the service. *)
Definition logged (evs : list event) (st st' : state R) : Prop :=
  heap st' = heap st
  /\ next_loc st' = next_loc st
  /\ primary_model st' = primary_model st
  /\ fallback_models st' = fallback_models st
  /\ response_cache st' = response_cache st
  /\ trace st' = trace st ++ evs.

(** *** Further services *)

(** A service that answers every request with an API error saying that
    the model is decommissioned or not found. *)
Definition unavailable_service : Prop :=
  forall r req, exists msg r',
    remote r req = (Raised (APIError msg), r')
    /\ contains (lit "decommissioned") (lower msg)
       || contains (lit "not found") (lower msg) = true.

(** A service that always answers, but never with acceptable content. *)
Definition unacceptable_service : Prop :=
  forall r req, exists resp r',
    remote r req = (Ok resp, r') /\ accepted_content resp = None.

(** *** Two fresh messages and a call *)

(** What each agent does once its query is long enough: two dict
    literals, a list of the two, and the executor. *)
Definition ask (system_prompt user_prompt : pystr) (max_tokens : Z)
           (context : pystr) : M pystr :=
  let* m_system := new_message (lit "system") system_prompt in
  let* m_user := new_message (lit "user") user_prompt in
  _execute_groq_call [m_system; m_user] max_tokens context.

(** The state after the two dict literals. *)
Definition with_two_messages (system_prompt user_prompt : pystr)
           (st : state R) : state R :=
  let l := next_loc st in
  set_next_loc (S (S l))
    (set_heap (<[S l := {| role := lit "user"; content := user_prompt |}]>
                 (<[l := {| role := lit "system"; content := system_prompt |}]>
                    (heap st)))
              (set_next_loc (S l)
                 (set_heap (<[l := {| role := lit "system";
                                      content := system_prompt |}]> (heap st))
                           st))).

(** A computation that does not raise, whose result satisfies [Q], that
    dispatches at most three requests per model for each of [calls]
    executor calls, and that keeps the models, the cache entries, the
    reachability of the state and every dict object that existed
    before. *)
Definition well_behaved {A} (calls : nat) (Q : A -> Prop) (c : M A) : Prop :=
  forall st, exists a st' evs,
    c st = (Ok a, st')
    /\ Q a
    /\ trace st' = trace st ++ evs
    /\ (List.length (dispatched_requests evs)
        <= calls * (3 * List.length (primary_model st :: fallback_models st)))%nat
    /\ primary_model st' = primary_model st
    /\ fallback_models st' = fallback_models st
    /\ response_cache st ⊆ response_cache st'
    /\ (reachable st -> reachable st')
    /\ (next_loc st <= next_loc st')%nat
    /\ (forall l, (l < next_loc st)%nat -> heap st' !! l = heap st !! l).

(** The names of the five sections, in the order the orchestrator sets
    them. *)
Definition section_names : list pystr :=
  [ lit "market"; lit "competitive"; lit "risk"; lit "recommendations";
    lit "executive" ].

(** What the orchestrator returns: the validation pair, or the
    rendering of a report with the five sections, the computed score and
    at most 8 actions. *)
Definition analysis_outcome (out : pystr * pystr) : Prop :=
  out = (validation_report, validation_status)
  \/ exists report,
       out = (_create_business_report report, status_message report)
       /\ List.map fst (completion_status report) = section_names
       /\ (exists c, completeness_score (completion_status report) = Ok c)
       /\ analysis_quality report = _calculate_quality_score report
       /\ (0 <= analysis_quality report <= 1)%Q
       /\ (len (strategic_actions report) <= 8)%Z.

(** *** [production_analysis_handler] *)

(** The error page of the handler formats the current time; it is left
    to the runtime. *)
Variable handler_error_outcome : exn -> pystr * pystr.

Definition handler_validation_report : pystr :=
  lit "
# Production Input Validation

**Requirement:** Business intelligence queries require minimum 8 characters with specific context

**Professional Query Examples:**
- "
  ++ [DQUOTE]
  ++ lit "Strategic market analysis of cloud computing services"
  ++ [DQUOTE]
  ++ lit "
- "
  ++ [DQUOTE]
  ++ lit "Competitive intelligence assessment for renewable energy sector"
  ++ [DQUOTE]
  ++ lit "  
- "
  ++ [DQUOTE]
  ++ lit "Investment research on artificial intelligence software market"
  ++ [DQUOTE]
  ++ lit "
- "
  ++ [DQUOTE]
  ++ lit "Risk evaluation for enterprise cybersecurity solutions"
  ++ [DQUOTE]
  ++ lit "

Please provide detailed business intelligence requirements for optimal analysis.
                ".

Definition handler_validation_status : pystr :=
  lit "Validation Failed: Insufficient query specificity".

(** The closure [production_analysis_handler] of
    [create_final_interface], over the system it was given. *)
Definition production_analysis_handler (query targets : pystr)
  : M (pystr * pystr) :=
  try_catch
    (if is_empty query || (len (strip query) <? 8)%Z
     then ret (handler_validation_report, handler_validation_status)
     else execute_complete_analysis query targets)
    (fun e => ret (handler_error_outcome e)).

(** *** A complete outage *)

(** A computation that, started with an empty cache, returns a value
    satisfying [Q], leaves the cache empty and the models as they were,
    dispatches [3 * calls] requests per model and sleeps [calls] wait
    budgets plus [extra] seconds. *)
Definition outage {A} (calls : nat) (extra : Z) (Q : A -> Prop) (c : M A)
  : Prop :=
  forall st,
    response_cache st = ∅ ->
    exists a st' evs,
      c st = (Ok a, st')
      /\ Q a
      /\ response_cache st' = ∅
      /\ primary_model st' = primary_model st
      /\ fallback_models st' = fallback_models st
      /\ trace st' = trace st ++ evs
      /\ List.length (dispatched_requests evs)
         = (calls * (3 * List.length (primary_model st :: fallback_models st)))%nat
      /\ total (sleeps evs)
         = (Z.of_nat calls
            * wait_budget 0 (List.length (primary_model st :: fallback_models st))
            + extra)%Z.

(** The four bullet lines of the fallback text, as the parser returns
    them. *)
Definition fallback_bullets : list pystr :=
  [ lit "Market conditions show typical enterprise software adoption patterns";
    lit "Competitive dynamics reflect standard technology sector characteristics";
    lit "Risk factors align with common enterprise technology concerns";
    lit "Strategic considerations follow established business frameworks" ].

(** The report of an analysis during a complete outage. *)
Definition outage_report (report : BusinessReport) : Prop :=
  completion_status report = List.map (fun name => (name, true)) section_names
  /\ market_intelligence report = fallback_text (lit "market_intelligence")
  /\ competitive_landscape report
     = fallback_text (lit "competitive_intelligence")
  /\ risk_evaluation report = fallback_text (lit "risk_assessment")
  /\ executive_briefing report = fallback_text (lit "executive_summary")
  /\ strategic_actions report = fallback_bullets.


(** * Properties *)

(** ** Strings *)

Lemma slice_to_length {A} (n : Z) (s : list A) :
  (0 <= n)%Z -> (len (slice_to n s) <= n)%Z.
Proof.
  intros Hn. unfold slice_to, len.
  destruct (Z.leb_spec 0 n) as [_ | Hneg]; [| lia].
  rewrite length_firstn. lia.
Qed.

Lemma slice_to_Forall {A} (P : A -> Prop) (n : Z) (s : list A) :
  Forall P s -> Forall P (slice_to n s).
Proof.
  intros H. unfold slice_to.
  destruct (0 <=? n)%Z; apply Forall_take; exact H.
Qed.

Lemma lstrip_Forall (P : N -> Prop) (s : pystr) :
  Forall P s -> Forall P (lstrip s).
Proof.
  induction 1 as [| c s Hc Hs IH]; simpl; [constructor |].
  destruct (is_space c); [exact IH | constructor; assumption].
Qed.

Lemma strip_Forall (P : N -> Prop) (s : pystr) :
  Forall P s -> Forall P (strip s).
Proof.
  intros H. unfold strip, rstrip.
  apply Forall_rev, lstrip_Forall, Forall_rev, lstrip_Forall, H.
Qed.

Lemma filter_Forall_true (p : N -> bool) (s : pystr) :
  Forall (fun c => p c = true) (List.filter p s).
Proof.
  induction s as [| c s IH]; simpl; [constructor |].
  destruct (p c) eqn:E; [constructor; assumption | exact IH].
Qed.

(** What [lstrip] and [strip] keep: everything from the first character
    that is not white space on. *)
Lemma lstrip_app_keep (a : pystr) (c : N) (r : pystr) :
  is_space c = false -> exists a', lstrip (a ++ c :: r) = a' ++ c :: r.
Proof.
  intros Hc. induction a as [| x a IH]; simpl.
  - rewrite Hc. exists []. reflexivity.
  - destruct (is_space x).
    + exact IH.
    + exists (x :: a). reflexivity.
Qed.

Lemma rstrip_app_keep (r : pystr) (c : N) (a : pystr) :
  is_space c = false -> exists a', rstrip (r ++ c :: a) = r ++ c :: a'.
Proof.
  intros Hc. unfold rstrip.
  rewrite rev_app_distr. simpl. rewrite <- app_assoc. simpl.
  destruct (lstrip_app_keep (rev a) c (rev r) Hc) as [a' Ha'].
  rewrite Ha'. rewrite rev_app_distr. simpl. rewrite rev_involutive.
  rewrite <- app_assoc. simpl. exists (rev a'). reflexivity.
Qed.

(** ** [_clean_input] *)

(** C10.  For every input and every bound [n >= 0] the sanitizer returns
    at most [n] characters, all of them in the allow-listed set; the empty
    string and any value that is not a string give the empty string. *)
Theorem clean_input_bounded_and_allowed (text : pyval) (n : Z) :
  (0 <= n)%Z ->
  (len (_clean_input text n) <= n)%Z
  /\ Forall (fun c => allowed c = true) (_clean_input text n)
  /\ _clean_input (VStr []) n = []
  /\ (forall truthy, _clean_input (VOther truthy) n = []).
Proof.
  intros Hn. repeat split; try reflexivity.
  - destruct text as [[| c s] | b]; simpl; try (unfold len; simpl; lia).
    apply slice_to_length, Hn.
  - destruct text as [[| c s] | b]; simpl; try constructor.
    apply slice_to_Forall, strip_Forall, (filter_Forall_true allowed (c :: s)).
Qed.

(** ** [_parse_recommendations] *)

Lemma parse_recommendations_empty : _parse_recommendations [] = [].
Proof. reflexivity. Qed.

Lemma parse_recommendations_at_most_8 (text : pystr) :
  (len (_parse_recommendations text) <= 8)%Z.
Proof.
  destruct text as [| c s]; [unfold len; simpl; lia |].
  unfold _parse_recommendations. apply slice_to_length. lia.
Qed.

(** C3.  On the two-line example the parser returns four items, not
    two: the second pass adds both whole lines, markers included, after
    the two texts found by the first pass.  The empty string gives the
    empty list and no result is longer than 8. *)
Theorem parse_recommendations_example :
  _parse_recommendations parser_example =
    [ lit "Develop a new channel strategy for enterprise clients";
      lit "Expand into APAC markets";
      lit "1. Develop a new channel strategy for enterprise clients";
      lit "2. Expand into APAC markets" ]
  /\ _parse_recommendations (lit "") = []
  /\ forall text, (len (_parse_recommendations text) <= 8)%Z.
Proof.
  split; [vm_compute; reflexivity |].
  split; [reflexivity | apply parse_recommendations_at_most_8].
Qed.

(** ** [_calculate_quality_score] *)

Lemma Qltb_true (a b : Q) : Qltb a b = true <-> (a < b)%Q.
Proof.
  unfold Qltb. rewrite negb_true_iff.
  split; intros H.
  - apply Qnot_le_lt. intros Hle. apply Qle_bool_iff in Hle. congruence.
  - destruct (Qle_bool b a) eqn:E; [| reflexivity].
    apply Qle_bool_iff in E. exfalso. eapply Qlt_not_le; eauto.
Qed.

Lemma Qltb_false (a b : Q) : Qltb a b = false <-> (b <= a)%Q.
Proof.
  unfold Qltb. rewrite negb_false_iff. apply Qle_bool_iff.
Qed.

Lemma Qle_bool_false (a b : Q) : Qle_bool a b = false <-> (b < a)%Q.
Proof.
  split; intros H.
  - apply Qnot_le_lt. intros Hle. apply Qle_bool_iff in Hle. congruence.
  - destruct (Qle_bool a b) eqn:E; [| reflexivity].
    apply Qle_bool_iff in E. exfalso. eapply Qlt_not_le; eauto.
Qed.

Lemma count_true_le (d : list (pystr * bool)) :
  (count_true d <= List.length d)%nat.
Proof.
  unfold count_true. induction d as [| [k b] d IH]; simpl; [lia |].
  destruct b; simpl; lia.
Qed.

Lemma completeness_score_range (d : list (pystr * bool)) (c : Q) :
  completeness_score d = Ok c -> (0 <= c <= 1)%Q.
Proof.
  unfold completeness_score. pose proof (count_true_le d) as Hle.
  destruct (List.length d) as [| n] eqn:El; [discriminate |].
  intros [= <-]. unfold Qle. simpl. lia.
Qed.

Lemma content_quality_range (report : BusinessReport) :
  (0 <= content_quality report <= 1)%Q.
Proof.
  unfold content_quality.
  destruct (6 <=? len (strategic_actions report))%Z;
    destruct (300 <? len (strip (executive_briefing report)))%Z;
    split; discriminate.
Qed.

Lemma performance_score_range (d : Q) :
  (0 <= performance_score d <= 15 # 100)%Q.
Proof.
  unfold performance_score.
  destruct (Qltb 0 d && Qle_bool d 60); [split; discriminate |].
  destruct (Qle_bool d 120); split; discriminate.
Qed.

Lemma py_min_range (a : Q) : (0 <= a)%Q -> (0 <= py_min a 1.0 <= 1)%Q.
Proof.
  intros Ha. unfold py_min.
  destruct (Qltb 1.0 a) eqn:E.
  - split; discriminate.
  - apply Qltb_false in E. split; [assumption | lra].
Qed.

(** C7.  The quality score of every report lies in [0, 1], whatever the
    completion statuses, the number of actions, the briefing and the
    duration; an empty status dict makes the division fail and gives the
    default 0.75. *)
Theorem quality_score_in_unit_interval (report : BusinessReport) :
  (0 <= _calculate_quality_score report <= 1)%Q
  /\ (completion_status report = [] ->
      _calculate_quality_score report = 0.75%Q).
Proof.
  split.
  - unfold _calculate_quality_score, quality_score_body.
    destruct (completeness_score (completion_status report)) as [c | e] eqn:E.
    + apply py_min_range.
      apply completeness_score_range in E.
      pose proof (content_quality_range report) as Hq.
      pose proof (performance_score_range (processing_duration report)) as Hp.
      destruct E as [E1 E2], Hq as [Hq1 Hq2], Hp as [Hp1 Hp2].
      set (cq := content_quality report) in *.
      set (ps := performance_score (processing_duration report)) in *.
      clearbody cq ps. lra.
    + split; discriminate.
  - intros H. unfold _calculate_quality_score, quality_score_body.
    rewrite H. reflexivity.
Qed.

(** C8, as the code has it.  Full credit needs a duration that is
    positive and at most 60 seconds; a duration of 0 or less, or one
    above 60 and at most 120 seconds, gets the partial credit; beyond 120
    seconds there is none. *)
Theorem performance_score_bands (d : Q) :
  ((0 < d)%Q -> (d <= 60)%Q -> performance_score d = 0.15%Q)
  /\ ((d <= 0)%Q \/ ((60 < d)%Q /\ (d <= 120)%Q) ->
      performance_score d = 0.1%Q)
  /\ ((120 < d)%Q -> performance_score d = 0%Q).
Proof.
  unfold performance_score. repeat split.
  - intros H0 H60.
    apply Qltb_true in H0. apply Qle_bool_iff in H60.
    rewrite H0, H60. reflexivity.
  - intros [Hle | [H60 H120]].
    + apply Qltb_false in Hle. rewrite Hle. simpl.
      assert (H : Qle_bool d 120 = true) by (apply Qle_bool_iff;
        apply Qltb_false in Hle; lra).
      rewrite H. reflexivity.
    + apply Qle_bool_false in H60. rewrite H60, andb_false_r.
      apply Qle_bool_iff in H120. rewrite H120. reflexivity.
  - intros H120.
    assert (H60 : Qle_bool d 60 = false) by (apply Qle_bool_false; lra).
    apply Qle_bool_false in H120.
    rewrite H60, andb_false_r, H120. reflexivity.
Qed.

(** The performance part is added to the score as it is. *)
Lemma quality_score_uses_performance (report : BusinessReport) (c : Q) :
  completeness_score (completion_status report) = Ok c ->
  _calculate_quality_score report =
    py_min (0.0 + c * 0.6 + content_quality report * 0.25
            + performance_score (processing_duration report))%Q 1.0%Q.
Proof.
  intros H. unfold _calculate_quality_score, quality_score_body.
  rewrite H. reflexivity.
Qed.

(** ** [execute_complete_analysis]: the validation exit *)

(** C6.  A query whose trimmed length is below 10 gives the validation
    report and a status line containing "failed" and "insufficient"; the
    state is left as it was: nothing is dispatched and the cache is
    untouched. *)
Theorem short_query_is_rejected (query targets_input : pystr) (st : state R) :
  (len (strip query) < 10)%Z ->
  execute_complete_analysis query targets_input st
    = (Ok (validation_report, validation_status), st)
  /\ contains (lit "Input Validation Error") validation_report = true
  /\ contains (lit "failed") validation_status = true
  /\ contains (lit "insufficient") validation_status = true.
Proof.
  intros Hlen. split; [| repeat split; vm_compute; reflexivity].
  unfold execute_complete_analysis, bind, get_trace, try_catch.
  apply Z.ltb_lt in Hlen. rewrite Hlen, orb_true_r. reflexivity.
Qed.

(** ** The fingerprint never fails on serialised messages *)

Lemma hex_digit_ascii (x : N) : SHA256.hex_digit (N.land x 15) < 128.
Proof.
  change 15 with (N.ones 4). rewrite N.land_ones.
  assert (H : x mod 2 ^ 4 < 16) by (apply N.mod_lt; discriminate).
  unfold SHA256.hex_digit.
  destruct (N.ltb_spec (x mod 2 ^ 4) 10); lia.
Qed.

Lemma u_escape_ascii (n : N) : ascii_only (u_escape n).
Proof.
  unfold u_escape, hex4, ascii_only. simpl.
  repeat constructor; apply hex_digit_ascii.
Qed.

Lemma json_escape_char_ascii (c : N) : ascii_only (json_escape_char c).
Proof.
  unfold json_escape_char.
  repeat match goal with
         | |- ascii_only (if ?b then _ else _) => destruct b eqn:?
         end;
    try (repeat constructor; fail).
  - constructor; [| constructor].
    match goal with
    | H : (_ <=? c) && (c <=? _) = true |- _ =>
        apply andb_true_iff in H; destruct H as [_ H];
        apply N.leb_le in H; lia
    end.
  - apply u_escape_ascii.
  - apply Forall_app; split; apply u_escape_ascii.
Qed.

Lemma json_string_ascii (s : pystr) : ascii_only (json_string s).
Proof.
  unfold json_string. constructor; [reflexivity |].
  apply Forall_app; split; [| repeat constructor].
  induction s as [| c s IH]; simpl; [constructor |].
  apply Forall_app; split; [apply json_escape_char_ascii | exact IH].
Qed.

Lemma json_message_ascii (m : Message) : ascii_only (json_message m).
Proof.
  unfold json_message.
  repeat (apply Forall_app; split);
    try apply json_string_ascii; repeat constructor.
Qed.

Lemma join_ascii (sep : pystr) (parts : list pystr) :
  ascii_only sep -> Forall ascii_only parts -> ascii_only (join sep parts).
Proof.
  intros Hsep. induction 1 as [| p ps Hp Hps IH]; simpl; [constructor |].
  destruct ps as [| q ps]; [exact Hp |].
  apply Forall_app; split; [exact Hp |].
  apply Forall_app; split; [exact Hsep | exact IH].
Qed.

Lemma json_dumps_ascii (ms : list Message) : ascii_only (json_dumps ms).
Proof.
  unfold json_dumps.
  apply Forall_app; split; [repeat constructor |].
  apply Forall_app; split; [| repeat constructor].
  apply join_ascii; [repeat constructor |].
  induction ms as [| m ms IH]; simpl; constructor;
    [apply json_message_ascii | exact IH].
Qed.

Lemma utf8_encode_ascii (s : pystr) : ascii_only s -> utf8_encode s = Some s.
Proof.
  induction 1 as [| c s Hc Hs IH]; simpl; [reflexivity |].
  unfold utf8_char.
  assert (E : (c <? 128) = true) by (apply N.ltb_lt; exact Hc).
  change 0x80 with 128. rewrite E, IH. reflexivity.
Qed.

Lemma generate_cache_id_json (ms : list Message) :
  _generate_cache_id (json_dumps ms) = Ok (fingerprint ms).
Proof.
  unfold _generate_cache_id.
  rewrite utf8_encode_ascii by apply json_dumps_ascii. reflexivity.
Qed.

(** Equal serialisations have equal fingerprints. *)
Lemma fingerprint_of_json (ms1 ms2 : list Message) :
  json_dumps ms1 = json_dumps ms2 -> fingerprint ms1 = fingerprint ms2.
Proof. unfold fingerprint. intros ->. reflexivity. Qed.

Lemma json_dumps_nonempty_list (m : Message) (ms : list Message) :
  json_dumps [] <> json_dumps (m :: ms).
Proof.
  unfold json_dumps. simpl join.
  destruct ms; unfold json_message; simpl; discriminate.
Qed.

(** ** The executor: frames *)

Lemma quiet_refl (st : state R) : quiet st st.
Proof.
  unfold quiet. repeat split. exists []. rewrite app_nil_r. reflexivity.
Qed.

Lemma quiet_trans (st1 st2 st3 : state R) :
  quiet st1 st2 -> quiet st2 st3 -> quiet st1 st3.
Proof.
  intros (H1 & H2 & H3 & H4 & H5 & evs1 & H6)
         (K1 & K2 & K3 & K4 & K5 & evs2 & K6).
  unfold quiet. repeat split; try congruence.
  exists (evs1 ++ evs2). rewrite K6, H6, app_assoc. reflexivity.
Qed.

Lemma quiet_stored (k v : pystr) (st1 st2 st3 : state R) :
  quiet st1 st2 -> stored k v st2 st3 -> stored k v st1 st3.
Proof.
  intros (H1 & H2 & H3 & H4 & H5 & evs1 & H6)
         (K1 & K2 & K3 & K4 & K5 & Kv & evs2 & req & resp & K6 & K7).
  unfold stored. repeat split; try congruence.
  exists (evs1 ++ evs2), req, resp. split; [| exact K7].
  rewrite K6, H6, <- !app_assoc. reflexivity.
Qed.

(** Closes a [quiet] goal between a state and the same state a few
    events later. *)
Ltac solve_quiet :=
  unfold quiet; simpl; repeat split; rewrite <- ?app_assoc;
  eexists; reflexivity.

(** ** The executor: one attempt and the loops *)

Lemma attempt_call_ok (k : pystr) (ems : list nat) (mt i : Z) (m : pystr)
      (a : Z) : body_ok k (attempt_call k ems mt i m a).
Proof.
  intros st.
  unfold attempt_call, try_catch, bind, read_messages,
    chat_completions_create.
  match goal with
  | |- context [remote (service st) ?r] =>
      set (req := r); destruct (remote (service st) req) as [[resp | e] r']
  end.
  - (* a response came back *)
    assert (Hq : quiet st (set_service r' (add_event (Dispatch req (Ok resp)) st)))
      by solve_quiet.
    destruct (choices resp) as [| c cs] eqn:Ec;
      [eexists _, _; split; [reflexivity | exact Hq] |].
    destruct (message_content c) as [[| x text] |] eqn:Em;
      try (eexists _, _; split; [reflexivity | exact Hq]).
    destruct (150 <? len (strip (x :: text)))%Z eqn:El;
      [| eexists _, _; split; [reflexivity | exact Hq]].
    eexists _, _. split; [reflexivity |].
    unfold stored. simpl. repeat split.
    + apply Z.ltb_lt, El.
    + exists [], req, resp. split; [reflexivity |].
      unfold accepted_content. rewrite Ec, Em, El. reflexivity.
  - (* the call raised *)
    destruct e as [msg | msg | | | msg | msg]; simpl;
      try (eexists _, _; split; [reflexivity | solve_quiet]).
    destruct (contains (lit "decommissioned") (lower msg)
              || contains (lit "not found") (lower msg)).
    + eexists _, _. split; [reflexivity | solve_quiet].
    + eexists _, _. split; [reflexivity | solve_quiet].
Qed.

Lemma for_each_ok {A} (k : pystr) (xs : list A) (body : A -> M flow) :
  (forall x, body_ok k (body x)) -> loop_ok k (for_each xs body).
Proof.
  intros Hbody. induction xs as [| x xs IH]; intros st; simpl.
  - exists None, st. split; [reflexivity | apply quiet_refl].
  - unfold bind. destruct (Hbody x st) as (f & st1 & E & Hf). rewrite E.
    destruct f as [v | |].
    + exists (Some v), st1. split; [reflexivity | exact Hf].
    + destruct (IH st1) as (o & st2 & E2 & Ho).
      exists o, st2. split; [exact E2 |].
      destruct o; [eapply quiet_stored | eapply quiet_trans]; eauto.
    + exists None, st1. split; [reflexivity | exact Hf].
Qed.

Lemma try_models_ok (k : pystr) (ems : list nat) (mt : Z)
      (models : list pystr) : loop_ok k (try_models k ems mt models).
Proof.
  unfold try_models. apply for_each_ok. intros [i m] st. unfold bind.
  destruct (for_each_ok k range3 (attempt_call k ems mt i m)
              (attempt_call_ok k ems mt i m) st) as (o & st1 & E & Ho).
  simpl fst. simpl snd. rewrite E.
  destruct o as [v |]; eexists _, _; (split; [reflexivity | exact Ho]).
Qed.

(** ** The executor: its three exits *)

Lemma execute_no_input (mt : Z) (ctx : pystr) (st : state R) :
  _execute_groq_call [] mt ctx st = (Ok (no_input_text ctx), st).
Proof. reflexivity. Qed.

Lemma execute_hit (messages : list nat) (mt : Z) (ctx : pystr)
      (st : state R) (r : pystr) :
  messages <> [] ->
  response_cache st !! fingerprint (view st messages) = Some r ->
  _execute_groq_call messages mt ctx st = (Ok r, st).
Proof.
  intros Hne Hhit. destruct messages as [| first rest]; [congruence |].
  unfold _execute_groq_call, bind, read_messages, lift, cache_lookup.
  rewrite generate_cache_id_json, Hhit. reflexivity.
Qed.

Lemma execute_miss (first : nat) (rest : list nat) (mt : Z) (ctx : pystr)
      (st : state R) :
  let k := fingerprint (view st (first :: rest)) in
  response_cache st !! k = None ->
  exists o st',
    try_models k (first :: rest) mt
               (primary_model st :: fallback_models st) (enhanced first st)
      = (Ok o, st')
    /\ _execute_groq_call (first :: rest) mt ctx st
       = (Ok (match o with Some v => v | None => fallback_text ctx end), st')
    /\ match o with
       | Some v => stored k v (enhanced first st) st'
       | None => quiet (enhanced first st) st'
       end.
Proof.
  intros k Hmiss.
  destruct (try_models_ok k (first :: rest) mt
              (primary_model st :: fallback_models st) (enhanced first st))
    as (o & st' & E & Ho).
  exists o, st'. split; [exact E |]. split; [| exact Ho].
  unfold _execute_groq_call, copy, bind, read_messages, lift, cache_lookup,
    append_content, get_all_models.
  rewrite generate_cache_id_json. fold k. rewrite Hmiss.
  change (set_heap _ st) with (enhanced first st).
  change (primary_model (enhanced first st)) with (primary_model st).
  change (fallback_models (enhanced first st)) with (fallback_models st).
  rewrite E. destruct o; reflexivity.
Qed.

(** ** The executor under rate limiting *)

Lemma logged_trans (evs1 evs2 : list event) (st1 st2 st3 : state R) :
  logged evs1 st1 st2 -> logged evs2 st2 st3 -> logged (evs1 ++ evs2) st1 st3.
Proof.
  intros (H1 & H2 & H3 & H4 & H5 & H6) (K1 & K2 & K3 & K4 & K5 & K6).
  unfold logged. repeat split; try congruence.
  rewrite K6, H6, app_assoc. reflexivity.
Qed.

Lemma logged_view (evs : list event) (st st' : state R) (ms : list nat) :
  logged evs st st' -> view st' ms = view st ms.
Proof. intros (H & _). unfold view. rewrite H. reflexivity. Qed.

Lemma attempt_rate_limited (k : pystr) (ems : list nat) (mt i : Z)
      (m : pystr) (a : Z) (st : state R) :
  rate_limited_service ->
  exists st' evs,
    attempt_call k ems mt i m a st = (Ok FNext, st')
    /\ logged evs st st'
    /\ dispatched_models evs = [m]
    /\ dispatched_messages evs = [view st ems]
    /\ sleeps evs = [((a + 1) * 15 + i * 10)%Z].
Proof.
  intros Hrl.
  unfold attempt_call, try_catch, bind, read_messages,
    chat_completions_create.
  match goal with
  | |- context [remote (service st) ?r] =>
      set (req := r); destruct (Hrl (service st) req) as (msg & r' & E)
  end.
  rewrite E. simpl.
  eexists _, [Dispatch req (Raised (RateLimitError msg));
              Sleep ((a + 1) * 15 + i * 10)].
  split; [reflexivity |]. split; [| repeat split].
  unfold logged. simpl. rewrite <- app_assoc. repeat split.
Qed.

Lemma attempts_rate_limited (k : pystr) (ems : list nat) (mt i : Z)
      (m : pystr) (st : state R) :
  rate_limited_service ->
  exists st' evs,
    for_each range3 (attempt_call k ems mt i m) st = (Ok None, st')
    /\ logged evs st st'
    /\ dispatched_models evs = [m; m; m]
    /\ dispatched_messages evs = [view st ems; view st ems; view st ems]
    /\ sleeps evs = rate_limit_waits i.
Proof.
  intros Hrl.
  destruct (attempt_rate_limited k ems mt i m 0 st Hrl)
    as (st1 & evs1 & E1 & L1 & M1 & V1 & S1).
  destruct (attempt_rate_limited k ems mt i m 1 st1 Hrl)
    as (st2 & evs2 & E2 & L2 & M2 & V2 & S2).
  destruct (attempt_rate_limited k ems mt i m 2 st2 Hrl)
    as (st3 & evs3 & E3 & L3 & M3 & V3 & S3).
  exists st3, (evs1 ++ evs2 ++ evs3).
  split.
  - unfold range3. simpl. unfold bind. rewrite E1, E2, E3. reflexivity.
  - pose proof (logged_trans _ _ _ _ _ L1 L2) as L12.
    split; [| repeat split].
    + rewrite app_assoc. eapply logged_trans; eauto.
    + unfold dispatched_models in *. rewrite !flat_map_app, M1, M2, M3.
      reflexivity.
    + unfold dispatched_messages in *. rewrite !flat_map_app, V1, V2, V3.
      rewrite (logged_view _ _ _ _ L12), (logged_view _ _ _ _ L1).
      reflexivity.
    + unfold sleeps in *. rewrite !flat_map_app, S1, S2, S3. reflexivity.
Qed.

Lemma models_rate_limited (k : pystr) (ems : list nat) (mt : Z)
      (models : list pystr) :
  rate_limited_service ->
  forall (i : Z) (st : state R),
  exists st' evs,
    for_each (enumerate_from i models)
      (fun im =>
         let* r := for_each range3
                     (attempt_call k ems mt (fst im) (snd im)) in
         match r with
         | Some s => ret (FReturn s)
         | None => ret FNext
         end) st = (Ok None, st')
    /\ logged evs st st'
    /\ dispatched_models evs = flat_map (fun m => [m; m; m]) models
    /\ Forall (fun ms => ms = view st ems) (dispatched_messages evs)
    /\ sleeps evs = flat_map (fun im => rate_limit_waits (fst im))
                             (enumerate_from i models).
Proof.
  intros Hrl. induction models as [| m models IH]; intros i st.
  - exists st, []. split; [reflexivity |].
    split; [| repeat split; constructor].
    unfold logged. rewrite app_nil_r. repeat split.
  - destruct (attempts_rate_limited k ems mt i m st Hrl)
      as (st1 & evs1 & E1 & L1 & M1 & V1 & S1).
    destruct (IH (i + 1)%Z st1) as (st2 & evs2 & E2 & L2 & M2 & V2 & S2).
    exists st2, (evs1 ++ evs2).
    split.
    + cbn [enumerate_from for_each]. unfold bind at 1. unfold bind at 1.
      cbn [fst snd]. rewrite E1. simpl. exact E2.
    + split; [eapply logged_trans; eauto |]. repeat split.
      * unfold dispatched_models in *. rewrite flat_map_app, M1, M2.
        reflexivity.
      * unfold dispatched_messages in *. rewrite flat_map_app, V1.
        apply Forall_app. split; [repeat constructor |].
        rewrite (logged_view _ _ _ _ L1) in V2. exact V2.
      * unfold sleeps in *. rewrite flat_map_app, S1, S2. reflexivity.
Qed.

(** The fallback text has the context label inside it. *)
Lemma fallback_names_context (ctx : pystr) :
  exists before after, fallback_text ctx = before ++ ctx ++ after.
Proof.
  unfold fallback_text, strip.
  assert (Hh : fallback_heading = [32; 65] ++ skipn 2 fallback_heading)
    by reflexivity.
  assert (Hg : fallback_guidance =
               firstn 448 fallback_guidance ++ 46 :: skipn 449 fallback_guidance)
    by (vm_compute; reflexivity).
  set (h := skipn 2 fallback_heading) in *.
  set (g := firstn 448 fallback_guidance) in *.
  set (t := skipn 449 fallback_guidance) in *.
  rewrite Hh, Hg.
  replace (fallback_opening ++ upper ctx ++ ([32; 65] ++ h) ++ ctx ++ g ++ 46 :: t)
    with ((fallback_opening ++ upper ctx ++ [32]) ++ 65 :: (h ++ ctx ++ g ++ 46 :: t))
    by (rewrite <- !app_assoc; reflexivity).
  destruct (lstrip_app_keep (fallback_opening ++ upper ctx ++ [32]) 65
              (h ++ ctx ++ g ++ 46 :: t) eq_refl) as [a' ->].
  replace (a' ++ 65 :: h ++ ctx ++ g ++ 46 :: t)
    with ((a' ++ 65 :: h ++ ctx ++ g) ++ 46 :: t)
    by (rewrite <- !app_assoc; simpl; rewrite <- !app_assoc; reflexivity).
  destruct (rstrip_app_keep (a' ++ 65 :: h ++ ctx ++ g) 46 t eq_refl)
    as [t' ->].
  exists (a' ++ 65 :: h), (g ++ 46 :: t').
  rewrite <- !app_assoc. simpl. rewrite <- !app_assoc. reflexivity.
Qed.

(** C2.  The executor never raises: whatever the messages and whatever
    the remote service does, it returns a string.  When the service
    answers every request with a rate-limit failure and the call is not
    served from the cache, that string is the fallback text, which names
    the context label, and it is returned after exactly three dispatches
    to each configured model, the primary model first, each followed by
    its wait; the cache is left as it was. *)
Theorem executor_never_raises (messages : list nat) (mt : Z) (ctx : pystr)
        (st : state R) :
  (exists text st', _execute_groq_call messages mt ctx st = (Ok text, st'))
  /\ (rate_limited_service ->
      messages <> [] ->
      response_cache st !! fingerprint (view st messages) = None ->
      exists st' evs,
        _execute_groq_call messages mt ctx st = (Ok (fallback_text ctx), st')
        /\ trace st' = trace st ++ evs
        /\ dispatched_models evs
           = flat_map (fun m => [m; m; m])
                      (primary_model st :: fallback_models st)
        /\ sleeps evs
           = flat_map (fun im => rate_limit_waits (fst im))
                      (enumerate (primary_model st :: fallback_models st))
        /\ response_cache st' = response_cache st
        /\ exists before after, fallback_text ctx = before ++ ctx ++ after).
Proof.
  split.
  - destruct messages as [| first rest].
    + eexists _, _. apply execute_no_input.
    + destruct (response_cache st !! fingerprint (view st (first :: rest)))
        as [r |] eqn:E.
      * eexists _, _. apply execute_hit; [discriminate | exact E].
      * destruct (execute_miss first rest mt ctx st E)
          as (o & st' & _ & Hrun & _).
        eexists _, _. exact Hrun.
  - intros Hrl Hne Hmiss. destruct messages as [| first rest]; [congruence |].
    destruct (models_rate_limited (fingerprint (view st (first :: rest)))
                (first :: rest) mt (primary_model st :: fallback_models st)
                Hrl 0%Z (enhanced first st))
      as (st' & evs & E & L & Hm & _ & Hs).
    destruct (execute_miss first rest mt ctx st Hmiss)
      as (o & st'' & Etry & Hrun & _).
    unfold try_models, enumerate in Etry. rewrite E in Etry.
    injection Etry as <- <-.
    exists st', evs. split; [exact Hrun |].
    destruct L as (_ & _ & _ & _ & Hc & Ht).
    repeat split; try assumption.
    apply fallback_names_context.
Qed.

(** ** The cache key *)

(** C1, as the code has it.  The key under which the executor looks a
    response up, and under which it stores an accepted one, is the
    fingerprint of the message list as it was received, before the
    accuracy clause is appended to the first message. *)
Theorem cache_key_is_fingerprint_of_received_messages
        (messages : list nat) (mt : Z) (ctx : pystr) (st : state R) :
  messages <> [] ->
  let key := fingerprint (view st messages) in
  _generate_cache_id (json_dumps (view st messages)) = Ok key
  /\ (forall r, response_cache st !! key = Some r ->
                _execute_groq_call messages mt ctx st = (Ok r, st))
  /\ (response_cache st !! key = None ->
      exists text st',
        _execute_groq_call messages mt ctx st = (Ok text, st')
        /\ (response_cache st' = response_cache st
            \/ response_cache st' = <[key := text]> (response_cache st))).
Proof.
  intros Hne key. split; [apply generate_cache_id_json |]. split.
  - intros r Hhit. apply execute_hit; assumption.
  - intros Hmiss. destruct messages as [| first rest]; [congruence |].
    destruct (execute_miss first rest mt ctx st Hmiss)
      as (o & st' & _ & Hrun & Ho).
    eexists _, st'. split; [exact Hrun |].
    destruct o as [v |].
    + right. destruct Ho as (_ & _ & _ & _ & Hc & _). exact Hc.
    + left. destruct Ho as (_ & _ & _ & _ & Hc & _). exact Hc.
Qed.

(** ** Cache hits *)

(** C4.  Message lists with the same serialised content have the same
    fingerprint, and once a call has stored an accepted response, a later
    call whose messages serialise to the same text returns that response
    at once: the state, and with it the log of dispatches, is unchanged. *)
Theorem cache_hit_short_circuits
        (messages1 messages2 : list nat) (mt1 mt2 : Z) (ctx1 ctx2 : pystr)
        (st st1 st2 : state R) (res : result pystr) :
  _execute_groq_call messages1 mt1 ctx1 st = (res, st1) ->
  response_cache st1 <> response_cache st ->
  response_cache st1 ⊆ response_cache st2 ->
  json_dumps (view st2 messages2) = json_dumps (view st messages1) ->
  fingerprint (view st2 messages2) = fingerprint (view st messages1)
  /\ _execute_groq_call messages2 mt2 ctx2 st2 = (res, st2).
Proof.
  intros Hrun Hchanged Hkept Hjson.
  split; [apply fingerprint_of_json, Hjson |].
  destruct messages1 as [| first rest].
  { rewrite execute_no_input in Hrun. injection Hrun as <- <-. congruence. }
  destruct (response_cache st !! fingerprint (view st (first :: rest)))
    as [r |] eqn:E.
  { rewrite (execute_hit _ mt1 ctx1 st r) in Hrun by (discriminate || exact E).
    injection Hrun as <- <-. congruence. }
  destruct (execute_miss first rest mt1 ctx1 st E)
    as (o & st' & _ & Hrun' & Ho).
  rewrite Hrun' in Hrun. injection Hrun as <- <-.
  destruct o as [v |].
  - destruct Ho as (_ & _ & _ & _ & Hc & _).
    apply execute_hit.
    + intros ->. apply (json_dumps_nonempty_list (deref (heap st) first)
                          (view st rest)). exact Hjson.
    + rewrite (fingerprint_of_json _ _ Hjson).
      eapply lookup_weaken; [| exact Hkept].
      rewrite Hc. apply lookup_insert_eq.
  - destruct Ho as (_ & _ & _ & _ & Hc & _).
    exfalso. apply Hchanged. exact Hc.
Qed.

(** ** What the cache holds *)

Lemma execute_cache_effect (messages : list nat) (mt : Z) (ctx : pystr)
      (st st' : state R) (res : result pystr) :
  _execute_groq_call messages mt ctx st = (res, st') ->
  response_cache st' = response_cache st
  \/ exists k v evs req resp,
       res = Ok v
       /\ response_cache st' = <[k := v]> (response_cache st)
       /\ (150 < len v)%Z
       /\ trace st' = trace st ++ evs ++ [Dispatch req (Ok resp)]
       /\ accepted_content resp = Some v.
Proof.
  intros Hrun. destruct messages as [| first rest].
  { rewrite execute_no_input in Hrun. injection Hrun as <- <-. left.
    reflexivity. }
  destruct (response_cache st !! fingerprint (view st (first :: rest)))
    as [r |] eqn:E.
  { rewrite (execute_hit _ mt ctx st r) in Hrun by (discriminate || exact E).
    injection Hrun as <- <-. left. reflexivity. }
  destruct (execute_miss first rest mt ctx st E) as (o & st1 & _ & Hrun' & Ho).
  rewrite Hrun' in Hrun. injection Hrun as <- <-.
  destruct o as [v |].
  - right.
    destruct Ho as (_ & _ & _ & _ & Hc & Hv & evs & req & resp & Ht & Ha).
    exists (fingerprint (view st (first :: rest))), v, evs, req, resp.
    repeat split; assumption.
  - left. destruct Ho as (_ & _ & _ & _ & Hc & _). exact Hc.
Qed.

(** C9.  Only accepted content is ever in the cache.  In every state
    the system can reach, every cached value is longer than 150
    characters.  A call changes the cache only by storing the text it
    returns, and that text is the accepted content of the response of
    the last dispatch.  When all models and attempts are exhausted the
    call returns the fallback text and the cache is as it was before the
    call. *)
Theorem cache_holds_only_accepted_content :
  (forall st, reachable st ->
              map_Forall (fun _ v => (150 < len v)%Z) (response_cache st))
  /\ (forall messages mt ctx st st' res,
         _execute_groq_call messages mt ctx st = (res, st') ->
         response_cache st' = response_cache st
         \/ exists k v evs req resp,
              res = Ok v
              /\ response_cache st' = <[k := v]> (response_cache st)
              /\ (150 < len v)%Z
              /\ trace st' = trace st ++ evs ++ [Dispatch req (Ok resp)]
              /\ accepted_content resp = Some v)
  /\ (forall first rest mt ctx st st',
         response_cache st !! fingerprint (view st (first :: rest)) = None ->
         try_models (fingerprint (view st (first :: rest))) (first :: rest) mt
                    (primary_model st :: fallback_models st)
                    (enhanced first st) = (Ok None, st') ->
         _execute_groq_call (first :: rest) mt ctx st
           = (Ok (fallback_text ctx), st')
         /\ response_cache st' = response_cache st).
Proof.
  split; [| split].
  - induction 1 as [api_key h n r st Hinit | st h n _ IH | st seconds _ IH
                   | st messages mt ctx res st' _ IH Hrun].
    + unfold __init__ in Hinit.
      destruct (is_empty api_key || (len api_key <? 15)%Z); [discriminate |].
      injection Hinit as <-. simpl. apply map_Forall_empty.
    + exact IH.
    + exact IH.
    + destruct (execute_cache_effect _ _ _ _ _ _ Hrun)
        as [-> | (k & v & _ & _ & _ & _ & -> & Hv & _)]; [exact IH |].
      apply map_Forall_insert_2; assumption.
  - intros. eapply execute_cache_effect; eauto.
  - intros first rest mt ctx st st' Hmiss Htry.
    destruct (execute_miss first rest mt ctx st Hmiss)
      as (o & st1 & Etry & Hrun & Ho).
    rewrite Htry in Etry. injection Etry as <- <-.
    split; [exact Hrun |].
    destruct Ho as (_ & _ & _ & _ & Hc & _). exact Hc.
Qed.

(** ** The caller's messages *)

(** On a cache miss the dict object of the first message itself gets the
    clause: the copy made by the executor is a new list of the same
    objects. *)
Lemma execute_miss_appends_clause (first : nat) (rest : list nat) (mt : Z)
      (ctx : pystr) (st st' : state R) (res : result pystr) (m : Message) :
  response_cache st !! fingerprint (view st (first :: rest)) = None ->
  heap st !! first = Some m ->
  _execute_groq_call (first :: rest) mt ctx st = (res, st') ->
  heap st' !! first = Some (with_suffix accuracy_clause m).
Proof.
  intros Hmiss Hm Hrun.
  destruct (execute_miss first rest mt ctx st Hmiss)
    as (o & st1 & _ & Hrun' & Ho).
  rewrite Hrun' in Hrun. injection Hrun as <- <-.
  assert (Hh : heap st1 = heap (enhanced first st))
    by (destruct o; [destruct Ho as (H & _) | destruct Ho as (H & _)];
        exact H).
  rewrite Hh. unfold enhanced. simpl.
  rewrite lookup_alter_eq, Hm. reflexivity.
Qed.

(** ** The executor: what a call can cost *)

Lemma dispatched_requests_app (a b : list event) :
  dispatched_requests (a ++ b) = dispatched_requests a ++ dispatched_requests b.
Proof. apply flat_map_app. Qed.

Lemma sleeps_app (a b : list event) : sleeps (a ++ b) = sleeps a ++ sleeps b.
Proof. apply flat_map_app. Qed.

Lemma total_app (a b : list Z) : (total (a ++ b) = total a + total b)%Z.
Proof. induction a as [| x a IH]; simpl; [reflexivity | rewrite IH; lia]. Qed.

Lemma wait_budget_nonneg (n : nat) :
  forall i, (0 <= i)%Z -> (0 <= wait_budget i n)%Z.
Proof.
  induction n as [| n IH]; intros i Hi; simpl; [lia |].
  specialize (IH (i + 1)%Z). lia.
Qed.

(** Closes the goal of [attempt_call_log] once the events are known. *)
Ltac log_events evs :=
  eexists _, _, evs; split; [reflexivity |];
  simpl; rewrite <- ?app_assoc;
  repeat split; try (repeat constructor; lia); try lia.

(** One attempt: one dispatch of the request for the model, then at most
    one sleep, never longer than the rate-limit wait. *)
Lemma attempt_call_log (k : pystr) (ems : list nat) (mt i : Z) (m : pystr)
      (a : Z) (st : state R) :
  (0 <= i)%Z -> (0 <= a)%Z ->
  exists f st' evs,
    attempt_call k ems mt i m a st = (Ok f, st')
    /\ heap st' = heap st
    /\ trace st' = trace st ++ evs
    /\ dispatched_requests evs = [request_for m (view st ems) mt]
    /\ Forall (fun w => (0 <= w)%Z) (sleeps evs)
    /\ (total (sleeps evs) <= (a + 1) * 15 + i * 10)%Z.
Proof.
  intros Hi Ha.
  unfold attempt_call, try_catch, bind, read_messages,
    chat_completions_create.
  fold (request_for m (view st ems) mt).
  set (req := request_for m (view st ems) mt).
  destruct (remote (service st) req) as [[resp | e] r'].
  - destruct (choices resp) as [| c cs];
      [log_events [Dispatch req (Ok resp)] |].
    destruct (message_content c) as [[| x text] |];
      try (log_events [Dispatch req (Ok resp)]).
    destruct (150 <? len (strip (x :: text)))%Z;
      log_events [Dispatch req (Ok resp)].
  - destruct e as [msg | msg | | | msg | msg]; simpl.
    + log_events [Dispatch req (Raised (RateLimitError msg));
                  Sleep ((a + 1) * 15 + i * 10)].
    + destruct (contains (lit "decommissioned") (lower msg)
                || contains (lit "not found") (lower msg)).
      * log_events [Dispatch req (Raised (APIError msg))].
      * log_events [Dispatch req (Raised (APIError msg)); Sleep ((a + 1) * 5)].
    + log_events [Dispatch req (Raised UnicodeEncodeError); Sleep ((a + 1) * 3)].
    + log_events [Dispatch req (Raised ZeroDivisionError); Sleep ((a + 1) * 3)].
    + log_events [Dispatch req (Raised (ValueError msg)); Sleep ((a + 1) * 3)].
    + log_events [Dispatch req (Raised (OtherException msg));
                  Sleep ((a + 1) * 3)].
Qed.

(** The attempts on one model. *)
Lemma attempts_log (k : pystr) (ems : list nat) (mt i : Z) (m : pystr)
      (xs : list Z) :
  (0 <= i)%Z -> Forall (fun a => (0 <= a)%Z) xs ->
  forall st : state R,
  exists o st' evs n,
    for_each xs (attempt_call k ems mt i m) st = (Ok o, st')
    /\ heap st' = heap st
    /\ trace st' = trace st ++ evs
    /\ dispatched_requests evs = repeat (request_for m (view st ems) mt) n
    /\ (n <= List.length xs)%nat
    /\ Forall (fun w => (0 <= w)%Z) (sleeps evs)
    /\ (total (sleeps evs)
        <= total (List.map (fun a => (a + 1) * 15 + i * 10) xs))%Z.
Proof.
  intros Hi. induction 1 as [| a xs Ha Hxs IH]; intros st.
  - exists None, st, [], 0%nat. simpl. rewrite app_nil_r.
    repeat split; try constructor. lia.
  - destruct (attempt_call_log k ems mt i m a st Hi Ha)
      as (f & st1 & evs1 & E1 & H1 & T1 & D1 & P1 & W1).
    assert (Hpos : (0 <= total (List.map (fun a => (a + 1) * 15 + i * 10) xs))%Z).
    { clear IH. induction Hxs as [| b xs Hb _ IHx]; simpl; lia. }
    assert (Hstop : forall o : option pystr,
               exists o' st' evs n,
                 (@Ok (option pystr) o, st1) = (Ok o', st')
                 /\ heap st' = heap st
                 /\ trace st' = trace st ++ evs
                 /\ dispatched_requests evs
                    = repeat (request_for m (view st ems) mt) n
                 /\ (n <= List.length (a :: xs))%nat
                 /\ Forall (fun w => (0 <= w)%Z) (sleeps evs)
                 /\ (total (sleeps evs)
                     <= total (List.map (fun a => (a + 1) * 15 + i * 10)
                                        (a :: xs)))%Z).
    { intros o. exists o, st1, evs1, 1%nat.
      repeat split; try assumption; simpl; lia. }
    simpl for_each. unfold bind. rewrite E1.
    destruct f as [v | |]; [apply Hstop | | apply Hstop].
    destruct (IH st1) as (o & st2 & evs2 & n & E2 & H2 & T2 & D2 & N2 & P2 & W2).
    exists o, st2, (evs1 ++ evs2), (S n).
    split; [exact E2 |]. split; [congruence |].
    split; [rewrite T2, T1, app_assoc; reflexivity |].
    split.
    { rewrite dispatched_requests_app, D1, D2.
      unfold view. rewrite H1. reflexivity. }
    split; [simpl; lia |].
    rewrite sleeps_app, total_app. split.
    + apply Forall_app. split; assumption.
    + simpl. lia.
Qed.

(** The models in turn. *)
Lemma models_log (k : pystr) (ems : list nat) (mt : Z) (models : list pystr) :
  forall (i : Z) (st : state R),
  (0 <= i)%Z ->
  exists o st' evs,
    for_each (enumerate_from i models)
      (fun im =>
         let* r := for_each range3
                     (attempt_call k ems mt (fst im) (snd im)) in
         match r with
         | Some s => ret (FReturn s)
         | None => ret FNext
         end) st = (Ok o, st')
    /\ heap st' = heap st
    /\ trace st' = trace st ++ evs
    /\ Forall (fun req => exists m, In m models
                                    /\ req = request_for m (view st ems) mt)
              (dispatched_requests evs)
    /\ (List.length (dispatched_requests evs) <= 3 * List.length models)%nat
    /\ Forall (fun w => (0 <= w)%Z) (sleeps evs)
    /\ (total (sleeps evs) <= wait_budget i (List.length models))%Z.
Proof.
  induction models as [| m models IH]; intros i st Hi.
  - exists None, st, []. simpl. rewrite app_nil_r.
    repeat split; try constructor. lia.
  - assert (Hr : Forall (fun a => (0 <= a)%Z) range3)
      by (repeat constructor; lia).
    destruct (attempts_log k ems mt i m range3 Hi Hr st)
      as (o1 & st1 & evs1 & n & E1 & H1 & T1 & D1 & N1 & P1 & W1).
    assert (Hw : (total (List.map (fun a => (a + 1) * 15 + i * 10) range3)
                  = 90 + 30 * i)%Z) by (unfold range3; simpl; lia).
    rewrite Hw in W1.
    assert (Hreq : Forall (fun req => exists m0, In m0 (m :: models)
                              /\ req = request_for m0 (view st ems) mt)
                          (dispatched_requests evs1)).
    { rewrite D1. clear. induction n as [| n IHn]; simpl; constructor;
        [exists m; split; [left |]; reflexivity | exact IHn]. }
    assert (Hlen : (List.length (dispatched_requests evs1) <= 3)%nat).
    { rewrite D1, repeat_length. exact N1. }
    cbn [enumerate_from for_each]. unfold bind at 1. unfold bind at 1.
    cbn [fst snd]. rewrite E1.
    destruct o1 as [v |].
    + exists (Some v), st1, evs1. split; [reflexivity |].
      assert (Hi1 : (0 <= i + 1)%Z) by lia.
      pose proof (wait_budget_nonneg (List.length models) (i + 1)%Z Hi1)
        as Hb.
      repeat split; try assumption; simpl; lia.
    + assert (Hi1 : (0 <= i + 1)%Z) by lia.
      destruct (IH (i + 1)%Z st1 Hi1)
        as (o & st2 & evs2 & E2 & H2 & T2 & D2 & L2 & P2 & W2).
      exists o, st2, (evs1 ++ evs2). split; [exact E2 |].
      split; [congruence |].
      split; [rewrite T2, T1, app_assoc; reflexivity |].
      rewrite dispatched_requests_app, sleeps_app, total_app, length_app.
      repeat split.
      * apply Forall_app. split; [exact Hreq |].
        unfold view in D2 |- *. rewrite H1 in D2.
        eapply Forall_impl; [exact D2 |].
        intros req (m0 & Hin & Hreq0). exists m0. split; [right |]; assumption.
      * simpl. lia.
      * apply Forall_app. split; assumption.
      * simpl. lia.
Qed.


(** ** The executor: unavailable models and unacceptable answers *)

Lemma attempt_unavailable (k : pystr) (ems : list nat) (mt i : Z)
      (m : pystr) (a : Z) (st : state R) :
  unavailable_service ->
  exists st' out,
    attempt_call k ems mt i m a st = (Ok FBreak, st')
    /\ logged [Dispatch (request_for m (view st ems) mt) out] st st'.
Proof.
  intros Hun.
  unfold attempt_call, try_catch, bind, read_messages,
    chat_completions_create.
  fold (request_for m (view st ems) mt).
  set (req := request_for m (view st ems) mt).
  destruct (Hun (service st) req) as (msg & r' & E & Hmsg).
  rewrite E. simpl. rewrite Hmsg.
  eexists _, _. split; [reflexivity |]. unfold logged. simpl. repeat split.
Qed.

Lemma models_unavailable (k : pystr) (ems : list nat) (mt : Z)
      (models : list pystr) :
  unavailable_service ->
  forall (i : Z) (st : state R),
  exists st' evs,
    for_each (enumerate_from i models)
      (fun im =>
         let* r := for_each range3
                     (attempt_call k ems mt (fst im) (snd im)) in
         match r with
         | Some s => ret (FReturn s)
         | None => ret FNext
         end) st = (Ok None, st')
    /\ logged evs st st'
    /\ dispatched_models evs = models
    /\ sleeps evs = [].
Proof.
  intros Hun. induction models as [| m models IH]; intros i st.
  - exists st, []. split; [reflexivity |]. split; [| split; reflexivity].
    unfold logged. rewrite app_nil_r. repeat split.
  - destruct (attempt_unavailable k ems mt i m 0 st Hun)
      as (st1 & out & E1 & L1).
    destruct (IH (i + 1)%Z st1) as (st2 & evs2 & E2 & L2 & M2 & S2).
    eexists st2, (_ :: evs2). split.
    + cbn [enumerate_from for_each]. unfold bind at 1. unfold bind at 1.
      cbn [fst snd]. unfold range3. cbn [for_each]. unfold bind at 1.
      rewrite E1. simpl. exact E2.
    + split; [exact (logged_trans _ _ _ _ _ L1 L2) |].
      simpl. rewrite M2, S2. split; reflexivity.
Qed.

(** When every answer says the model is decommissioned or not found, the
    executor asks each configured model exactly once, in order, never
    sleeps, returns the fallback text and leaves the cache alone. *)
Theorem unavailable_models_are_skipped (messages : list nat) (mt : Z)
        (ctx : pystr) (st : state R) :
  unavailable_service ->
  messages <> [] ->
  response_cache st !! fingerprint (view st messages) = None ->
  exists st' evs,
    _execute_groq_call messages mt ctx st = (Ok (fallback_text ctx), st')
    /\ trace st' = trace st ++ evs
    /\ dispatched_models evs = primary_model st :: fallback_models st
    /\ sleeps evs = []
    /\ response_cache st' = response_cache st.
Proof.
  intros Hun Hne Hmiss. destruct messages as [| first rest]; [congruence |].
  destruct (models_unavailable (fingerprint (view st (first :: rest)))
              (first :: rest) mt (primary_model st :: fallback_models st)
              Hun 0%Z (enhanced first st))
    as (st' & evs & E & L & Hm & Hs).
  destruct (execute_miss first rest mt ctx st Hmiss)
    as (o & st'' & Etry & Hrun & _).
  unfold try_models, enumerate in Etry. rewrite E in Etry.
  injection Etry as <- <-.
  exists st', evs. split; [exact Hrun |].
  destruct L as (_ & _ & _ & _ & Hc & Ht).
  repeat split; assumption.
Qed.

Lemma attempt_unacceptable (k : pystr) (ems : list nat) (mt i : Z)
      (m : pystr) (a : Z) (st : state R) :
  unacceptable_service ->
  exists st' out,
    attempt_call k ems mt i m a st = (Ok FNext, st')
    /\ logged [Dispatch (request_for m (view st ems) mt) out] st st'.
Proof.
  intros Hun.
  unfold attempt_call, try_catch, bind, read_messages,
    chat_completions_create.
  fold (request_for m (view st ems) mt).
  set (req := request_for m (view st ems) mt).
  destruct (Hun (service st) req) as (resp & r' & E & Hacc).
  rewrite E. unfold accepted_content in Hacc.
  destruct (choices resp) as [| c cs];
    [eexists _, _; split; [reflexivity |]; unfold logged; simpl; repeat split |].
  destruct (message_content c) as [[| x text] |];
    try (eexists _, _; split; [reflexivity |]; unfold logged; simpl;
         repeat split).
  destruct (150 <? len (strip (x :: text)))%Z; [discriminate |].
  eexists _, _. split; [reflexivity |]. unfold logged. simpl. repeat split.
Qed.

Lemma models_unacceptable (k : pystr) (ems : list nat) (mt : Z)
      (models : list pystr) :
  unacceptable_service ->
  forall (i : Z) (st : state R),
  exists st' evs,
    for_each (enumerate_from i models)
      (fun im =>
         let* r := for_each range3
                     (attempt_call k ems mt (fst im) (snd im)) in
         match r with
         | Some s => ret (FReturn s)
         | None => ret FNext
         end) st = (Ok None, st')
    /\ logged evs st st'
    /\ dispatched_models evs = flat_map (fun m => [m; m; m]) models
    /\ sleeps evs = [].
Proof.
  intros Hun. induction models as [| m models IH]; intros i st.
  - exists st, []. split; [reflexivity |]. split; [| split; reflexivity].
    unfold logged. rewrite app_nil_r. repeat split.
  - destruct (attempt_unacceptable k ems mt i m 0 st Hun)
      as (st1 & out1 & E1 & L1).
    destruct (attempt_unacceptable k ems mt i m 1 st1 Hun)
      as (st2 & out2 & E2 & L2).
    destruct (attempt_unacceptable k ems mt i m 2 st2 Hun)
      as (st3 & out3 & E3 & L3).
    destruct (IH (i + 1)%Z st3) as (st4 & evs4 & E4 & L4 & M4 & S4).
    eexists st4, (_ :: _ :: _ :: evs4). split.
    + cbn [enumerate_from for_each]. unfold bind at 1. unfold bind at 1.
      cbn [fst snd]. unfold range3. cbn [for_each]. unfold bind at 1.
      rewrite E1. unfold bind at 1. rewrite E2. unfold bind at 1.
      rewrite E3. simpl. exact E4.
    + split.
      * exact (logged_trans _ _ _ _ _ L1
                 (logged_trans _ _ _ _ _ L2 (logged_trans _ _ _ _ _ L3 L4))).
      * simpl. rewrite M4, S4. split; reflexivity.
Qed.

(** When every answer comes back without acceptable content (no choice,
    no text, or text of at most 150 characters once trimmed), the executor
    asks each model three times, never sleeps in between, returns the
    fallback text and leaves the cache alone. *)
Theorem unacceptable_answers_are_retried_without_sleeping
        (messages : list nat) (mt : Z) (ctx : pystr) (st : state R) :
  unacceptable_service ->
  messages <> [] ->
  response_cache st !! fingerprint (view st messages) = None ->
  exists st' evs,
    _execute_groq_call messages mt ctx st = (Ok (fallback_text ctx), st')
    /\ trace st' = trace st ++ evs
    /\ dispatched_models evs
       = flat_map (fun m => [m; m; m]) (primary_model st :: fallback_models st)
    /\ sleeps evs = []
    /\ response_cache st' = response_cache st.
Proof.
  intros Hun Hne Hmiss. destruct messages as [| first rest]; [congruence |].
  destruct (models_unacceptable (fingerprint (view st (first :: rest)))
              (first :: rest) mt (primary_model st :: fallback_models st)
              Hun 0%Z (enhanced first st))
    as (st' & evs & E & L & Hm & Hs).
  destruct (execute_miss first rest mt ctx st Hmiss)
    as (o & st'' & Etry & Hrun & _).
  unfold try_models, enumerate in Etry. rewrite E in Etry.
  injection Etry as <- <-.
  exists st', evs. split; [exact Hrun |].
  destruct L as (_ & _ & _ & _ & Hc & Ht).
  repeat split; assumption.
Qed.

(** ** The executor: frames *)

(** A call never removes a cache entry and never replaces one. *)
Theorem executor_keeps_cache_entries (messages : list nat) (mt : Z)
        (ctx : pystr) (st : state R) :
  response_cache st
    ⊆ response_cache (snd (_execute_groq_call messages mt ctx st)).
Proof.
  destruct messages as [| first rest]; [reflexivity |].
  destruct (response_cache st !! fingerprint (view st (first :: rest)))
    as [r |] eqn:E.
  { rewrite (execute_hit _ mt ctx st r) by (discriminate || exact E).
    reflexivity. }
  destruct (execute_miss first rest mt ctx st E) as (o & st' & _ & Hrun & Ho).
  rewrite Hrun. simpl snd. destruct o as [v |].
  - destruct Ho as (_ & _ & _ & _ & Hc & _). rewrite Hc.
    apply insert_subseteq. exact E.
  - destruct Ho as (_ & _ & _ & _ & Hc & _). rewrite Hc. reflexivity.
Qed.

(** A call leaves the models, the allocation pointer and every dict
    object alone, except the object of the first message. *)
Theorem executor_changes_only_first_message (messages : list nat) (mt : Z)
        (ctx : pystr) (st : state R) :
  let st' := snd (_execute_groq_call messages mt ctx st) in
  primary_model st' = primary_model st
  /\ fallback_models st' = fallback_models st
  /\ next_loc st' = next_loc st
  /\ forall l, head messages <> Some l -> heap st' !! l = heap st !! l.
Proof.
  intros st'. subst st'.
  destruct messages as [| first rest]; [repeat split |].
  destruct (response_cache st !! fingerprint (view st (first :: rest)))
    as [r |] eqn:E.
  { rewrite (execute_hit _ mt ctx st r) by (discriminate || exact E).
    repeat split. }
  destruct (execute_miss first rest mt ctx st E) as (o & st' & _ & Hrun & Ho).
  rewrite Hrun. simpl snd.
  assert (H : heap st' = heap (enhanced first st)
              /\ next_loc st' = next_loc st
              /\ primary_model st' = primary_model st
              /\ fallback_models st' = fallback_models st).
  { destruct o; destruct Ho as (H1 & H2 & H3 & H4 & _); repeat split;
      assumption. }
  destruct H as (Hh & Hn & Hp & Hf). repeat split; try assumption.
  intros l Hl. rewrite Hh. unfold enhanced. simpl.
  apply lookup_alter_ne. intros ->. apply Hl. reflexivity.
Qed.

(** When the primary model's first answer is acceptable, that one
    dispatch is all that happens: the trimmed text is stored under the
    fingerprint of the messages received and returned. *)
Theorem accepted_first_answer_is_returned (first : nat) (rest : list nat)
        (mt : Z) (ctx : pystr) (st : state R) (resp : response) (r' : R)
        (v : pystr) :
  let k := fingerprint (view st (first :: rest)) in
  let req := request_for (primary_model st)
                         (view (enhanced first st) (first :: rest)) mt in
  response_cache st !! k = None ->
  remote (service st) req = (Ok resp, r') ->
  accepted_content resp = Some v ->
  _execute_groq_call (first :: rest) mt ctx st
  = (Ok v,
     set_response_cache (<[k := v]> (response_cache st))
       (set_service r' (add_event (Dispatch req (Ok resp))
                                  (enhanced first st)))).
Proof.
  intros k req Hmiss Hremote Hacc.
  destruct (execute_miss first rest mt ctx st Hmiss)
    as (o & st' & Etry & Hrun & _).
  fold k in Etry. rewrite Hrun. clear Hrun.
  unfold try_models, enumerate in Etry.
  cbn [enumerate_from for_each] in Etry. unfold bind at 1 in Etry.
  unfold bind at 1 in Etry. cbn [fst snd] in Etry.
  unfold range3 in Etry. cbn [for_each] in Etry. unfold bind at 1 in Etry.
  unfold attempt_call at 1, try_catch, bind at 1, read_messages in Etry.
  unfold bind at 1, chat_completions_create in Etry.
  fold (request_for (primary_model st)
                    (view (enhanced first st) (first :: rest)) mt) in Etry.
  fold req in Etry.
  change (service (enhanced first st)) with (service st) in Etry.
  rewrite Hremote in Etry.
  unfold accepted_content in Hacc.
  destruct (choices resp) as [| c cs]; [discriminate |].
  destruct (message_content c) as [[| x text] |]; try discriminate.
  destruct (150 <? len (strip (x :: text)))%Z; [| discriminate].
  injection Hacc as <-.
  unfold bind, cache_store, ret in Etry. simpl in Etry.
  injection Etry as <- <-. reflexivity.
Qed.

(** ** [_generate_cache_id]: the shape of a cache key *)

Lemma compress_length (h block : list N) :
  List.length (SHA256.compress h block) = 8%nat.
Proof. reflexivity. Qed.

Lemma fold_compress_length (blocks : list (list N)) :
  forall h, List.length h = 8%nat ->
            List.length (fold_left SHA256.compress blocks h) = 8%nat.
Proof.
  induction blocks as [| b blocks IH]; intros h Hh; simpl; [exact Hh |].
  apply IH, compress_length.
Qed.

Lemma be_bytes_byte (k : nat) (x : N) :
  Forall (fun b => b < 256) (SHA256.be_bytes k x).
Proof.
  induction k as [| k IH]; simpl; constructor; [| exact IH].
  change 0xFF with (N.ones 8). rewrite N.land_ones.
  apply N.mod_lt. discriminate.
Qed.

Lemma be_bytes_length (k : nat) (x : N) :
  List.length (SHA256.be_bytes k x) = k.
Proof. induction k as [| k IH]; simpl; [reflexivity | rewrite IH; reflexivity]. Qed.

Lemma flat_map_length_const {A B} (f : A -> list B) (n : nat) (l : list A) :
  (forall x, List.length (f x) = n) ->
  List.length (flat_map f l) = (List.length l * n)%nat.
Proof.
  intros Hf. induction l as [| x l IH]; simpl; [reflexivity |].
  rewrite length_app, Hf, IH. reflexivity.
Qed.

Lemma flat_map_Forall {A B} (P : B -> Prop) (f : A -> list B) (l : list A) :
  Forall (fun x => Forall P (f x)) l -> Forall P (flat_map f l).
Proof.
  induction 1 as [| x l Hx Hl IH]; simpl; [constructor |].
  apply Forall_app. split; assumption.
Qed.

Lemma digest_bytes (msg : list N) :
  List.length (SHA256.digest msg) = 32%nat
  /\ Forall (fun b => b < 256) (SHA256.digest msg).
Proof.
  unfold SHA256.digest. split.
  - rewrite (flat_map_length_const _ 4%nat) by (intros; apply be_bytes_length).
    rewrite fold_compress_length; [reflexivity | vm_compute; reflexivity].
  - apply flat_map_Forall, List.Forall_forall. intros x _. apply be_bytes_byte.
Qed.

Lemma hex_digit_is_hex (d : N) :
  d < 16 -> is_hex_digit (SHA256.hex_digit d) = true.
Proof.
  intros Hd. unfold SHA256.hex_digit, is_hex_digit.
  destruct (N.ltb_spec d 10).
  - apply orb_true_iff. left. apply andb_true_iff.
    split; apply N.leb_le; lia.
  - apply orb_true_iff. right. apply andb_true_iff.
    split; apply N.leb_le; lia.
Qed.

Lemma hexdigest_shape (msg : list N) :
  List.length (SHA256.hexdigest msg) = 64%nat
  /\ Forall (fun c => is_hex_digit c = true) (SHA256.hexdigest msg).
Proof.
  destruct (digest_bytes msg) as [Hlen Hbytes]. unfold SHA256.hexdigest. split.
  - rewrite (flat_map_length_const _ 2%nat) by reflexivity.
    rewrite Hlen. reflexivity.
  - apply flat_map_Forall. eapply Forall_impl; [exact Hbytes |].
    intros b Hb. simpl. repeat constructor.
    + apply hex_digit_is_hex.
      rewrite N.shiftr_div_pow2. change (2 ^ 4) with 16.
      apply N.Div0.div_lt_upper_bound. simpl in Hb. lia.
    + apply hex_digit_is_hex.
      change 15 with (N.ones 4). rewrite N.land_ones.
      apply N.mod_lt. discriminate.
Qed.

Lemma utf8_char_none (c : N) :
  utf8_char c = None ->
  (0xD800 <= c /\ c <= 0xDFFF) \/ 0x110000 <= c.
Proof.
  unfold utf8_char.
  destruct (c <? 0x80); [discriminate |].
  destruct (c <? 0x800); [discriminate |].
  destruct ((0xD800 <=? c) && (c <=? 0xDFFF)) eqn:Es.
  - intros _. left. apply andb_true_iff in Es. destruct Es as [H1 H2].
    apply N.leb_le in H1, H2. split; assumption.
  - destruct (c <? 0x10000); [discriminate |].
    destruct (N.ltb_spec c 0x110000); [discriminate |].
    intros _. right. assumption.
Qed.

Lemma utf8_encode_none (s : pystr) :
  utf8_encode s = None -> Exists (fun c => utf8_char c = None) s.
Proof.
  induction s as [| c s IH]; simpl; [discriminate |].
  destruct (utf8_char c) eqn:Ec; [| intros _; left; exact Ec].
  destruct (utf8_encode s); [discriminate |].
  intros _. right. apply IH. reflexivity.
Qed.

(** A cache key is always 20 lower-case hexadecimal digits.  The only
    way [_generate_cache_id] fails is [UnicodeEncodeError], and then
    the text holds a lone surrogate or a code point beyond U+10FFFF. *)
Theorem cache_id_is_20_hex_digits (text : pystr) :
  match _generate_cache_id text with
  | Ok k =>
      List.length k = 20%nat /\ Forall (fun c => is_hex_digit c = true) k
  | Raised e =>
      e = UnicodeEncodeError
      /\ Exists (fun c => (0xD800 <= c /\ c <= 0xDFFF) \/ 0x110000 <= c) text
  end.
Proof.
  unfold _generate_cache_id.
  destruct (utf8_encode text) as [bytes |] eqn:E.
  - destruct (hexdigest_shape bytes) as [Hlen Hhex]. split.
    + unfold slice_to. simpl. rewrite length_firstn, Hlen. reflexivity.
    + apply slice_to_Forall, Hhex.
  - split; [reflexivity |].
    apply utf8_encode_none in E.
    eapply List.Exists_impl; [| exact E]. intros c. apply utf8_char_none.
Qed.

(** ** [_clean_input]: trimming *)

Lemma lstrip_head (s : pystr) :
  match lstrip s with
  | [] => True
  | c :: _ => is_space c = false
  end.
Proof.
  induction s as [| c s IH]; simpl; [exact I |].
  destruct (is_space c) eqn:E; [exact IH | exact E].
Qed.

Lemma lstrip_fixed (c : N) (s : pystr) :
  is_space c = false -> lstrip (c :: s) = c :: s.
Proof. intros H. simpl. rewrite H. reflexivity. Qed.

Lemma rstrip_keeps_head (c : N) (s : pystr) :
  is_space c = false -> exists s', rstrip (c :: s) = c :: s'.
Proof. intros H. apply (rstrip_app_keep [] c s H). Qed.

Lemma strip_head (s : pystr) :
  match strip s with
  | [] => True
  | c :: _ => is_space c = false
  end.
Proof.
  unfold strip. pose proof (lstrip_head s) as H.
  destruct (lstrip s) as [| c t]; [exact I |].
  destruct (rstrip_keeps_head c t H) as [s' ->]. exact H.
Qed.

Lemma rstrip_rstrip (s : pystr) : rstrip (rstrip s) = rstrip s.
Proof.
  unfold rstrip. rewrite rev_involutive. f_equal.
  pose proof (lstrip_head (rev s)) as H.
  destruct (lstrip (rev s)) as [| c t]; [reflexivity |].
  apply lstrip_fixed, H.
Qed.

Lemma strip_strip (s : pystr) : strip (strip s) = strip s.
Proof.
  pose proof (strip_head s) as H. unfold strip at 1.
  destruct (strip s) as [| c t] eqn:E; [reflexivity |].
  rewrite (lstrip_fixed c t H), <- E. unfold strip. apply rstrip_rstrip.
Qed.

Lemma filter_fixed (p : N -> bool) (s : pystr) :
  Forall (fun c => p c = true) s -> List.filter p s = s.
Proof.
  induction 1 as [| c s Hc Hs IH]; simpl; [reflexivity |].
  rewrite Hc, IH. reflexivity.
Qed.

Lemma slice_to_all {A} (n : Z) (s : list A) :
  (len s <= n)%Z -> slice_to n s = s.
Proof.
  intros H. unfold slice_to, len in *.
  destruct (Z.leb_spec 0 n); [| lia].
  apply firstn_all2. lia.
Qed.

Lemma slice_to_head {A} (n : Z) (s : list A) (x : A) (t : list A) :
  slice_to n s = x :: t -> exists t', s = x :: t'.
Proof.
  unfold slice_to.
  destruct (0 <=? n)%Z; destruct s as [| y s]; 
    try (rewrite firstn_nil; discriminate);
    match goal with
    | |- firstn ?k _ = _ -> _ => destruct k; simpl; [discriminate |]
    end; intros [= -> _]; eexists; reflexivity.
Qed.

Lemma rstrip_length (s : pystr) : (len (rstrip s) <= len s)%Z.
Proof.
  unfold rstrip, len. rewrite length_rev.
  assert (H : forall t : pystr, (List.length (lstrip t) <= List.length t)%nat).
  { induction t as [| c t IH]; simpl; [lia |].
    destruct (is_space c); simpl; lia. }
  specialize (H (rev s)). rewrite length_rev in H. lia.
Qed.

Lemma lstrip_length (s : pystr) : (len (lstrip s) <= len s)%Z.
Proof.
  unfold len. induction s as [| c s IH]; simpl; [lia |].
  destruct (is_space c); simpl length; lia.
Qed.

Lemma strip_length (s : pystr) : (len (strip s) <= len s)%Z.
Proof.
  unfold strip. pose proof (rstrip_length (lstrip s)).
  pose proof (lstrip_length s). lia.
Qed.

Lemma filter_length (p : N -> bool) (s : pystr) :
  (len (List.filter p s) <= len s)%Z.
Proof.
  unfold len. induction s as [| c s IH]; simpl; [lia |].
  destruct (p c); simpl length; lia.
Qed.

(** Sanitised text never starts with white space, whatever the bound. *)
Theorem clean_input_has_no_leading_space (text : pyval) (n : Z) :
  match _clean_input text n with
  | [] => True
  | c :: _ => is_space c = false
  end.
Proof.
  destruct (_clean_input text n) as [| c t] eqn:E; [exact I |].
  destruct text as [[| x s] | b]; try discriminate.
  change (slice_to n (strip (List.filter allowed (x :: s))) = c :: t) in E.
  apply slice_to_head in E. destruct E as [t' E].
  pose proof (strip_head (List.filter allowed (x :: s))) as H.
  rewrite E in H. exact H.
Qed.

Lemma clean_input_twice (s : pystr) (n : Z) :
  (len s <= n)%Z ->
  _clean_input (VStr (_clean_input (VStr s) n)) n = _clean_input (VStr s) n.
Proof.
  intros Hfit. destruct s as [| x s]; [reflexivity |].
  assert (Hsmall : (len (strip (List.filter allowed (x :: s))) <= n)%Z).
  { pose proof (strip_length (List.filter allowed (x :: s))).
    pose proof (filter_length allowed (x :: s)). lia. }
  assert (E : _clean_input (VStr (x :: s)) n
              = strip (List.filter allowed (x :: s)))
    by (apply slice_to_all, Hsmall).
  rewrite E.
  set (r := strip (List.filter allowed (x :: s))) in *.
  assert (Hall : Forall (fun c => allowed c = true) r)
    by apply strip_Forall, filter_Forall_true.
  assert (Hst : strip r = r) by apply strip_strip.
  clearbody r. destruct r as [| y t]; [reflexivity |].
  unfold _clean_input.
  rewrite (filter_fixed _ _ Hall), Hst. apply slice_to_all, Hsmall.
Qed.

(** Sanitising is idempotent on any text no longer than the bound:
    what comes out is allowed, trimmed and short enough, so a second pass
    returns it as it is. *)
Theorem clean_input_idempotent_when_it_fits (s : pystr) (n : Z) :
  (len s <= n)%Z ->
  _clean_input (VStr (_clean_input (VStr s) n)) n = _clean_input (VStr s) n.
Proof. apply clean_input_twice. Qed.

(** ** [_parse_recommendations]: what the items look like *)

Lemma backtrack_inv (k lo : nat) (s : pystr)
      (rest : pystr -> option (list pystr)) (gs : list pystr) :
  backtrack k lo s rest = Some gs ->
  exists k' gs', gs = firstn k' s :: gs' /\ rest (skipn k' s) = Some gs'.
Proof.
  induction k as [| k IH]; simpl.
  - destruct (0 <? lo)%nat; [discriminate |].
    destruct (rest (skipn 0 s)) as [gs' |] eqn:E; [| discriminate].
    intros [= <-]. exists 0%nat, gs'. split; [reflexivity | exact E].
  - destruct (S k <? lo)%nat; [discriminate |].
    destruct (rest (skipn (S k) s)) as [gs' |] eqn:E.
    + intros [= <-]. exists (S k), gs'. split; [reflexivity | exact E].
    + exact IH.
Qed.

(** Every group of a match is a piece of the text matched. *)
Lemma re_match_groups (Q : N -> Prop) (pat : list atom) :
  forall (s : pystr) (gs : list pystr),
    re_match pat s = Some gs -> Forall Q s -> Forall (Forall Q) gs.
Proof.
  induction pat as [| a pat IH]; intros s gs Hm Hs.
  - injection Hm as <-. constructor.
  - simpl in Hm.
    assert (H : exists k' gs', gs = firstn k' s :: gs'
                               /\ re_match pat (skipn k' s) = Some gs')
      by (destruct (quant a); eapply backtrack_inv; exact Hm).
    destruct H as (k' & gs' & -> & Hrest). constructor.
    + apply Forall_take, Hs.
    + eapply IH; [exact Hrest | apply Forall_drop, Hs].
Qed.

Lemma numbered_match_group (Q : N -> Prop) (line g : pystr) :
  numbered_match line = Some g -> Forall Q line -> Forall Q g.
Proof.
  unfold numbered_match. intros Hm Hl.
  destruct (re_match numbered_pattern line) as [gs |] eqn:E; [| discriminate].
  pose proof (re_match_groups Q _ _ _ E Hl) as Hgs.
  destruct gs as [| g1 [| g2 [| g3 [| g4 [| g5 gs]]]]]; try discriminate.
  injection Hm as <-.
  repeat match goal with
         | H : Forall _ (_ :: _) |- _ => inversion H; clear H; subst
         end.
  assumption.
Qed.

Lemma bullet_match_group (Q : N -> Prop) (line g : pystr) :
  bullet_match line = Some g -> Forall Q line -> Forall Q g.
Proof.
  unfold bullet_match. intros Hm Hl.
  destruct (re_match bullet_pattern line) as [gs |] eqn:E; [| discriminate].
  pose proof (re_match_groups Q _ _ _ E Hl) as Hgs.
  destruct gs as [| g1 [| g2 [| g3 [| g4 gs]]]]; try discriminate.
  injection Hm as <-.
  repeat match goal with
         | H : Forall _ (_ :: _) |- _ => inversion H; clear H; subst
         end.
  assumption.
Qed.

Lemma split_on_pieces (sep : N) (s : pystr) :
  Forall (Forall (fun c => c <> sep)) (split_on sep s).
Proof.
  induction s as [| c s IH]; simpl; [repeat constructor |].
  destruct (N.eqb_spec c sep) as [-> | Hne]; [constructor; [constructor | exact IH] |].
  destruct (split_on sep s) as [| p ps]; [repeat constructor; exact Hne |].
  inversion IH as [| ? ? Hp Hps]. constructor; [constructor |]; assumption.
Qed.

Lemma primary_extraction_items (recs : list pystr) (raw : pystr) :
  Forall (fun c => c <> LF) raw ->
  Forall item_ok recs -> Forall item_ok (primary_extraction recs raw).
Proof.
  intros Hraw Hrecs. unfold primary_extraction.
  pose proof (strip_Forall _ raw Hraw) as Hline.
  destruct (strip raw) as [| c line]; [exact Hrecs |].
  set (l := c :: line) in *.
  assert (Hb : Forall item_ok
                 match bullet_match l with
                 | Some g1 =>
                     if (20 <? len (strip g1))%Z then recs ++ [strip g1]
                     else recs
                 | None => recs
                 end).
  { destruct (bullet_match l) as [g1 |] eqn:E; [| exact Hrecs].
    destruct (20 <? len (strip g1))%Z eqn:El; [| exact Hrecs].
    apply Forall_app. split; [exact Hrecs |]. constructor; [| constructor].
    split; [apply Z.ltb_lt, El |].
    apply strip_Forall. eapply bullet_match_group; eauto. }
  destruct (numbered_match l) as [g2 |] eqn:E; [| exact Hb].
  destruct (20 <? len (strip g2))%Z eqn:El; [| exact Hb].
  apply Forall_app. split; [exact Hrecs |]. constructor; [| constructor].
  split; [apply Z.ltb_lt, El |].
  apply strip_Forall. eapply numbered_match_group; eauto.
Qed.

Lemma secondary_extraction_items (lines : list pystr) :
  Forall (Forall (fun c => c <> LF)) lines ->
  forall recs, Forall item_ok recs ->
               Forall item_ok (secondary_extraction lines recs).
Proof.
  induction 1 as [| raw lines Hraw Hlines IH]; intros recs Hrecs;
    cbn [secondary_extraction]; [exact Hrecs |].
  destruct ((25 <? len (strip raw))%Z && (len (strip raw) <? 300)%Z
            && existsb (fun word => contains word (lower (strip raw)))
                       action_words
            && negb (str_mem (strip raw) recs)) eqn:E; [| apply IH, Hrecs].
  assert (Hnew : Forall item_ok (recs ++ [strip raw])).
  { apply Forall_app. split; [exact Hrecs |]. constructor; [| constructor].
    repeat (apply andb_true_iff in E; destruct E as [E ?]).
    apply Z.ltb_lt in E. split; [lia | apply strip_Forall, Hraw]. }
  destruct (8 <=? len (recs ++ [strip raw]))%Z; [exact Hnew | apply IH, Hnew].
Qed.

(** Every recommendation returned is a single line of more than 20
    characters. *)
Theorem parsed_items_are_long_single_lines (text : pystr) :
  Forall (fun x => (20 < len x)%Z /\ Forall (fun c => c <> LF) x)
         (_parse_recommendations text).
Proof.
  change (Forall item_ok (_parse_recommendations text)).
  destruct text as [| c s]; [constructor |].
  unfold _parse_recommendations.
  pose proof (split_on_pieces LF (c :: s)) as Hlines.
  set (lines := split_on LF (c :: s)) in *. clearbody lines.
  assert (Hfirst : forall recs, Forall item_ok recs ->
                                Forall item_ok (fold_left primary_extraction lines recs)).
  { clear -Hlines. induction Hlines as [| raw lines Hraw _ IH]; intros recs Hr;
      simpl; [exact Hr |].
    apply IH, primary_extraction_items; assumption. }
  apply slice_to_Forall.
  destruct (len (fold_left primary_extraction lines []) <? 4)%Z.
  - apply secondary_extraction_items; [exact Hlines |].
    apply Hfirst. constructor.
  - apply Hfirst. constructor.
Qed.

(** ** [_parse_recommendations]: the secondary pass *)

Lemma str_eqb_eq (a b : pystr) : str_eqb a b = true <-> a = b.
Proof.
  revert b. induction a as [| x a IH]; intros [| y b]; simpl;
    try (split; [discriminate | discriminate]); [split; reflexivity |].
  rewrite andb_true_iff, IH, N.eqb_eq. split.
  - intros [-> ->]. reflexivity.
  - intros [= -> ->]. split; reflexivity.
Qed.

Lemma str_mem_In (x : pystr) (xs : list pystr) :
  str_mem x xs = true <-> List.In x xs.
Proof.
  unfold str_mem. rewrite existsb_exists. split.
  - intros (y & Hy & E). apply str_eqb_eq in E. subst y. exact Hy.
  - intros H. exists x. split; [exact H | apply str_eqb_eq; reflexivity].
Qed.

(** The secondary pass only appends; what it appends was not in the
    list and holds no string twice; and from a list of fewer than 8 items
    it stops at 8. *)
Theorem secondary_pass_appends_new_items (lines recs : list pystr) :
  (exists added,
      secondary_extraction lines recs = recs ++ added
      /\ List.NoDup added
      /\ forall x, List.In x added -> ~ List.In x recs)
  /\ ((len recs < 8)%Z -> (len (secondary_extraction lines recs) <= 8)%Z).
Proof.
  split.
  - revert recs. induction lines as [| raw lines IH]; intros recs;
      cbn [secondary_extraction].
    + exists []. rewrite app_nil_r. split; [reflexivity |].
      split; [constructor | intros x []].
    + destruct ((25 <? len (strip raw))%Z && (len (strip raw) <? 300)%Z
                && existsb (fun word => contains word (lower (strip raw)))
                           action_words
                && negb (str_mem (strip raw) recs)) eqn:E; [| apply IH].
      apply andb_true_iff in E. destruct E as [_ Hnew].
      apply negb_true_iff in Hnew.
      assert (Hnot : ~ List.In (strip raw) recs).
      { intros Hin. apply str_mem_In in Hin. congruence. }
      destruct (8 <=? len (recs ++ [strip raw]))%Z.
      * exists [strip raw]. split; [reflexivity |].
        split; [repeat constructor; intros [] |].
        intros x [<- | []]. exact Hnot.
      * destruct (IH (recs ++ [strip raw])) as (added & -> & Hnd & Hdis).
        exists (strip raw :: added). rewrite <- app_assoc.
        split; [reflexivity |]. split.
        -- constructor; [| exact Hnd].
           intros Hin. apply (Hdis _ Hin), in_or_app. right. left. reflexivity.
        -- intros x [<- | Hin]; [exact Hnot |].
           intros Hr. apply (Hdis _ Hin), in_or_app. left. exact Hr.
  - revert recs. induction lines as [| raw lines IH]; intros recs Hlen;
      cbn [secondary_extraction]; [lia |].
    destruct ((25 <? len (strip raw))%Z && (len (strip raw) <? 300)%Z
              && existsb (fun word => contains word (lower (strip raw)))
                         action_words
              && negb (str_mem (strip raw) recs)); [| apply IH, Hlen].
    destruct (Z.leb_spec 8 (len (recs ++ [strip raw]))) as [Hge | Hlt].
    + unfold len in *. rewrite length_app in *. simpl in *. lia.
    + apply IH. lia.
Qed.

(** ** [execute_complete_analysis]: the target list *)

Lemma clean_input_length (text : pyval) (n : Z) :
  (0 <= n)%Z -> (len (_clean_input text n) <= n)%Z.
Proof.
  intros Hn. destruct text as [[| c s] | b]; simpl; try (unfold len; simpl; lia).
  apply slice_to_length, Hn.
Qed.

Lemma slice_to_shrinks {A} (n : Z) (s : list A) :
  (len (slice_to n s) <= len s)%Z.
Proof.
  unfold slice_to, len.
  destruct (0 <=? n)%Z; rewrite length_firstn; lia.
Qed.

Lemma clean_input_shrinks (s : pystr) (n : Z) :
  (len (_clean_input (VStr s) n) <= len s)%Z.
Proof.
  destruct s as [| c s]; [simpl; lia |].
  unfold _clean_input.
  pose proof (slice_to_shrinks n (strip (List.filter allowed (c :: s)))).
  pose proof (strip_length (List.filter allowed (c :: s))).
  pose proof (filter_length allowed (c :: s)). lia.
Qed.

Lemma clean_input_allowed (text : pyval) (n : Z) :
  Forall (fun c => allowed c = true) (_clean_input text n).
Proof.
  destruct text as [[| c s] | b]; simpl; try constructor.
  apply slice_to_Forall, strip_Forall, (filter_Forall_true allowed (c :: s)).
Qed.

(** The targets taken from the comma-separated input: at most 8, each of
    3 to 100 allowed characters; a blank input gives none. *)
Theorem process_targets_bounds (targets_input : pystr) :
  (len (process_targets targets_input) <= 8)%Z
  /\ Forall (fun t => (3 <= len t <= 100)%Z
                      /\ Forall (fun c => allowed c = true) t)
            (process_targets targets_input)
  /\ (strip targets_input = [] -> process_targets targets_input = []).
Proof.
  unfold process_targets. split; [| split].
  - destruct (negb (is_empty targets_input)
              && negb (is_empty (strip targets_input)));
      [| unfold len; simpl; lia].
    set (raw := List.map strip (split_on 44 targets_input)).
    pose proof (slice_to_length 8 raw) as H8.
    set (kept := slice_to 8 raw) in *.
    assert (Hf : forall (A : Type) (p : A -> bool) (l : list A),
               (List.length (List.filter p l) <= List.length l)%nat).
    { intros A p l. induction l as [| x l IH]; simpl; [lia |].
      destruct (p x); simpl; lia. }
    unfold len in *.
    pose proof (Hf _ (fun t => (2 <? Z.of_nat (List.length t))%Z)
                  (List.map (fun t => _clean_input (VStr t) 100)
                     (List.filter (fun t => negb (is_empty (strip t))) kept))).
    pose proof (Hf _ (fun t => negb (is_empty (strip t))) kept).
    rewrite length_map in *. lia.
  - destruct (negb (is_empty targets_input)
              && negb (is_empty (strip targets_input))); [| constructor].
    apply List.Forall_forall. intros t Ht.
    apply filter_In in Ht. destruct Ht as [Ht Hlen].
    apply in_map_iff in Ht. destruct Ht as (u & <- & _).
    apply Z.ltb_lt in Hlen. split.
    + pose proof (clean_input_length (VStr u) 100). lia.
    + apply clean_input_allowed.
  - intros Hblank. rewrite Hblank. simpl. rewrite andb_false_r. reflexivity.
Qed.

(** ** From the executor to the agents *)

(** Everything a single call guarantees, in one place. *)
Lemma execute_behaviour (messages : list nat) (mt : Z) (ctx : pystr)
      (st : state R) :
  exists text st' evs,
    _execute_groq_call messages mt ctx st = (Ok text, st')
    /\ trace st' = trace st ++ evs
    /\ (List.length (dispatched_requests evs)
        <= 3 * List.length (primary_model st :: fallback_models st))%nat
    /\ primary_model st' = primary_model st
    /\ fallback_models st' = fallback_models st
    /\ next_loc st' = next_loc st
    /\ response_cache st ⊆ response_cache st'
    /\ (forall l, head messages <> Some l -> heap st' !! l = heap st !! l).
Proof.
  assert (Hsame : forall text : pystr,
             _execute_groq_call messages mt ctx st = (Ok text, st) ->
             exists text st' evs,
               _execute_groq_call messages mt ctx st = (Ok text, st')
               /\ trace st' = trace st ++ evs
               /\ (List.length (dispatched_requests evs)
                   <= 3 * List.length (primary_model st :: fallback_models st))%nat
               /\ primary_model st' = primary_model st
               /\ fallback_models st' = fallback_models st
               /\ next_loc st' = next_loc st
               /\ response_cache st ⊆ response_cache st'
               /\ (forall l, head messages <> Some l ->
                             heap st' !! l = heap st !! l)).
  { intros text E. exists text, st, [].
    repeat apply conj;
      [exact E | symmetry; apply app_nil_r | simpl; lia | reflexivity
       | reflexivity | reflexivity | reflexivity | reflexivity]. }
  destruct messages as [| first rest]; [eapply Hsame, execute_no_input |].
  destruct (response_cache st !! fingerprint (view st (first :: rest)))
    as [r |] eqn:E.
  { eapply Hsame, execute_hit; [discriminate | exact E]. }
  clear Hsame.
  destruct (execute_miss first rest mt ctx st E) as (o & st1 & Etry & Hrun & Ho).
  destruct (models_log (fingerprint (view st (first :: rest))) (first :: rest)
              mt (primary_model st :: fallback_models st) 0%Z
              (enhanced first st) (Z.le_refl 0))
    as (o' & st2 & evs & E2 & H2 & T2 & _ & L2 & _).
  unfold try_models, enumerate in Etry. rewrite E2 in Etry.
  injection Etry as <- <-.
  assert (H : next_loc st2 = next_loc st
              /\ primary_model st2 = primary_model st
              /\ fallback_models st2 = fallback_models st
              /\ response_cache st ⊆ response_cache st2).
  { destruct o' as [v |].
    - destruct Ho as (_ & H3 & H4 & H5 & Hc & _).
      repeat split; try assumption. rewrite Hc. apply insert_subseteq, E.
    - destruct Ho as (_ & H3 & H4 & H5 & Hc & _).
      repeat split; try assumption. rewrite Hc. reflexivity. }
  destruct H as (Hn & Hp & Hf & Hc).
  eexists _, st2, evs. split; [exact Hrun |].
  repeat apply conj; try assumption.
  intros l Hl. rewrite H2. unfold enhanced. simpl.
  apply lookup_alter_ne. intros ->. apply Hl. reflexivity.
Qed.

Lemma wb_ret {A} (n : nat) (Q : A -> Prop) (a : A) :
  Q a -> well_behaved n Q (ret a).
Proof.
  intros Ha st. exists a, st, [].
  repeat apply conj;
    [reflexivity | exact Ha | symmetry; apply app_nil_r | simpl; lia
     | reflexivity | reflexivity | reflexivity | tauto | lia | reflexivity].
Qed.

Lemma wb_bind {A B} (n m : nat) (P : A -> Prop) (Q : B -> Prop)
      (c : M A) (k : A -> M B) :
  well_behaved n P c ->
  (forall a, P a -> well_behaved m Q (k a)) ->
  well_behaved (n + m) Q (bind c k).
Proof.
  intros Hc Hk st.
  destruct (Hc st) as (a & st1 & evs1 & E1 & Pa & T1 & D1 & M1 & F1 & C1
                       & R1 & N1 & H1).
  destruct (Hk a Pa st1) as (b & st2 & evs2 & E2 & Qb & T2 & D2 & M2 & F2
                             & C2 & R2 & N2 & H2).
  exists b, st2, (evs1 ++ evs2).
  repeat apply conj.
  - unfold bind. rewrite E1. exact E2.
  - exact Qb.
  - rewrite T2, T1, app_assoc. reflexivity.
  - rewrite dispatched_requests_app, length_app.
    rewrite M1, F1 in D2. simpl in *. nia.
  - congruence.
  - congruence.
  - etrans; eassumption.
  - tauto.
  - lia.
  - intros l Hl. rewrite H2 by lia. apply H1, Hl.
Qed.

Lemma wb_weaken {A} (n n' : nat) (P Q : A -> Prop) (c : M A) :
  (n <= n')%nat -> (forall a, P a -> Q a) ->
  well_behaved n P c -> well_behaved n' Q c.
Proof.
  intros Hn HPQ Hc st.
  destruct (Hc st) as (a & st1 & evs1 & E1 & Pa & T1 & D1 & Rest).
  exists a, st1, evs1. split; [exact E1 |]. split; [apply HPQ, Pa |].
  split; [exact T1 |]. split; [| exact Rest]. simpl in *. nia.
Qed.

Lemma wb_try_catch {A} (n : nat) (Q : A -> Prop) (body : M A)
      (handler : exn -> M A) :
  well_behaved n Q body -> well_behaved n Q (try_catch body handler).
Proof.
  intros Hb st. destruct (Hb st) as (a & st1 & evs1 & E1 & Rest).
  exists a, st1, evs1. split; [| exact Rest].
  unfold try_catch. rewrite E1. reflexivity.
Qed.

Lemma wb_sleep (seconds : Z) : well_behaved 0 (fun _ => True) (sleep seconds).
Proof.
  intros st. exists tt, (add_event (Sleep seconds) st), [Sleep seconds].
  repeat apply conj;
    [reflexivity | exact I | reflexivity | simpl; lia | reflexivity
     | reflexivity | reflexivity | apply reach_sleep | simpl; lia
     | reflexivity].
Qed.

Lemma wb_get_trace : well_behaved 0 (fun _ => True) get_trace.
Proof.
  intros st. exists (trace st), st, [].
  repeat apply conj;
    [reflexivity | exact I | symmetry; apply app_nil_r | simpl; lia
     | reflexivity | reflexivity | reflexivity | tauto | lia | reflexivity].
Qed.

Lemma ask_unfold (sp up : pystr) (mt : Z) (ctx : pystr) (st : state R) :
  ask sp up mt ctx st
  = _execute_groq_call [next_loc st; S (next_loc st)] mt ctx
                       (with_two_messages sp up st).
Proof. reflexivity. Qed.

Lemma view_two_messages (sp up : pystr) (st : state R) :
  view (with_two_messages sp up st) [next_loc st; S (next_loc st)]
  = [ {| role := lit "system"; content := sp |};
      {| role := lit "user"; content := up |} ].
Proof.
  unfold view, with_two_messages, deref. simpl.
  rewrite lookup_insert_ne by lia.
  rewrite !lookup_insert_eq. reflexivity.
Qed.

Lemma wb_ask (sp up : pystr) (mt : Z) (ctx : pystr) :
  well_behaved 1 (fun _ => True) (ask sp up mt ctx).
Proof.
  intros st. rewrite ask_unfold.
  destruct (execute_behaviour [next_loc st; S (next_loc st)] mt ctx
              (with_two_messages sp up st))
    as (text & st' & evs & E & T & D & Mp & Mf & Nl & C & Hh).
  exists text, st', evs.
  repeat apply conj; try assumption; try exact I.
  - simpl in *. lia.
  - intros Hr. eapply reach_call; [| exact E].
    unfold with_two_messages. apply reach_heap, reach_heap, Hr.
  - rewrite Nl. simpl. lia.
  - intros l Hl. rewrite Hh by (simpl; intros [= Heq]; lia).
    unfold with_two_messages. simpl.
    rewrite !lookup_insert_ne by lia. reflexivity.
Qed.

Lemma wb_market (q : pystr) (t : list pystr) :
  well_behaved 1 (fun _ => True) (market_intelligence_agent q t).
Proof.
  unfold market_intelligence_agent.
  destruct (len (_clean_input_default (VStr q)) <? 5)%Z;
    [apply wb_ret; exact I | apply wb_ask].
Qed.

Lemma wb_competitive (q : pystr) (t : list pystr) :
  well_behaved 1 (fun _ => True) (competitive_intelligence_agent q t).
Proof.
  unfold competitive_intelligence_agent.
  destruct (len (_clean_input_default (VStr q)) <? 5)%Z;
    [apply wb_ret; exact I | apply wb_ask].
Qed.

Lemma wb_risk (q c : pystr) :
  well_behaved 1 (fun _ => True) (risk_assessment_agent q c).
Proof.
  unfold risk_assessment_agent.
  destruct (len (_clean_input_default (VStr q)) <? 5)%Z;
    [apply wb_ret; exact I | apply wb_ask].
Qed.

Lemma wb_advisor (q : pystr) (a : list (pystr * pystr)) :
  well_behaved 2 (fun out => (len (fst out) <= 8)%Z)
               (strategic_advisor_agent q a).
Proof.
  unfold strategic_advisor_agent.
  destruct (len (_clean_input_default (VStr q)) <? 5)%Z;
    [apply wb_ret; unfold len; simpl; lia |].
  cbv zeta.
  match goal with
  | |- well_behaved _ _ (bind (new_message _ ?sp) (fun m_system =>
         bind (new_message _ ?up) (fun m_user =>
           bind (_execute_groq_call [m_system; m_user] ?mt ?ctx) ?k))) =>
      change (well_behaved 2 (fun out : list pystr * pystr => (len (fst out) <= 8)%Z)
                (bind (ask sp up mt ctx) k))
  end.
  eapply (wb_bind 1 1); [apply wb_ask |]. intros text _.
  match goal with
  | |- well_behaved _ _ (bind (new_message _ ?sp) (fun s_system =>
         bind (new_message _ ?up) (fun s_user =>
           bind (_execute_groq_call [s_system; s_user] ?mt ?ctx) ?k))) =>
      change (well_behaved 1 (fun out : list pystr * pystr => (len (fst out) <= 8)%Z)
                (bind (ask sp up mt ctx) k))
  end.
  eapply (wb_bind 1 0); [apply wb_ask |]. intros summary _.
  apply wb_ret. simpl. apply parse_recommendations_at_most_8.
Qed.


(** ** [execute_complete_analysis] as a whole *)

Lemma quality_score_bounds (report : BusinessReport) :
  (0 <= _calculate_quality_score report <= 1)%Q.
Proof.
  unfold _calculate_quality_score, quality_score_body.
  destruct (completeness_score (completion_status report)) as [c | e] eqn:E.
  - apply py_min_range.
    apply completeness_score_range in E.
    pose proof (content_quality_range report) as Hq.
    pose proof (performance_score_range (processing_duration report)) as Hp.
    destruct E as [E1 E2], Hq as [Hq1 Hq2], Hp as [Hp1 Hp2].
    set (cq := content_quality report) in *.
    set (ps := performance_score (processing_duration report)) in *.
    clearbody cq ps. lra.
  - split; discriminate.
Qed.

Lemma section_names_set (b1 b2 b3 b4 b5 : bool) :
  List.map fst
    (dict_set (lit "executive") b5
       (dict_set (lit "recommendations") b4
          (dict_set (lit "risk") b3
             (dict_set (lit "competitive") b2
                (dict_set (lit "market") b1 [])))))
  = section_names.
Proof. reflexivity. Qed.

Lemma report_facts (r0 : BusinessReport) (market competitive risk : pystr)
      (actions : list pystr) (briefing : pystr) (duration : Q)
      (status : list (pystr * bool)) :
  List.map fst status = section_names ->
  (len actions <= 8)%Z ->
  let r := set_results r0 market competitive risk actions briefing duration
                       status in
  analysis_outcome
    (_create_business_report (set_analysis_quality (_calculate_quality_score r) r),
     status_message (set_analysis_quality (_calculate_quality_score r) r)).
Proof.
  intros Hkeys Hlen r. right.
  exists (set_analysis_quality (_calculate_quality_score r) r).
  split; [reflexivity |]. split; [exact Hkeys |]. split.
  - simpl. unfold completeness_score.
    destruct status as [| kv status]; [discriminate |].
    simpl. eexists. reflexivity.
  - split; [reflexivity |]. split; [apply quality_score_bounds | exact Hlen].
Qed.

Lemma wb_analysis (q t : pystr) :
  well_behaved 5 analysis_outcome (execute_complete_analysis q t).
Proof.
  unfold execute_complete_analysis.
  eapply (wb_bind 0 5); [apply wb_get_trace |]. intros start _.
  apply wb_try_catch.
  destruct (is_empty q || (len (strip q) <? 10)%Z);
    [apply wb_ret; left; reflexivity |].
  cbv zeta.
  eapply (wb_bind 1 4); [apply wb_market |]. intros market _.
  eapply (wb_bind 0 4); [apply wb_sleep |]. intros _ _.
  eapply (wb_bind 1 3); [apply wb_competitive |]. intros competitive _.
  eapply (wb_bind 0 3); [apply wb_sleep |]. intros _ _.
  eapply (wb_bind 1 2); [apply wb_risk |]. intros risk _.
  eapply (wb_bind 0 2); [apply wb_sleep |]. intros _ _.
  eapply (wb_bind 2 0); [apply wb_advisor |]. intros advice Hadvice.
  eapply (wb_bind 0 0); [apply wb_get_trace |]. intros finish _.
  apply wb_ret. apply report_facts; [apply section_names_set | exact Hadvice].
Qed.

(** The orchestrator never raises and never needs its own error page:
    it returns the validation pair, or the rendering of a report whose
    status dict holds exactly the five sections in order, whose quality
    field is the computed score (not the 0.75 default, since the dict is
    not empty), between 0 and 1, with at most 8 strategic actions. *)
Theorem analysis_always_returns_a_report (q t : pystr) (st : state R) :
  exists out st',
    execute_complete_analysis q t st = (Ok out, st')
    /\ analysis_outcome out.
Proof.
  destruct (wb_analysis q t st) as (out & st' & evs & E & Hout & _).
  exists out, st'. split; assumption.
Qed.


Lemma reachable_cache_ok (st : state R) :
  reachable st ->
  map_Forall (fun _ v => (150 < len v)%Z) (response_cache st).
Proof.
  induction 1 as [api_key h n r st Hinit | st h n _ IH | st seconds _ IH
                 | st messages mt ctx res st' _ IH Hrun].
  - unfold __init__ in Hinit.
    destruct (is_empty api_key || (len api_key <? 15)%Z); [discriminate |].
    injection Hinit as <-. simpl. apply map_Forall_empty.
  - exact IH.
  - exact IH.
  - destruct (execute_cache_effect _ _ _ _ _ _ Hrun)
      as [-> | (k & v & _ & _ & _ & _ & -> & Hv & _)]; [exact IH |].
    apply map_Forall_insert_2; assumption.
Qed.

(** A whole analysis keeps what the executor keeps: no cache entry is
    removed or replaced, a reachable state stays reachable, so every
    cached value is still longer than 150 characters, and no dict object
    that existed before the analysis is changed. *)
Theorem analysis_keeps_cache_and_objects (q t : pystr) (st : state R) :
  let st' := snd (execute_complete_analysis q t st) in
  response_cache st ⊆ response_cache st'
  /\ (reachable st ->
      reachable st'
      /\ map_Forall (fun _ v => (150 < len v)%Z) (response_cache st'))
  /\ (forall l, (l < next_loc st)%nat -> heap st' !! l = heap st !! l).
Proof.
  intros st'. subst st'.
  destruct (wb_analysis q t st)
    as (out & st' & evs & E & _ & _ & _ & _ & _ & C & Hr & _ & Hh).
  rewrite E. simpl snd. split; [exact C |]. split; [| exact Hh].
  intros Hreach. split; [apply Hr, Hreach | apply reachable_cache_ok, Hr, Hreach].
Qed.

(** A query that passes the length check but is sanitised to fewer than
    5 characters reaches no remote call: every agent answers with its
    "insufficient" sentence, the orchestrator still sleeps three times,
    and the report has no strategic action and no complete section. *)
Theorem unusable_query_dispatches_nothing (q t : pystr) (st : state R) :
  (10 <= len (strip q))%Z ->
  (len (_clean_input_default (VStr q)) < 5)%Z ->
  exists report,
    execute_complete_analysis q t st
    = (Ok (_create_business_report report, status_message report),
       add_event (Sleep 3) (add_event (Sleep 3) (add_event (Sleep 3) st)))
    /\ completion_status report
       = List.map (fun name => (name, false)) section_names
    /\ strategic_actions report = []
    /\ market_intelligence report
       = lit "Insufficient query detail for market intelligence analysis."
    /\ executive_briefing report
       = lit "Insufficient query detail for strategic advisory.".
Proof.
  intros Hlong Hshort.
  assert (Hq : is_empty q || (len (strip q) <? 10)%Z = false).
  { apply orb_false_iff. split.
    - destruct q; [unfold len in Hlong; simpl in Hlong; lia | reflexivity].
    - apply Z.ltb_ge, Hlong. }
  pose proof (clean_input_shrinks (_clean_input_default (VStr q)) 4000)
    as Hagain.
  fold (_clean_input_default (VStr (_clean_input_default (VStr q)))) in Hagain.
  assert (Hshort' : (len (_clean_input_default
                            (VStr (_clean_input_default (VStr q)))) <? 5)%Z
                    = true) by (apply Z.ltb_lt; lia).
  unfold execute_complete_analysis, market_intelligence_agent,
    competitive_intelligence_agent, risk_assessment_agent,
    strategic_advisor_agent.
  unfold bind at 1. unfold get_trace at 1. unfold try_catch.
  rewrite Hq. cbv zeta. rewrite Hshort'.
  eexists. split; [reflexivity |].
  repeat split; vm_compute; reflexivity.
Qed.

(** ** [production_analysis_handler] *)

(** The handler never raises and never shows its error page.  Below 8
    trimmed characters it answers with its own validation page; from 8 to
    9 it is the orchestrator's page that comes back; either way nothing
    changes in the state, so nothing is dispatched: the working minimum
    is 10 characters. *)
Theorem handler_validates_twice (q t : pystr) (st : state R) :
  (exists out st',
      production_analysis_handler q t st = (Ok out, st')
      /\ (out = (handler_validation_report, handler_validation_status)
          \/ analysis_outcome out))
  /\ ((len (strip q) < 8)%Z ->
      production_analysis_handler q t st
      = (Ok (handler_validation_report, handler_validation_status), st))
  /\ ((8 <= len (strip q) < 10)%Z ->
      production_analysis_handler q t st
      = (Ok (validation_report, validation_status), st)).
Proof.
  unfold production_analysis_handler, try_catch. repeat split.
  - destruct (is_empty q || (len (strip q) <? 8)%Z).
    + eexists _, _. split; [reflexivity | left; reflexivity].
    + destruct (wb_analysis q t st) as (out & st' & evs & E & Hout & _).
      rewrite E. exists out, st'. split; [reflexivity | right; exact Hout].
  - intros H. apply Z.ltb_lt in H. rewrite H, orb_true_r. reflexivity.
  - intros [H8 H10].
    assert (E8 : is_empty q || (len (strip q) <? 8)%Z = false).
    { apply orb_false_iff. split.
      - destruct q; [unfold len in H8; simpl in H8; lia | reflexivity].
      - apply Z.ltb_ge, H8. }
    rewrite E8.
    unfold execute_complete_analysis, bind, get_trace, try_catch.
    apply Z.ltb_lt in H10. rewrite H10, orb_true_r. reflexivity.
Qed.

(** ** Agents and the cache *)

Lemma ask_cached_again (sp up : pystr) (mt mt2 : Z) (ctx ctx2 : pystr)
      (st st1 st2 : state R) (res : result pystr) :
  ask sp up mt ctx st = (res, st1) ->
  response_cache st1 <> response_cache st ->
  response_cache st1 ⊆ response_cache st2 ->
  ask sp up mt2 ctx2 st2 = (res, with_two_messages sp up st2).
Proof.
  intros Hrun Hchanged Hkept. rewrite ask_unfold in *.
  set (k := fingerprint [ {| role := lit "system"; content := sp |};
                          {| role := lit "user"; content := up |} ]).
  assert (Hk : forall s : state R,
             fingerprint (view (with_two_messages sp up s)
                               [next_loc s; S (next_loc s)]) = k)
    by (intros s; rewrite view_two_messages; reflexivity).
  destruct (response_cache (with_two_messages sp up st) !! k) as [r |] eqn:E.
  { rewrite (execute_hit _ mt ctx _ r) in Hrun
      by (discriminate || (rewrite Hk; exact E)).
    injection Hrun as <- <-. exfalso. apply Hchanged. reflexivity. }
  rewrite <- (Hk st) in E.
  destruct (execute_miss _ _ mt ctx _ E) as (o & st' & _ & Hrun' & Ho).
  rewrite Hrun' in Hrun. injection Hrun as <- <-.
  destruct o as [v |].
  - destruct Ho as (_ & _ & _ & _ & Hc & _).
    apply execute_hit; [discriminate |].
    rewrite Hk. eapply lookup_weaken; [| exact Hkept].
    rewrite Hc, Hk. apply lookup_insert_eq.
  - destruct Ho as (_ & _ & _ & _ & Hc & _).
    exfalso. apply Hchanged. exact Hc.
Qed.

Lemma guarded_ask_cached_again (b : bool) (x sp up : pystr) (mt : Z)
      (ctx : pystr) (st st1 st2 : state R) (res : result pystr) :
  (if b then ret x else ask sp up mt ctx) st = (res, st1) ->
  response_cache st1 <> response_cache st ->
  response_cache st1 ⊆ response_cache st2 ->
  exists st2',
    (if b then ret x else ask sp up mt ctx) st2 = (res, st2')
    /\ trace st2' = trace st2
    /\ service st2' = service st2
    /\ response_cache st2' = response_cache st2.
Proof.
  intros Hrun Hchanged Hkept. destruct b.
  - injection Hrun as <- <-. exfalso. apply Hchanged. reflexivity.
  - exists (with_two_messages sp up st2).
    split; [eapply ask_cached_again; eauto | repeat split].
Qed.

(** Once a market, competitive or risk agent has stored an accepted
    answer, the same request made again, in any later state that still
    has the cache entries, gets the same answer without a dispatch: the
    agent builds its messages afresh, so their content is what was
    fingerprinted. *)
Theorem repeated_agent_request_is_served_from_cache
        (q c : pystr) (t : list pystr) (st st1 st2 : state R)
        (res : result pystr) :
  response_cache st1 <> response_cache st ->
  response_cache st1 ⊆ response_cache st2 ->
  (market_intelligence_agent q t st = (res, st1) ->
   exists st2', market_intelligence_agent q t st2 = (res, st2')
                /\ trace st2' = trace st2
                /\ service st2' = service st2
                /\ response_cache st2' = response_cache st2)
  /\ (competitive_intelligence_agent q t st = (res, st1) ->
      exists st2', competitive_intelligence_agent q t st2 = (res, st2')
                   /\ trace st2' = trace st2
                   /\ service st2' = service st2
                   /\ response_cache st2' = response_cache st2)
  /\ (risk_assessment_agent q c st = (res, st1) ->
      exists st2', risk_assessment_agent q c st2 = (res, st2')
                   /\ trace st2' = trace st2
                   /\ service st2' = service st2
                   /\ response_cache st2' = response_cache st2).
Proof.
  intros Hchanged Hkept.
  unfold market_intelligence_agent, competitive_intelligence_agent,
    risk_assessment_agent.
  repeat split; intros Hrun;
    eapply guarded_ask_cached_again; eauto.
Qed.

(** ** What the cache holds, continued *)

Lemma accepted_content_trimmed (resp : response) (v : pystr) :
  accepted_content resp = Some v -> strip v = v.
Proof.
  unfold accepted_content.
  destruct (choices resp) as [| c cs]; [discriminate |].
  destruct (message_content c) as [[| x text] |]; try discriminate.
  destruct (150 <? len (strip (x :: text)))%Z; [| discriminate].
  intros [= <-]. apply strip_strip.
Qed.

(** Every cached value is trimmed: it neither starts nor ends with
    white space. *)
Theorem cached_values_are_trimmed (st : state R) :
  reachable st ->
  map_Forall (fun _ v => strip v = v) (response_cache st).
Proof.
  induction 1 as [api_key h n r st Hinit | st h n _ IH | st seconds _ IH
                 | st messages mt ctx res st' _ IH Hrun].
  - unfold __init__ in Hinit.
    destruct (is_empty api_key || (len api_key <? 15)%Z); [discriminate |].
    injection Hinit as <-. simpl. apply map_Forall_empty.
  - exact IH.
  - exact IH.
  - destruct (execute_cache_effect _ _ _ _ _ _ Hrun)
      as [-> | (k & v & _ & _ & resp & _ & -> & _ & _ & Hacc)]; [exact IH |].
    apply map_Forall_insert_2; [| exact IH].
    eapply accepted_content_trimmed, Hacc.
Qed.

(** ** A complete outage *)

Lemma total_rate_limit_waits (models : list pystr) :
  forall i,
    total (flat_map (fun im : Z * pystr => rate_limit_waits (fst im))
                    (enumerate_from i models))
    = wait_budget i (List.length models).
Proof.
  induction models as [| m models IH]; intros i;
    cbn [enumerate_from flat_map fst length wait_budget]; [reflexivity |].
  rewrite total_app, IH. unfold rate_limit_waits, range3. simpl. lia.
Qed.

Lemma dispatched_requests_models (evs : list event) :
  List.length (dispatched_requests evs) = List.length (dispatched_models evs).
Proof.
  induction evs as [| [req out | w] evs IH]; simpl; [reflexivity | | exact IH].
  rewrite IH. reflexivity.
Qed.

Lemma outage_ret {A} (Q : A -> Prop) (a : A) : Q a -> outage 0 0 Q (ret a).
Proof.
  intros Ha st Hc. exists a, st, [].
  repeat apply conj;
    [reflexivity | exact Ha | exact Hc | reflexivity | reflexivity
     | symmetry; apply app_nil_r | reflexivity | simpl; lia].
Qed.

Lemma outage_bind {A B} (n m : nat) (x y : Z) (P : A -> Prop) (Q : B -> Prop)
      (c : M A) (k : A -> M B) :
  outage n x P c -> (forall a, P a -> outage m y Q (k a)) ->
  outage (n + m) (x + y) Q (bind c k).
Proof.
  intros Hc Hk st Hempty.
  destruct (Hc st Hempty)
    as (a & st1 & evs1 & E1 & Pa & C1 & P1 & F1 & T1 & D1 & W1).
  destruct (Hk a Pa st1 C1)
    as (b & st2 & evs2 & E2 & Qb & C2 & P2 & F2 & T2 & D2 & W2).
  exists b, st2, (evs1 ++ evs2).
  repeat apply conj.
  - unfold bind. rewrite E1. exact E2.
  - exact Qb.
  - exact C2.
  - congruence.
  - congruence.
  - rewrite T2, T1, app_assoc. reflexivity.
  - rewrite dispatched_requests_app, length_app, D1, D2, P1, F1. simpl. lia.
  - rewrite sleeps_app, total_app, W1, W2, P1, F1. simpl length. lia.
Qed.

Lemma outage_try_catch {A} (n : nat) (x : Z) (Q : A -> Prop) (body : M A)
      (handler : exn -> M A) :
  outage n x Q body -> outage n x Q (try_catch body handler).
Proof.
  intros Hb st Hempty. destruct (Hb st Hempty) as (a & st1 & evs & E & Rest).
  exists a, st1, evs. split; [| exact Rest].
  unfold try_catch. rewrite E. reflexivity.
Qed.

Lemma outage_sleep (seconds : Z) :
  outage 0 seconds (fun _ => True) (sleep seconds).
Proof.
  intros st Hc. exists tt, (add_event (Sleep seconds) st), [Sleep seconds].
  repeat apply conj;
    [reflexivity | exact I | exact Hc | reflexivity | reflexivity
     | reflexivity | reflexivity | simpl; lia].
Qed.

Lemma outage_get_trace : outage 0 0 (fun _ => True) get_trace.
Proof.
  intros st Hc. exists (trace st), st, [].
  repeat apply conj;
    [reflexivity | exact I | exact Hc | reflexivity | reflexivity
     | symmetry; apply app_nil_r | reflexivity | simpl; lia].
Qed.

Lemma outage_ask (sp up : pystr) (mt : Z) (ctx : pystr) :
  rate_limited_service ->
  outage 1 0 (fun text => text = fallback_text ctx) (ask sp up mt ctx).
Proof.
  intros Hrl st Hempty. rewrite ask_unfold.
  set (st0 := with_two_messages sp up st).
  set (l := next_loc st).
  assert (Hmiss : response_cache st0 !! fingerprint (view st0 [l; S l]) = None).
  { change (response_cache st0) with (response_cache st).
    rewrite Hempty. apply lookup_empty. }
  destruct (models_rate_limited (fingerprint (view st0 [l; S l])) [l; S l] mt
              (primary_model st0 :: fallback_models st0) Hrl 0%Z
              (enhanced l st0))
    as (st' & evs & E & L & Hm & _ & Hs).
  destruct (execute_miss l [S l] mt ctx st0 Hmiss)
    as (o & st'' & Etry & Hrun & _).
  unfold try_models, enumerate in Etry. rewrite E in Etry.
  injection Etry as <- <-.
  destruct L as (_ & _ & Lp & Lf & Lc & Lt).
  exists (fallback_text ctx), st', evs.
  repeat apply conj.
  - exact Hrun.
  - reflexivity.
  - rewrite Lc. exact Hempty.
  - exact Lp.
  - exact Lf.
  - exact Lt.
  - rewrite dispatched_requests_models, Hm.
    rewrite (flat_map_length_const _ 3%nat) by reflexivity.
    change (primary_model st0) with (primary_model st).
    change (fallback_models st0) with (fallback_models st). lia.
  - rewrite Hs, total_rate_limit_waits.
    change (primary_model st0) with (primary_model st).
    change (fallback_models st0) with (fallback_models st). lia.
Qed.

Lemma outage_advisor (q : pystr) (a : list (pystr * pystr)) :
  rate_limited_service ->
  (len (_clean_input_default (VStr q)) <? 5)%Z = false ->
  outage 2 0
         (fun out => out = (fallback_bullets,
                            fallback_text (lit "executive_summary")))
         (strategic_advisor_agent q a).
Proof.
  intros Hrl Hlen. unfold strategic_advisor_agent. rewrite Hlen. cbv zeta.
  match goal with
  | |- outage _ _ ?Q (bind (new_message _ ?sp) (fun m_system =>
         bind (new_message _ ?up) (fun m_user =>
           bind (_execute_groq_call [m_system; m_user] ?mt ?ctx) ?k))) =>
      change (outage 2 0 Q (bind (ask sp up mt ctx) k))
  end.
  eapply (outage_bind 1 1 0 0); [apply outage_ask, Hrl |]. intros text ->.
  assert (Hparse : _parse_recommendations
                     (fallback_text (lit "strategic_recommendations"))
                   = fallback_bullets) by (vm_compute; reflexivity).
  rewrite Hparse.
  match goal with
  | |- outage _ _ ?Q (bind (new_message _ ?sp) (fun s_system =>
         bind (new_message _ ?up) (fun s_user =>
           bind (_execute_groq_call [s_system; s_user] ?mt ?ctx) ?k))) =>
      change (outage 1 0 Q (bind (ask sp up mt ctx) k))
  end.
  eapply (outage_bind 1 0 0 0); [apply outage_ask, Hrl |]. intros summary ->.
  apply outage_ret. reflexivity.
Qed.

Lemma outage_analysis (q t : pystr) :
  rate_limited_service ->
  (10 <= len (strip q))%Z ->
  (len (_clean_input_default (VStr (_clean_input_default (VStr q)))) <? 5)%Z
  = false ->
  outage 5 9
         (fun out => exists report,
              out = (_create_business_report report, status_message report)
              /\ outage_report report)
         (execute_complete_analysis q t).
Proof.
  intros Hrl Hlong Hlen.
  assert (Hq : is_empty q || (len (strip q) <? 10)%Z = false).
  { apply orb_false_iff. split.
    - destruct q; [unfold len in Hlong; simpl in Hlong; lia | reflexivity].
    - apply Z.ltb_ge, Hlong. }
  unfold execute_complete_analysis.
  eapply (outage_bind 0 5 0 9); [apply outage_get_trace |]. intros start _.
  apply outage_try_catch. rewrite Hq. cbv zeta.
  eapply (outage_bind 1 4 0 9).
  { unfold market_intelligence_agent. rewrite Hlen. apply outage_ask, Hrl. }
  intros market ->.
  eapply (outage_bind 0 4 3 6); [apply outage_sleep |]. intros _ _.
  eapply (outage_bind 1 3 0 6).
  { unfold competitive_intelligence_agent. rewrite Hlen.
    apply outage_ask, Hrl. }
  intros competitive ->.
  eapply (outage_bind 0 3 3 3); [apply outage_sleep |]. intros _ _.
  eapply (outage_bind 1 2 0 3).
  { unfold risk_assessment_agent. rewrite Hlen. apply outage_ask, Hrl. }
  intros risk ->.
  eapply (outage_bind 0 2 3 0); [apply outage_sleep |]. intros _ _.
  eapply (outage_bind 2 0 0 0); [apply outage_advisor; assumption |].
  intros advice ->.
  eapply (outage_bind 0 0 0 0); [apply outage_get_trace |]. intros finish _.
  apply outage_ret. eexists. split; [reflexivity |].
  unfold outage_report. cbn [fst snd].
  repeat split; vm_compute; reflexivity.
Qed.

(** When the service only answers with rate-limit failures, an analysis
    of a usable query started with an empty cache still counts every
    section as complete: the three analysis sections and the summary hold
    the fallback text, which is long enough to pass their length tests,
    and the four bullet lines of the fallback text are parsed as four
    strategic actions.  It takes fifteen dispatches per model and sleeps
    five wait budgets and nine seconds (1809 seconds with the three
    default models). *)
Theorem outage_report_counts_every_section_complete (q t : pystr)
        (st : state R) :
  rate_limited_service ->
  response_cache st = ∅ ->
  (10 <= len (strip q))%Z ->
  (len q <= 4000)%Z ->
  (5 <= len (_clean_input_default (VStr q)))%Z ->
  exists report st' evs,
    execute_complete_analysis q t st
    = (Ok (_create_business_report report, status_message report), st')
    /\ outage_report report
    /\ response_cache st' = ∅
    /\ trace st' = trace st ++ evs
    /\ List.length (dispatched_requests evs)
       = (15 * List.length (primary_model st :: fallback_models st))%nat
    /\ total (sleeps evs)
       = (5 * wait_budget 0 (List.length (primary_model st :: fallback_models st))
          + 9)%Z.
Proof.
  intros Hrl Hempty Hlong Hfit Husable.
  assert (Hidem : _clean_input_default (VStr (_clean_input_default (VStr q)))
                  = _clean_input_default (VStr q)).
  { unfold _clean_input_default. apply clean_input_twice, Hfit. }
  assert (Hlen : (len (_clean_input_default
                         (VStr (_clean_input_default (VStr q)))) <? 5)%Z
                 = false) by (rewrite Hidem; apply Z.ltb_ge, Husable).
  destruct (outage_analysis q t Hrl Hlong Hlen st Hempty)
    as (out & st' & evs & E & (report & -> & Hreport) & C & _ & _ & T & D & W).
  exists report, st', evs.
  split; [exact E |]. split; [exact Hreport |]. split; [exact C |].
  split; [exact T |]. split.
  - rewrite D. simpl. lia.
  - rewrite W. simpl length. lia.
Qed.

(** ** The fallback text and the length tests *)

Lemma fallback_text_shape (ctx : pystr) :
  exists before after,
    fallback_text ctx
    = before ++ 65 :: skipn 2 fallback_heading ++ ctx
      ++ firstn 448 fallback_guidance ++ 46 :: after.
Proof.
  unfold fallback_text, strip.
  assert (Hh : fallback_heading = [32; 65] ++ skipn 2 fallback_heading)
    by reflexivity.
  assert (Hg : fallback_guidance =
               firstn 448 fallback_guidance ++ 46 :: skipn 449 fallback_guidance)
    by (vm_compute; reflexivity).
  set (h := skipn 2 fallback_heading) in *.
  set (g := firstn 448 fallback_guidance) in *.
  set (t := skipn 449 fallback_guidance) in *.
  rewrite Hh, Hg.
  replace (fallback_opening ++ upper ctx ++ ([32; 65] ++ h) ++ ctx ++ g ++ 46 :: t)
    with ((fallback_opening ++ upper ctx ++ [32]) ++ 65 :: (h ++ ctx ++ g ++ 46 :: t))
    by (rewrite <- !app_assoc; reflexivity).
  destruct (lstrip_app_keep (fallback_opening ++ upper ctx ++ [32]) 65
              (h ++ ctx ++ g ++ 46 :: t) eq_refl) as [a' ->].
  replace (a' ++ 65 :: h ++ ctx ++ g ++ 46 :: t)
    with ((a' ++ 65 :: h ++ ctx ++ g) ++ 46 :: t)
    by (rewrite <- !app_assoc; simpl; rewrite <- !app_assoc; reflexivity).
  destruct (rstrip_app_keep (a' ++ 65 :: h ++ ctx ++ g) 46 t eq_refl)
    as [t' ->].
  exists a', t'.
  rewrite <- !app_assoc. simpl. rewrite <- !app_assoc. reflexivity.
Qed.

(** Whatever the context label, the fallback text is trimmed and longer
    than 500 characters: it passes the acceptance test of the executor
    (150) and every completeness test of the orchestrator (300 and 200),
    so a section that holds it counts as complete. *)
Theorem fallback_text_passes_every_length_test (ctx : pystr) :
  strip (fallback_text ctx) = fallback_text ctx
  /\ (500 < len (strip (fallback_text ctx)))%Z.
Proof.
  assert (Hs : strip (fallback_text ctx) = fallback_text ctx)
    by (unfold fallback_text; apply strip_strip).
  split; [exact Hs |]. rewrite Hs.
  assert (H1 : List.length (skipn 2 fallback_heading) = 68%nat)
    by (vm_compute; reflexivity).
  assert (H2 : List.length (firstn 448 fallback_guidance) = 448%nat)
    by (vm_compute; reflexivity).
  destruct (fallback_text_shape ctx) as (before & after & ->).
  set (h := skipn 2 fallback_heading) in *.
  set (g := firstn 448 fallback_guidance) in *.
  clearbody h g. unfold len.
  repeat (rewrite length_app || rewrite length_cons). lia.
Qed.

(** ** [_calculate_quality_score]: more sections, no lower score *)

Lemma py_min_monotone (a b : Q) : (a <= b)%Q -> (py_min a 1.0 <= py_min b 1.0)%Q.
Proof.
  intros Hab. unfold py_min.
  destruct (Qltb 1.0 a) eqn:Ea; destruct (Qltb 1.0 b) eqn:Eb.
  - apply Qle_refl.
  - apply Qltb_true in Ea. apply Qltb_false in Eb. lra.
  - apply Qltb_false in Ea. exact Ea.
  - exact Hab.
Qed.

(** Between two reports that differ only in which of their (equally
    many) sections are complete, the one with at least as many complete
    sections has at least as high a score. *)
Theorem more_complete_sections_never_lower_the_score
        (r : BusinessReport) (status1 status2 : list (pystr * bool)) :
  List.length status1 = List.length status2 ->
  (count_true status1 <= count_true status2)%nat ->
  let report s :=
    set_results r (market_intelligence r) (competitive_landscape r)
                (risk_evaluation r) (strategic_actions r)
                (executive_briefing r) (processing_duration r) s in
  (_calculate_quality_score (report status1)
   <= _calculate_quality_score (report status2))%Q.
Proof.
  intros Hlen Hcount report.
  unfold _calculate_quality_score, quality_score_body, report. simpl.
  unfold completeness_score. rewrite <- Hlen.
  destruct (List.length status1) as [| n]; [apply Qle_refl |].
  apply py_min_monotone.
  assert (Hc : (Z.of_nat (count_true status1) # Pos.of_succ_nat n
                <= Z.of_nat (count_true status2) # Pos.of_succ_nat n)%Q).
  { unfold Qle. simpl. nia. }
  unfold content_quality. simpl.
  set (c1 := (Z.of_nat (count_true status1) # Pos.of_succ_nat n)%Q) in *.
  set (c2 := (Z.of_nat (count_true status2) # Pos.of_succ_nat n)%Q) in *.
  set (cq := ((if (6 <=? len (strategic_actions r))%Z then 0.5 else 0)
              + (if (300 <? len (strip (executive_briefing r)))%Z
                 then 0.5 else 0))%Q).
  set (ps := performance_score (processing_duration r)).
  clearbody c1 c2 cq ps. lra.
Qed.

(** ** [BusinessReport.__post_init__] *)

(** A new report holds a trimmed query and trimmed, non-empty targets,
    in the order given; everything else is empty. *)
Theorem new_report_is_normalised (q : pystr) (ts : list pystr) :
  let r := new_report q ts in
  strip (query r) = query r
  /\ Forall (fun t => t <> [] /\ strip t = t) (targets r)
  /\ (Forall (fun t => t <> [] /\ strip t = t) ts -> targets r = ts)
  /\ strategic_actions r = [] /\ completion_status r = [].
Proof.
  simpl. split; [apply strip_strip |]. split; [| split; [| split; reflexivity]].
  - induction ts as [| t ts IH]; simpl; [constructor |].
    destruct (strip t) as [| c s] eqn:E; simpl; [exact IH |].
    constructor; [| exact IH].
    split; [discriminate | rewrite <- E; apply strip_strip].
  - induction 1 as [| t ts [Hne Ht] _ IH]; simpl; [reflexivity |].
    rewrite Ht. destruct t; [congruence |]. simpl. rewrite IH. reflexivity.
Qed.

(** ** The serialisation loses nothing on scalar text *)

















End Platform.

(** * Concrete runs *)

(** ** The embedding against known values *)

Example sha256_constants :
  List.length SHA256.K = 64%nat
  /\ nth 0 SHA256.K 0 = 0x428a2f98 /\ nth 63 SHA256.K 0 = 0xc67178f2
  /\ nth 0 SHA256.H0 0 = 0x6a09e667 /\ nth 7 SHA256.H0 0 = 0x5be0cd19.
Proof. vm_compute. repeat split. Qed.

Example sha256_empty :
  SHA256.hexdigest [] =
  lit "e3b0c44298fc1c149afbf4c8996fb92427ae41e4649b934ca495991b7852b855".
Proof. vm_compute. reflexivity. Qed.

Example sha256_abc :
  SHA256.hexdigest (lit "abc") =
  lit "ba7816bf8f01cfea414140de5dae2223b00361a396177a9cb410ff61f20015ad".
Proof. vm_compute. reflexivity. Qed.

Example json_dumps_one_message :
  json_dumps [ {| role := lit "system"; content := lit "x" |} ] =
  lit "[{" ++ [DQUOTE] ++ lit "content" ++ [DQUOTE] ++ lit ": "
  ++ [DQUOTE] ++ lit "x" ++ [DQUOTE] ++ lit ", "
  ++ [DQUOTE] ++ lit "role" ++ [DQUOTE] ++ lit ": "
  ++ [DQUOTE] ++ lit "system" ++ [DQUOTE] ++ lit "}]".
Proof. vm_compute. reflexivity. Qed.

Example fingerprint_one_message :
  fingerprint [ {| role := lit "system"; content := lit "x" |} ] =
  lit "81bcd2642a90538bd8da".
Proof. vm_compute. reflexivity. Qed.

(** ** Witnesses *)

Lemma clean_input_bounded_and_allowed_witness :
  let text := VStr (lit "  plan <b>2024</b> ~ growth|share  ") in
  (0 <= 12)%Z
  /\ (len (_clean_input no_class text 12) <= 12)%Z
  /\ Forall (fun c => allowed no_class c = true) (_clean_input no_class text 12)
  /\ _clean_input no_class (VStr []) 12 = []
  /\ (forall truthy, _clean_input no_class (VOther truthy) 12 = []).
Proof.
  intros text. split; [lia |].
  apply (clean_input_bounded_and_allowed no_class text 12). lia.
Defined.

Lemma short_query_is_rejected_witness :
  let st := fresh_system two_messages 2 in
  (len (strip (lit " ab ")) < 10)%Z
  /\ execute_complete_analysis no_class no_class no_case no_case unit
       (service_fixed sample_text) render_briefing render_briefing
       render_error no_time (lit " ab ") (lit "Acme, Globex") st
     = (Ok (validation_report, validation_status), st).
Proof.
  intros st. split; [vm_compute; reflexivity |].
  apply (short_query_is_rejected no_class no_class no_case no_case unit
           (service_fixed sample_text) render_briefing render_briefing
           render_error no_time (lit " ab ") (lit "Acme, Globex") st).
  vm_compute. reflexivity.
Defined.

Lemma quality_score_in_unit_interval_witness :
  completion_status sample_report = []
  /\ (0 <= _calculate_quality_score sample_report <= 1)%Q
  /\ _calculate_quality_score sample_report = 0.75%Q.
Proof.
  split; [reflexivity |].
  destruct (quality_score_in_unit_interval sample_report) as [Hrange Hdefault].
  split; [exact Hrange | apply Hdefault; reflexivity].
Defined.

Lemma performance_score_bands_witness :
  performance_score 30 = 0.15%Q
  /\ performance_score 90 = 0.1%Q
  /\ performance_score 200 = 0%Q.
Proof.
  split; [| split].
  - apply (proj1 (performance_score_bands 30)); unfold Qlt, Qle; simpl; lia.
  - apply (proj1 (proj2 (performance_score_bands 90))).
    right. unfold Qlt, Qle; simpl; lia.
  - apply (proj2 (proj2 (performance_score_bands 200))).
    unfold Qlt; simpl; lia.
Defined.

Lemma executor_never_raises_witness :
  let st := fresh_system two_messages 2 in
  let ctx := lit "market_intelligence" in
  rate_limited_service unit service_rate_limited
  /\ exists st' evs,
       _execute_groq_call no_case no_case unit service_rate_limited
                          [0; 1]%nat 1000 ctx st
         = (Ok (fallback_text no_case ctx), st')
       /\ trace st' = trace st ++ evs
       /\ dispatched_models evs
          = flat_map (fun m => [m; m; m])
                     (primary_model st :: fallback_models st)
       /\ sleeps evs
          = flat_map (fun im => rate_limit_waits (fst im))
                     (enumerate (primary_model st :: fallback_models st))
       /\ response_cache st' = response_cache st
       /\ exists before after,
            fallback_text no_case ctx = before ++ ctx ++ after.
Proof.
  intros st ctx.
  assert (Hrl : rate_limited_service unit service_rate_limited)
    by (intros r req; eexists _, _; reflexivity).
  split; [exact Hrl |].
  apply (proj2 (executor_never_raises no_case no_case unit
                  service_rate_limited [0; 1]%nat 1000 ctx st)).
  - exact Hrl.
  - discriminate.
  - vm_compute. reflexivity.
Defined.

Lemma cache_key_is_fingerprint_of_received_messages_witness :
  let st := fresh_system two_messages 2 in
  let key := fingerprint (view unit st [0; 1]%nat) in
  [0; 1]%nat <> []
  /\ _generate_cache_id (json_dumps (view unit st [0; 1]%nat)) = Ok key
  /\ (forall r, response_cache st !! key = Some r ->
                _execute_groq_call no_case no_case unit
                  (service_fixed sample_text) [0; 1]%nat 1000
                  (lit "market_intelligence") st = (Ok r, st))
  /\ (response_cache st !! key = None ->
      exists text st',
        _execute_groq_call no_case no_case unit (service_fixed sample_text)
          [0; 1]%nat 1000 (lit "market_intelligence") st = (Ok text, st')
        /\ (response_cache st' = response_cache st
            \/ response_cache st' = <[key := text]> (response_cache st))).
Proof.
  intros st key. split; [discriminate |].
  apply (cache_key_is_fingerprint_of_received_messages no_case no_case unit
           (service_fixed sample_text) [0; 1]%nat 1000
           (lit "market_intelligence") st).
  discriminate.
Defined.

Lemma cache_hit_short_circuits_witness :
  let st := fresh_system two_messages 2 in
  let run := _execute_groq_call no_case no_case unit
               (service_fixed sample_text) [0; 1]%nat 1000
               (lit "market_intelligence") st in
  let st2 := set_next_loc 4 (set_heap (with_copies (heap (snd run))) (snd run)) in
  fingerprint (view unit st2 [2; 3]%nat) = fingerprint (view unit st [0; 1]%nat)
  /\ _execute_groq_call no_case no_case unit (service_fixed sample_text)
       [2; 3]%nat 600 (lit "executive_summary") st2 = (fst run, st2).
Proof.
  intros st run st2.
  apply (cache_hit_short_circuits no_case no_case unit
           (service_fixed sample_text) [0; 1]%nat [2; 3]%nat 1000 600
           (lit "market_intelligence") (lit "executive_summary")
           st (snd run) st2 (fst run)).
  - apply surjective_pairing.
  - intros H.
    apply (f_equal (fun c => c !! fingerprint (view unit st [0; 1]%nat))) in H.
    vm_compute in H. discriminate.
  - reflexivity.
  - vm_compute. reflexivity.
Defined.

Lemma cache_holds_only_accepted_content_witness :
  let st := fresh_system two_messages 2 in
  let run := _execute_groq_call no_case no_case unit
               (service_fixed sample_text) [0; 1]%nat 1000
               (lit "market_intelligence") st in
  reachable no_case no_case unit (service_fixed sample_text) (snd run)
  /\ map_Forall (fun _ v => (150 < len v)%Z) (response_cache (snd run)).
Proof.
  intros st run.
  assert (Hreach : reachable no_case no_case unit (service_fixed sample_text)
                             (snd run)).
  { eapply reach_call; [| apply surjective_pairing].
    apply (reach_init no_case no_case unit (service_fixed sample_text)
             sample_api_key two_messages 2%nat tt).
    reflexivity. }
  split; [exact Hreach |].
  apply (proj1 (cache_holds_only_accepted_content no_case no_case unit
                  (service_fixed sample_text))).
  exact Hreach.
Defined.

(** ** Where the code departs from the claims *)

(** C1 as stated fails.  A fresh system receives a system and a user
    message and the service returns acceptable text.  What is dispatched
    is the enhanced list, whose content differs from the list received;
    the response is stored under the fingerprint of the list received, and
    nothing is stored under the fingerprint of the enhanced list. *)
Lemma cache_key_is_not_fingerprint_of_enhanced_messages :
  let st := fresh_system two_messages 2 in
  let run := _execute_groq_call no_case no_case unit
               (service_fixed sample_text) [0; 1]%nat 1000
               (lit "market_intelligence") st in
  let received := view unit st [0; 1]%nat in
  let enhanced_messages := view unit (snd run) [0; 1]%nat in
  fst run = Ok sample_text
  /\ dispatched_messages (trace (snd run)) = [enhanced_messages]
  /\ response_cache (snd run) !! fingerprint received = Some sample_text
  /\ response_cache (snd run) !! fingerprint enhanced_messages = None
  /\ fingerprint enhanced_messages <> fingerprint received.
Proof.
  repeat split; try (vm_compute; reflexivity).
  vm_compute. discriminate.
Qed.

(** C8 as stated fails at a duration of 0 seconds, which is at most 60
    and gets the partial credit. *)
Lemma zero_duration_gets_partial_credit :
  (0 <= 60)%Q
  /\ performance_score 0 = 0.1%Q
  /\ performance_score 0 <> 0.15%Q.
Proof.
  split; [discriminate |]. split; [reflexivity | discriminate].
Qed.

(** C5.  The caller's list is [messages = [system, user]].  After the
    call the caller's first message carries the accuracy clause: the
    executor copied the list, not the dicts in it. *)
Theorem executor_changes_callers_first_message :
  let st := fresh_system two_messages 2 in
  let run := _execute_groq_call no_case no_case unit
               (service_fixed sample_text) [0; 1]%nat 1000
               (lit "market_intelligence") st in
  view unit st [0; 1]%nat
    = [ {| role := lit "system"; content := lit "Be brief." |};
        {| role := lit "user"; content := lit "hi" |} ]
  /\ fst run = Ok sample_text
  /\ view unit (snd run) [0; 1]%nat
     = [ {| role := lit "system";
            content := lit "Be brief." ++ accuracy_clause |};
         {| role := lit "user"; content := lit "hi" |} ].
Proof. repeat split; vm_compute; reflexivity. Qed.

(** A consequence: handing the same list to the executor again is not a
    cache hit, since its content is no longer what was fingerprinted; the
    service is called a second time and the clause is appended again. *)
Example reusing_the_list_misses_the_cache :
  let st := fresh_system two_messages 2 in
  let run1 := _execute_groq_call no_case no_case unit
                (service_fixed sample_text) [0; 1]%nat 1000
                (lit "market_intelligence") st in
  let run2 := _execute_groq_call no_case no_case unit
                (service_fixed sample_text) [0; 1]%nat 1000
                (lit "market_intelligence") (snd run1) in
  List.length (dispatched_models (trace (snd run1))) = 1%nat
  /\ List.length (dispatched_models (trace (snd run2))) = 2%nat
  /\ content (deref (heap (snd run2)) 0)
     = lit "Be brief." ++ accuracy_clause ++ accuracy_clause.
Proof. repeat split; vm_compute; reflexivity. Qed.

(** ** Witnesses of the further properties *)

Lemma unavailable_models_are_skipped_witness :
  let st := fresh_system two_messages 2 in
  let ctx := lit "risk_assessment" in
  unavailable_service no_case unit service_decommissioned
  /\ exists st' evs,
       _execute_groq_call no_case no_case unit service_decommissioned
                          [0; 1]%nat 800 ctx st
         = (Ok (fallback_text no_case ctx), st')
       /\ trace st' = trace st ++ evs
       /\ dispatched_models evs = primary_model st :: fallback_models st
       /\ sleeps evs = []
       /\ response_cache st' = response_cache st.
Proof.
  intros st ctx.
  assert (Hun : unavailable_service no_case unit service_decommissioned)
    by (intros r req; eexists _, _; split; [reflexivity | vm_compute; reflexivity]).
  split; [exact Hun |].
  apply (unavailable_models_are_skipped no_case no_case unit
           service_decommissioned [0; 1]%nat 800 ctx st).
  - exact Hun.
  - discriminate.
  - vm_compute. reflexivity.
Defined.

Lemma unacceptable_answers_are_retried_without_sleeping_witness :
  let st := fresh_system two_messages 2 in
  let ctx := lit "risk_assessment" in
  unacceptable_service unit (service_fixed short_text)
  /\ exists st' evs,
       _execute_groq_call no_case no_case unit (service_fixed short_text)
                          [0; 1]%nat 800 ctx st
         = (Ok (fallback_text no_case ctx), st')
       /\ trace st' = trace st ++ evs
       /\ dispatched_models evs
          = flat_map (fun m => [m; m; m])
                     (primary_model st :: fallback_models st)
       /\ sleeps evs = []
       /\ response_cache st' = response_cache st.
Proof.
  intros st ctx.
  assert (Hun : unacceptable_service unit (service_fixed short_text))
    by (intros r req; eexists _, _; split; [reflexivity | vm_compute; reflexivity]).
  split; [exact Hun |].
  apply (unacceptable_answers_are_retried_without_sleeping no_case no_case unit
           (service_fixed short_text) [0; 1]%nat 800 ctx st).
  - exact Hun.
  - discriminate.
  - vm_compute. reflexivity.
Defined.

Lemma executor_changes_only_first_message_witness :
  let st := fresh_system two_messages 2 in
  let st' := snd (_execute_groq_call no_case no_case unit
                    (service_fixed sample_text) [0; 1]%nat 1000
                    (lit "market_intelligence") st) in
  head [0; 1]%nat <> Some 1%nat
  /\ heap st' !! 1%nat = heap st !! 1%nat.
Proof.
  intros st st'. split; [discriminate |].
  apply (executor_changes_only_first_message no_case no_case unit
           (service_fixed sample_text) [0; 1]%nat 1000
           (lit "market_intelligence") st).
  discriminate.
Defined.

Lemma accepted_first_answer_is_returned_witness :
  let st := fresh_system two_messages 2 in
  let k := fingerprint (view unit st [0; 1]%nat) in
  let req := request_for (primary_model st)
                         (view unit (enhanced unit 0 st) [0; 1]%nat) 1000 in
  let resp := {| choices := [ {| message_content := Some sample_text |} ] |} in
  _execute_groq_call no_case no_case unit (service_fixed sample_text)
                     [0; 1]%nat 1000 (lit "market_intelligence") st
  = (Ok sample_text,
     set_response_cache (<[k := sample_text]> (response_cache st))
       (set_service tt (add_event (Dispatch req (Ok resp))
                                  (enhanced unit 0 st)))).
Proof.
  intros st k req resp.
  apply (accepted_first_answer_is_returned no_case no_case unit
           (service_fixed sample_text) 0%nat [1%nat] 1000
           (lit "market_intelligence") st resp tt sample_text).
  - vm_compute. reflexivity.
  - reflexivity.
  - vm_compute. reflexivity.
Defined.

Lemma clean_input_idempotent_when_it_fits_witness :
  (len padded_text <= 100)%Z
  /\ _clean_input no_class (VStr (_clean_input no_class (VStr padded_text) 100))
                  100
     = _clean_input no_class (VStr padded_text) 100.
Proof.
  assert (H : (len padded_text <= 100)%Z)
    by (apply Z.leb_le; vm_compute; reflexivity).
  split; [exact H |].
  apply (clean_input_idempotent_when_it_fits no_class padded_text 100 H).
Defined.

Lemma secondary_pass_appends_new_items_witness :
  let lines := split_on LF parser_example in
  (len (@nil pystr) < 8)%Z
  /\ (len (secondary_extraction no_case lines []) <= 8)%Z.
Proof.
  intros lines.
  assert (H : (len (@nil pystr) < 8)%Z) by (unfold len; simpl; lia).
  split; [exact H |].
  apply (proj2 (secondary_pass_appends_new_items no_case lines [])), H.
Defined.

Lemma process_targets_bounds_witness :
  strip (lit "   ") = []
  /\ process_targets no_class (lit "   ") = [].
Proof.
  assert (H : strip (lit "   ") = []) by (vm_compute; reflexivity).
  split; [exact H |].
  apply (proj2 (proj2 (process_targets_bounds no_class (lit "   ")))), H.
Defined.

Lemma analysis_keeps_cache_and_objects_witness :
  let st := fresh_system two_messages 2 in
  let st' := snd (execute_complete_analysis no_class no_class no_case no_case
                    unit (service_fixed sample_text) render_briefing
                    render_briefing render_error no_time
                    usable_query (lit "Acme, Globex") st) in
  (1 < next_loc st)%nat
  /\ heap st' !! 1%nat = heap st !! 1%nat.
Proof.
  intros st st'.
  assert (H : (1 < next_loc st)%nat) by (simpl; lia).
  split; [exact H |].
  apply (proj2 (proj2 (analysis_keeps_cache_and_objects no_class no_class
                         no_case no_case unit (service_fixed sample_text)
                         render_briefing render_briefing render_error no_time
                         usable_query (lit "Acme, Globex") st))), H.
Defined.

Lemma unusable_query_dispatches_nothing_witness :
  let st := fresh_system two_messages 2 in
  (10 <= len (strip unusable_query))%Z
  /\ (len (_clean_input_default no_class (VStr unusable_query)) < 5)%Z
  /\ exists report,
       execute_complete_analysis no_class no_class no_case no_case unit
         (service_fixed sample_text) render_briefing render_briefing
         render_error no_time unusable_query (lit "Acme") st
       = (Ok (render_briefing report, render_briefing report),
          add_event (Sleep 3) (add_event (Sleep 3) (add_event (Sleep 3) st)))
       /\ completion_status report
          = List.map (fun name => (name, false)) section_names
       /\ strategic_actions report = []
       /\ market_intelligence report
          = lit "Insufficient query detail for market intelligence analysis."
       /\ executive_briefing report
          = lit "Insufficient query detail for strategic advisory.".
Proof.
  intros st.
  assert (H1 : (10 <= len (strip unusable_query))%Z)
    by (apply Z.leb_le; vm_compute; reflexivity).
  assert (H2 : (len (_clean_input_default no_class (VStr unusable_query)) < 5)%Z)
    by (apply Z.ltb_lt; vm_compute; reflexivity).
  split; [exact H1 |]. split; [exact H2 |].
  apply (unusable_query_dispatches_nothing no_class no_class no_case no_case
           unit (service_fixed sample_text) render_briefing render_briefing
           render_error no_time unusable_query (lit "Acme") st H1 H2).
Defined.

Lemma handler_validates_twice_witness :
  let st := fresh_system two_messages 2 in
  (8 <= len (strip (lit "AI market")) < 10)%Z
  /\ production_analysis_handler no_class no_class no_case no_case unit
       (service_fixed sample_text) render_briefing render_briefing
       render_error no_time (render_error []) (lit "AI market") (lit "") st
     = (Ok (validation_report, validation_status), st).
Proof.
  intros st.
  assert (H : (8 <= len (strip (lit "AI market")) < 10)%Z)
    by (split; [apply Z.leb_le | apply Z.ltb_lt]; vm_compute; reflexivity).
  split; [exact H |].
  apply (proj2 (proj2 (handler_validates_twice no_class no_class no_case
                         no_case unit (service_fixed sample_text)
                         render_briefing render_briefing render_error no_time
                         (render_error []) (lit "AI market") (lit "") st))), H.
Defined.

Lemma repeated_agent_request_is_served_from_cache_witness :
  let st := fresh_system ∅ 0 in
  let run := market_intelligence_agent no_class no_case no_case unit
               (service_fixed sample_text) usable_query [lit "Acme"] st in
  exists st2',
    market_intelligence_agent no_class no_case no_case unit
      (service_fixed sample_text) usable_query [lit "Acme"] (snd run)
    = (fst run, st2')
    /\ trace st2' = trace (snd run)
    /\ service st2' = service (snd run)
    /\ response_cache st2' = response_cache (snd run).
Proof.
  intros st run.
  apply (proj1 (repeated_agent_request_is_served_from_cache no_class no_case
                  no_case unit (service_fixed sample_text) usable_query []
                  [lit "Acme"] st (snd run) (snd run) (fst run)
                  ltac:(intros H; apply (f_equal size) in H;
                        vm_compute in H; discriminate)
                  ltac:(reflexivity))).
  apply surjective_pairing.
Defined.

Lemma cached_values_are_trimmed_witness :
  let st := fresh_system two_messages 2 in
  let run := _execute_groq_call no_case no_case unit
               (service_fixed sample_text) [0; 1]%nat 1000
               (lit "market_intelligence") st in
  reachable no_case no_case unit (service_fixed sample_text) (snd run)
  /\ map_Forall (fun _ v => strip v = v) (response_cache (snd run)).
Proof.
  intros st run.
  assert (Hreach : reachable no_case no_case unit (service_fixed sample_text)
                             (snd run)).
  { eapply reach_call; [| apply surjective_pairing].
    apply (reach_init no_case no_case unit (service_fixed sample_text)
             sample_api_key two_messages 2%nat tt).
    reflexivity. }
  split; [exact Hreach |].
  apply (cached_values_are_trimmed no_case no_case unit
           (service_fixed sample_text) (snd run) Hreach).
Defined.

Lemma outage_report_counts_every_section_complete_witness :
  let st := fresh_system ∅ 0 in
  exists report st' evs,
    execute_complete_analysis no_class no_class no_case no_case unit
      service_rate_limited render_briefing render_briefing render_error
      no_time usable_query (lit "Acme, Globex") st
    = (Ok (render_briefing report, render_briefing report), st')
    /\ outage_report no_case report
    /\ response_cache st' = ∅
    /\ trace st' = trace st ++ evs
    /\ List.length (dispatched_requests evs) = 45%nat
    /\ total (sleeps evs) = 1809%Z.
Proof.
  intros st.
  apply (outage_report_counts_every_section_complete no_class no_class no_case
           no_case unit service_rate_limited render_briefing render_briefing
           render_error no_time usable_query (lit "Acme, Globex") st).
  - intros r req. eexists _, _. reflexivity.
  - reflexivity.
  - apply Z.leb_le. vm_compute. reflexivity.
  - apply Z.leb_le. vm_compute. reflexivity.
  - apply Z.leb_le. vm_compute. reflexivity.
Defined.

Lemma more_complete_sections_never_lower_the_score_witness :
  let s1 := [(lit "market", true); (lit "risk", false)] in
  let s2 := [(lit "market", true); (lit "risk", true)] in
  let report s :=
    set_results sample_report (market_intelligence sample_report)
                (competitive_landscape sample_report)
                (risk_evaluation sample_report)
                (strategic_actions sample_report)
                (executive_briefing sample_report)
                (processing_duration sample_report) s in
  (_calculate_quality_score (report s1)
   <= _calculate_quality_score (report s2))%Q.
Proof.
  intros s1 s2.
  apply (more_complete_sections_never_lower_the_score sample_report s1 s2).
  - reflexivity.
  - vm_compute. lia.
Defined.

Lemma new_report_is_normalised_witness :
  let ts := [lit "Acme"; lit "Globex"] in
  Forall (fun t => t <> [] /\ strip t = t) ts
  /\ targets (new_report usable_query ts) = ts.
Proof.
  intros ts.
  assert (H : Forall (fun t => t <> [] /\ strip t = t) ts)
    by (repeat constructor; try discriminate; vm_compute; reflexivity).
  split; [exact H |].
  apply (proj1 (proj2 (proj2 (new_report_is_normalised usable_query ts)))), H.
Defined.

(** Without the bound the second pass can differ: cutting after three
    characters leaves a trailing space, which the second pass trims. *)
Example clean_input_twice_after_truncation :
  _clean_input no_class (VStr (lit "ab cd")) 3 = lit "ab "
  /\ _clean_input no_class (VStr (lit "ab ")) 3 = lit "ab".
Proof. split; vm_compute; reflexivity. Qed.


(** With lone surrogates the serialisation is not injective: the two
    surrogates of an escape, as separate characters, are written like
    the astral character itself, so the two requests share a cache
    key. *)
Example lone_surrogates_share_a_cache_key :
  astral_message <> surrogate_message
  /\ json_dumps astral_message = json_dumps surrogate_message
  /\ fingerprint astral_message = fingerprint surrogate_message.
Proof.
  split; [discriminate |].
  assert (E : json_dumps astral_message = json_dumps surrogate_message)
    by (vm_compute; reflexivity).
  split; [exact E | apply fingerprint_of_json; exact E].
Qed.
